(** * The opkit packaging pipeline ([main] of the command line tool)

    A shallow embedding of the command line driver: flag detection,
    settings validation, the per-platform package layout, the user build
    and compile steps, packaging, code signing and the notarization poll
    loop.  External collaborators (process execution, the file system,
    the settings parser, the template renderer) are taken as a [Host]. *)

From Stdlib Require Import ZArith String Ascii List Bool Lia.
From stdpp Require Import base option gmap strings.

Local Open Scope string_scope.
Local Open Scope Z_scope.

(** ** std::string helpers *)

Module Str.

(** [s.starts_with(p)]: the comparison [find] performs at one position. *)
Fixpoint starts_with (p s : string) : bool :=
  match p with
  | EmptyString => true
  | String a p' =>
      match s with
      | EmptyString => false
      | String b s' => if Ascii.eqb a b then starts_with p' s' else false
      end
  end.

(** [std::string::find]: the index of the first occurrence of [sub] in
    [s]; [None] stands for [npos], the value the source compares with -1. *)
Fixpoint find (sub s : string) : option nat :=
  if starts_with sub s then Some 0%nat
  else match s with
       | EmptyString => None
       | String _ s' => option_map S (find sub s')
       end.

(** The test [s.find(sub) != -1] of the source. *)
Definition found (sub s : string) : bool :=
  match find sub s with Some _ => true | None => false end.

(** [s.size() == 0] / [s.empty()]. *)
Definition empty (s : string) : bool :=
  match s with EmptyString => true | _ => false end.

Fixpoint last (s : string) : option ascii :=
  match s with
  | EmptyString => None
  | String c EmptyString => Some c
  | String _ s' => last s'
  end.

(** Occurrence as a substring, the mathematical reading of "contains". *)
Definition occurs (sub s : string) : Prop :=
  exists pre post, s = pre ++ sub ++ post.

End Str.

(** ** The fragment of std::regex (ECMAScript grammar) the source uses

    Both patterns of the source are sequences of literal characters, one
    greedy star over a literal and one capturing group around a lazy
    [.+?].  [regex_search] tries every start position from the left and
    backtracks inside a position as the ECMAScript matcher does. *)

Module Regex.

Inductive item : Type :=
| Lit (c : ascii)            (* a literal character *)
| Star (c : ascii)           (* [c*], greedy *)
| GroupLazyPlusAny.          (* [(.+?)], the only capturing group *)

Definition lits (s : string) : list item :=
  List.map Lit (list_ascii_of_string s).

(** [.] matches any character but a line terminator. *)
Definition is_line_terminator (c : ascii) : bool :=
  Ascii.eqb c "010"%char || Ascii.eqb c "013"%char.

(** Match [items] as a prefix of [s]; the result is the text captured by
    the group, if the pattern has one. *)
Fixpoint match_here (items : list item) (s : string) : option (option string) :=
  match items with
  | nil => Some None
  | Lit c :: rest =>
      match s with
      | String c' s' => if Ascii.eqb c c' then match_here rest s' else None
      | EmptyString => None
      end
  | Star c :: rest =>
      (fix star (s : string) : option (option string) :=
         match s with
         | String c' s' =>
             if Ascii.eqb c c'
             then match star s' with
                  | Some r => Some r
                  | None => match_here rest s
                  end
             else match_here rest s
         | EmptyString => match_here rest s
         end) s
  | GroupLazyPlusAny :: rest =>
      (fix plus (acc s : string) : option (option string) :=
         match s with
         | String c' s' =>
             if is_line_terminator c' then None
             else
               let acc' := acc ++ String c' EmptyString in
               match match_here rest s' with
               | Some _ => Some (Some acc')
               | None => plus acc' s'
               end
         | EmptyString => None
         end) EmptyString s
  end.

(** [std::regex_search]: the leftmost start position that matches. *)
Fixpoint regex_search (items : list item) (s : string) : option (option string) :=
  match match_here items s with
  | Some r => Some r
  | None =>
      match s with
      | EmptyString => None
      | String _ s' => regex_search items s'
      end
  end.

(** [match.str(1)] after a search, the empty string when nothing matched
    (the source leaves the target variable default-initialised then). *)
Definition capture1 (items : list item) (s : string) : string :=
  match regex_search items s with
  | Some (Some cap) => cap
  | _ => EmptyString
  end.

End Regex.

Definition nl : string := String "010"%char EmptyString.

(** [R"(\nRequestUUID = (.+?)\n)"] *)
Definition re_request_uuid : list Regex.item :=
  (Regex.lits nl ++ Regex.lits "RequestUUID = " ++
   [Regex.GroupLazyPlusAny] ++ Regex.lits nl)%list.

(** [R"(\n *Status: (.+?)\n)"] *)
Definition re_status : list Regex.item :=
  (Regex.lits nl ++ [Regex.Star " "%char] ++ Regex.lits "Status: " ++
   [Regex.GroupLazyPlusAny] ++ Regex.lits nl)%list.


(** ** std::filesystem::path

    A path is its native-format string.  [operator/] follows the rule of
    the C++ standard ([fs.path.append]); what differs between the hosts is
    the separator and how a root name is recognised. *)

(** Modelled from the spec: the [platform] value of common.hh, which is
    not among the sources; the target platform is exactly one of macOS,
    Linux and Windows and is determined by the host.  [mac], [linux] and
    [win] are its three fields. *)
Inductive Platform : Type := Mac | Linux | Win.

Definition mac (pl : Platform) : bool := match pl with Mac => true | _ => false end.
Definition linux (pl : Platform) : bool := match pl with Linux => true | _ => false end.
Definition win (pl : Platform) : bool := match pl with Win => true | _ => false end.

Module Path.

Definition path : Type := string.

Definition is_slash (pl : Platform) (c : ascii) : bool :=
  match pl with
  | Win => Ascii.eqb c "/"%char || Ascii.eqb c "\"%char
  | _ => Ascii.eqb c "/"%char
  end.

Definition preferred_separator (pl : Platform) : string :=
  match pl with Win => "\" | _ => "/" end.

Definition is_letter (c : ascii) : bool :=
  let n := nat_of_ascii c in
  ((65 <=? n)%nat && (n <=? 90)%nat) || ((97 <=? n)%nat && (n <=? 122)%nat).

Fixpoint drop (n : nat) (s : string) : string :=
  match n, s with
  | O, _ => s
  | S n', String _ s' => drop n' s'
  | S _, EmptyString => EmptyString
  end.

Fixpoint take (n : nat) (s : string) : string :=
  match n, s with
  | O, _ => EmptyString
  | S n', String c s' => String c (take n' s')
  | S _, EmptyString => EmptyString
  end.

(** the number of leading characters that are not separators *)
Fixpoint span_no_slash (pl : Platform) (s : string) : nat :=
  match s with
  | String c s' => if is_slash pl c then O else S (span_no_slash pl s')
  | EmptyString => O
  end.

(** Length of the root name.  POSIX paths have none; on Windows a drive
    ([X:]), a device prefix ([\\?\], [\\.\], [\??\]) or a server
    ([\\server]) is one. *)
Definition root_name_len (pl : Platform) (s : string) : nat :=
  match pl with
  | Win =>
      match s with
      | String c0 (String c1 rest) =>
          if is_letter c0 && Ascii.eqb c1 ":"%char then 2%nat
          else if negb (is_slash Win c0) then 0%nat
          else
            match rest with
            | String c2 (String c3 rest4) =>
                if is_slash Win c3
                   && match rest4 with
                      | EmptyString => true
                      | String c4 _ => negb (is_slash Win c4)
                      end
                   && ((is_slash Win c1 && (Ascii.eqb c2 "?"%char || Ascii.eqb c2 "."%char))
                       || (Ascii.eqb c1 "?"%char && Ascii.eqb c2 "?"%char))
                then 3%nat
                else if is_slash Win c1 && negb (is_slash Win c2)
                then (3 + span_no_slash Win (String c3 rest4))%nat
                else 0%nat
            | String c2 EmptyString =>
                if is_slash Win c1 && negb (is_slash Win c2) then 3%nat else 0%nat
            | EmptyString => 0%nat
            end
      | _ => 0%nat
      end
  | _ => 0%nat
  end.

Definition root_name (pl : Platform) (s : path) : string := take (root_name_len pl s) s.
Definition has_root_name (pl : Platform) (s : path) : bool :=
  negb (Nat.eqb (root_name_len pl s) 0).

Definition has_root_directory (pl : Platform) (s : path) : bool :=
  match drop (root_name_len pl s) s with
  | String c _ => is_slash pl c
  | EmptyString => false
  end.

(** a drive needs a root directory to be absolute ([X:\dir], not
    [X:file]); every other root name is absolute by itself *)
Definition is_absolute (pl : Platform) (s : path) : bool :=
  match pl with
  | Win =>
      match s with
      | String c0 (String c1 rest) =>
          if is_letter c0 && Ascii.eqb c1 ":"%char
          then match rest with String c2 _ => is_slash Win c2 | EmptyString => false end
          else has_root_name Win s
      | _ => false
      end
  | _ => has_root_directory pl s
  end.

(** the last component is not empty *)
Definition has_filename (pl : Platform) (s : path) : bool :=
  match Str.last (drop (root_name_len pl s) s) with
  | Some c => negb (is_slash pl c)
  | None => false
  end.

(** [p / q] *)
Definition join (pl : Platform) (p q : path) : path :=
  if is_absolute pl q
     || (has_root_name pl q && negb (String.eqb (root_name pl q) (root_name pl p)))
  then q
  else if has_root_directory pl q
  then root_name pl p ++ drop (root_name_len pl q) q
  else if (negb (has_root_directory pl p) && is_absolute pl p) || has_filename pl p
  then p ++ preferred_separator pl ++ drop (root_name_len pl q) q
  else p ++ drop (root_name_len pl q) q.

(** a path with neither root name nor root directory *)
Definition is_plain_relative (pl : Platform) (q : path) : bool :=
  negb (has_root_name pl q) && negb (has_root_directory pl q).

(** [p] extends [root]: it is [root] joined with a non-empty relative path.
    This looks at the text only: the relative path may step up with [..],
    so [root/..] counts; [inside] below rules that out. *)
Definition descendant (pl : Platform) (root p : path) : Prop :=
  exists rel, rel <> EmptyString /\ is_plain_relative pl rel = true /\ p = join pl root rel.

(** the components of a path: the pieces between its separators (what
    iterating over the path yields, with an empty piece wherever two
    separators meet or the path ends in one) *)
Fixpoint components (pl : Platform) (s : string) : list string :=
  match s with
  | EmptyString => [EmptyString]
  | String c s' =>
      if is_slash pl c then EmptyString :: components pl s'
      else match components pl s' with
           | x :: xs => String c x :: xs
           | [] => [String c EmptyString]
           end
  end.

(** no component is [..] *)
Definition no_dotdot (pl : Platform) (q : path) : bool :=
  forallb (fun c => negb (String.eqb c "..")) (components pl q).

(** a component that names a directory entry: not empty, not [.], not [..] *)
Definition is_name (c : string) : bool :=
  negb (String.eqb c EmptyString) && negb (String.eqb c ".") && negb (String.eqb c "..").

Definition has_name (pl : Platform) (q : path) : bool :=
  existsb is_name (components pl q).

(** [p] is inside the directory [root]: it is [root] extended by a relative
    path that names at least one entry and never steps up with [..] *)
Definition inside (pl : Platform) (root p : path) : Prop :=
  exists rel,
    is_plain_relative pl rel = true /\ no_dotdot pl rel = true /\
    has_name pl rel = true /\ p = join pl root rel.

End Path.

Abbreviation path := Path.path.

(** ** Observable effects and the host *)

Inductive FsOp : Type :=
| RemoveAll (p : path)
| CreateDirectories (p : path)
| CopyFile (from to : path)
| CreateSymlink (to link : path)
| SetCurrentPath (p : path).

Inductive Event : Type :=
| Log (s : string)                    (* log(s) *)
| Usage                               (* the text help() prints *)
| SetEnv (s : string)                 (* setEnv("K=V") *)
| Fs (op : FsOp)                      (* a std::filesystem call that changes the file system *)
| WriteFile (p : path) (text : string)
| Exec (cmd : string)                 (* exec(cmd): spawn, capture output and exit code *)
| System (cmd : string)               (* std::system(cmd) *)
| Sleep (ms : Z)                      (* std::this_thread::sleep_for *)
| WinAppx (pkg : path).               (* the AppxPackaging calls that write <pkg>.appx *)

(** what [exec] returns; [main] reads these two fields *)
Record ExecOutput : Type := { exitCode : Z; output : string }.

Abbreviation Settings := (gmap string string).

(** Everything [main] takes from outside.  The helpers of common.hh and
    process.hh are parameters; what the environment answers may depend on
    everything the run has done so far (the history of events). *)
Record Host : Type := {
  (* helpers *)
  parseConfig : string -> Settings;
  tmpl : string -> Settings -> string;
  pathToString : path -> string;
  prefixFile : string -> string;
  split : string -> ascii -> list string;
  encodeURIComponent : string -> string;
  gPListInfo : string;
  gDestkopManifest : string;
  gDebianManifest : string;
  gWindowsAppManifest : string;
  (* the environment *)
  getEnv : list Event -> string -> string;
  readFile : list Event -> path -> string;
  current_path : list Event -> path;
  exists_ : list Event -> path -> bool;
  exec : list Event -> string -> ExecOutput;
  system : list Event -> string -> Z;
  (* whether the std::filesystem call raises filesystem_error, which main
     does not catch *)
  throws : list Event -> FsOp -> bool;
}.

(** ** The monad of [main]: the settings map, the history, early exit *)

Record State : Type := { settings : Settings; trace : list Event }.

Inductive Outcome (A : Type) : Type :=
| Ok (a : A)           (* the statement completed *)
| Exit (code : Z)      (* exit(code) was called *)
| Terminate            (* an exception left main *)
| OutOfFuel.           (* the model's loop bound was too small *)

Arguments Ok {A} a.
Arguments Exit {A} code.
Arguments Terminate {A}.
Arguments OutOfFuel {A}.

Definition M (A : Type) : Type := State -> Outcome A * State.

Definition ret {A} (a : A) : M A := fun st => (Ok a, st).

Definition bind {A B} (m : M A) (k : A -> M B) : M B :=
  fun st =>
    match m st with
    | (Ok a, st') => k a st'
    | (Exit c, st') => (Exit c, st')
    | (Terminate, st') => (Terminate, st')
    | (OutOfFuel, st') => (OutOfFuel, st')
    end.

Declare Scope prog_scope.
Delimit Scope prog_scope with prog.
Notation "x <- m ;; k" := (bind m (fun x => k))
  (at level 20, m at level 99, k at level 200, only parsing) : prog_scope.
Notation "m ;; k" := (bind m (fun _ => k))
  (at level 100, k at level 200, only parsing, right associativity) : prog_scope.
Local Open Scope prog_scope.

Definition emit (e : Event) : M unit :=
  fun st => (Ok tt, {| settings := settings st; trace := (trace st ++ [e])%list |}).

Definition exit {A} (code : Z) : M A := fun st => (Exit code, st).

Definition when (b : bool) (m : M unit) : M unit := if b then m else ret tt.

(** [settings[k]] read: std::map::operator[] creates the entry with an
    empty value when the key is absent. *)
Definition get (k : string) (m : Settings) : string := default EmptyString (m !! k).
Definition touch (k : string) (m : Settings) : Settings :=
  match m !! k with Some _ => m | None => <[k := EmptyString]> m end.

Definition settings_at (k : string) : M string :=
  fun st => (Ok (get k (settings st)),
             {| settings := touch k (settings st); trace := trace st |}).

(** [settings[k] = v] *)
Definition settings_set (k v : string) : M unit :=
  fun st => (Ok tt, {| settings := <[k := v]> (settings st); trace := trace st |}).

(** [settings.count(k)] *)
Definition settings_count (k : string) : M Z :=
  fun st => (Ok (match settings st !! k with Some _ => 1 | None => 0 end), st).

Definition settings_all : M Settings := fun st => (Ok (settings st), st).

Definition settings_assign (m : Settings) : M unit :=
  fun st => (Ok tt, {| settings := m; trace := trace st |}).

Section Program.

Variable H : Host.
Variable platform : Platform.

Local Notation "p / q" := (Path.join platform p q) (only parsing) : prog_scope.

Definition log (s : string) : M unit := emit (Log s).

(** [help()] ends in [exit(0)] *)
Definition help : M unit := emit Usage ;; exit 0.

Definition ask {A} (f : list Event -> A) : M A := fun st => (Ok (f (trace st)), st).

Definition getEnv_ (name : string) : M string := ask (fun h => getEnv H h name).

(** a std::filesystem call that may throw *)
Definition fs (op : FsOp) : M unit :=
  fun st =>
    if throws H (trace st) op then (Terminate, st)
    else emit (Fs op) st.

Definition writeFile (p : path) (text : string) : M unit := emit (WriteFile p text).

Definition exec_ (cmd : string) : M ExecOutput :=
  fun st => (Ok (exec H (trace st) cmd),
             {| settings := settings st; trace := (trace st ++ [Exec cmd])%list |}).

Definition system_ (cmd : string) : M Z :=
  fun st => (Ok (system H (trace st) cmd),
             {| settings := settings st; trace := (trace st ++ [System cmd])%list |}).

Definition getCxxFlags : M string :=
  flags <- getEnv_ "CXX_FLAGS" ;;
  ret (if Str.empty flags then "" else " " ++ flags).

(** *** Command line flags *)

Record Flags : Type := {
  flagRunUserBuild : bool;
  flagAppStore : bool;
  flagCodeSign : bool;
  flagShouldRun : bool;
  flagEntitlements : bool;
  flagShouldNotarize : bool;
  flagDebugMode : bool;
  flagShouldPackage : bool;
}.

Definition initial_flags : Flags :=
  {| flagRunUserBuild := false; flagAppStore := false; flagCodeSign := false;
     flagShouldRun := false; flagEntitlements := false; flagShouldNotarize := false;
     flagDebugMode := true; flagShouldPackage := false |}.

Definition set_flagCodeSign (f : Flags) : Flags :=
  {| flagRunUserBuild := flagRunUserBuild f; flagAppStore := flagAppStore f; flagCodeSign := true;
     flagShouldRun := flagShouldRun f; flagEntitlements := flagEntitlements f;
     flagShouldNotarize := flagShouldNotarize f; flagDebugMode := flagDebugMode f;
     flagShouldPackage := flagShouldPackage f |}.
Definition set_flagEntitlements (f : Flags) : Flags :=
  {| flagRunUserBuild := flagRunUserBuild f; flagAppStore := flagAppStore f; flagCodeSign := flagCodeSign f;
     flagShouldRun := flagShouldRun f; flagEntitlements := true;
     flagShouldNotarize := flagShouldNotarize f; flagDebugMode := flagDebugMode f;
     flagShouldPackage := flagShouldPackage f |}.
Definition set_flagShouldNotarize (f : Flags) : Flags :=
  {| flagRunUserBuild := flagRunUserBuild f; flagAppStore := flagAppStore f; flagCodeSign := flagCodeSign f;
     flagShouldRun := flagShouldRun f; flagEntitlements := flagEntitlements f;
     flagShouldNotarize := true; flagDebugMode := flagDebugMode f;
     flagShouldPackage := flagShouldPackage f |}.
Definition set_flagRunUserBuild (f : Flags) : Flags :=
  {| flagRunUserBuild := true; flagAppStore := flagAppStore f; flagCodeSign := flagCodeSign f;
     flagShouldRun := flagShouldRun f; flagEntitlements := flagEntitlements f;
     flagShouldNotarize := flagShouldNotarize f; flagDebugMode := flagDebugMode f;
     flagShouldPackage := flagShouldPackage f |}.
Definition set_flagShouldPackage (f : Flags) : Flags :=
  {| flagRunUserBuild := flagRunUserBuild f; flagAppStore := flagAppStore f; flagCodeSign := flagCodeSign f;
     flagShouldRun := flagShouldRun f; flagEntitlements := flagEntitlements f;
     flagShouldNotarize := flagShouldNotarize f; flagDebugMode := flagDebugMode f;
     flagShouldPackage := true |}.
Definition set_flagShouldRun (f : Flags) : Flags :=
  {| flagRunUserBuild := flagRunUserBuild f; flagAppStore := flagAppStore f; flagCodeSign := flagCodeSign f;
     flagShouldRun := true; flagEntitlements := flagEntitlements f;
     flagShouldNotarize := flagShouldNotarize f; flagDebugMode := flagDebugMode f;
     flagShouldPackage := flagShouldPackage f |}.
Definition set_flagAppStore (f : Flags) : Flags :=
  {| flagRunUserBuild := flagRunUserBuild f; flagAppStore := true; flagCodeSign := flagCodeSign f;
     flagShouldRun := flagShouldRun f; flagEntitlements := flagEntitlements f;
     flagShouldNotarize := flagShouldNotarize f; flagDebugMode := flagDebugMode f;
     flagShouldPackage := flagShouldPackage f |}.
Definition clear_flagDebugMode (f : Flags) : Flags :=
  {| flagRunUserBuild := flagRunUserBuild f; flagAppStore := flagAppStore f; flagCodeSign := flagCodeSign f;
     flagShouldRun := flagShouldRun f; flagEntitlements := flagEntitlements f;
     flagShouldNotarize := flagShouldNotarize f; flagDebugMode := false;
     flagShouldPackage := flagShouldPackage f |}.

(** the body of the loop over [std::span(argv, argc)] *)
Definition scan_arg (arg : string) (f : Flags) : M Flags :=
  let f := if Str.found "-c" arg then set_flagCodeSign f else f in
  when (Str.found "-h" arg) help ;;
  let f := if Str.found "-me" arg then set_flagEntitlements f else f in
  let f := if Str.found "-mn" arg then set_flagShouldNotarize f else f in
  let f := if Str.found "-o" arg then set_flagRunUserBuild f else f in
  let f := if Str.found "-p" arg then set_flagShouldPackage f else f in
  let f := if Str.found "-r" arg then set_flagShouldRun f else f in
  let f := if Str.found "-s" arg then set_flagAppStore f else f in
  let f := if Str.found "-xd" arg then clear_flagDebugMode f else f in
  ret f.

Fixpoint scan_args (args : list string) (f : Flags) : M Flags :=
  match args with
  | nil => ret f
  | arg :: rest => f' <- scan_arg arg f ;; scan_args rest f'
  end.

(** *** Settings validation and the debug suffix *)

Definition required : list string :=
  ["name"; "title"; "executable"; "output"; "version"; "arch"].

(** the loop over [required] *)
Fixpoint check_required (keys : list string) : M unit :=
  match keys with
  | nil => ret tt
  | str :: rest =>
      n <- settings_count str ;;
      when (n =? 0) (log ("'" ++ str ++ "' key/value is required") ;; exit 1) ;;
      check_required rest
  end.

(** the checks on the parsed settings *)
Definition validate : M unit :=
  n <- settings_count "_cmd" ;;
  when (n =? 0)
    (log "at least one of 'win_cmd', 'mac_cmd', 'linux_cmd' key/value is required" ;;
     exit 1) ;;
  check_required required.

(** [settings[k] += suffix] *)
Definition settings_append (k suffix : string) : M unit :=
  v <- settings_at k ;; settings_set k (v ++ suffix).

(** [if (flagDebugMode)] *)
Definition debug_suffix (f : Flags) : M unit :=
  when (flagDebugMode f)
    (settings_append "name" "-dev" ;;
     settings_append "title" "-dev" ;;
     settings_append "executable" "-dev").

(** *** Package preparation *)

Record Locals : Type := {
  flags : string;
  files : string;
  pathBin : path;
  pathResources : path;
  pathResourcesRelativeToUserBuild : path;
  pathPackage : path;
  packageName : path;
}.

Definition initial_locals : Locals :=
  {| flags := ""; files := ""; pathBin := ""; pathResources := "";
     pathResourcesRelativeToUserBuild := ""; pathPackage := ""; packageName := "" |}.

(** "Darwin Package Prep", the body of [if (platform.mac)] *)
Definition mac_prep (target pathOutput : path) (l : Locals) : M Locals :=
  log "preparing build for mac" ;;
  cxxflags <- getCxxFlags ;;
  let flags := "-std=c++2a -framework WebKit -framework Cocoa -ObjC++" ++ cxxflags in
  let files := files l ++ prefixFile H "src/main.cc" in
  let files := files ++ prefixFile H "src/process_unix.cc" in
  let pathBase : path := "Contents" in
  name <- settings_at "name" ;;
  let packageName : path := name ++ ".app" in
  let pathPackage := target / pathOutput / packageName in
  let pathBin := pathPackage / pathBase / "MacOS" in
  let pathResources := pathPackage / pathBase / "Resources" in
  output <- settings_at "output" ;;
  let pathResourcesRelativeToUserBuild := output / packageName / pathBase / "Resources" in
  fs (CreateDirectories pathBin) ;;
  fs (CreateDirectories pathResources) ;;
  m <- settings_all ;;
  let plistInfo := tmpl H (gPListInfo H) m in
  writeFile (pathPackage / pathBase / "Info.plist") plistInfo ;;
  ret {| flags := flags; files := files; pathBin := pathBin; pathResources := pathResources;
         pathResourcesRelativeToUserBuild := pathResourcesRelativeToUserBuild;
         pathPackage := pathPackage; packageName := packageName |}.

(** "Linux Package Prep", the body of [if (platform.linux)]; a setting
    the block reads several times is read once here, its value does not
    change in between *)
Definition linux_prep (target pathOutput : path) (l : Locals) : M Locals :=
  log "preparing build for linux" ;;
  cxxflags <- getCxxFlags ;;
  let flags := "-std=c++2a `pkg-config --cflags --libs gtk+-3.0 webkit2gtk-4.0`" ++ cxxflags in
  let files := files l ++ prefixFile H "src/main.cc" in
  let files := files ++ prefixFile H "src/process_unix.cc" in
  (* this follows the .deb file naming convention *)
  executable <- settings_at "executable" ;;
  version <- settings_at "version" ;;
  revision <- settings_at "revision" ;;
  arch <- settings_at "arch" ;;
  let packageName : path := executable ++ "_" ++ version ++ "-" ++ revision ++ "_" ++ arch in
  let pathPackage := target / pathOutput / packageName in
  name <- settings_at "name" ;;
  let pathBase := pathPackage / "opt" / name in
  let pathBin := pathBase in
  let pathResources := pathBase in
  let pathResourcesRelativeToUserBuild := pathOutput / packageName / "opt" / name in
  let pathControlFile := pathPackage / "DEBIAN" in
  let pathManifestFile := pathPackage / "usr" / "share" / "applications" in
  let pathIcons := pathPackage / "usr" / "share" / "icons" / "hicolor" / "256x256" / "apps" in
  fs (CreateDirectories pathIcons) ;;
  fs (CreateDirectories pathResources) ;;
  fs (CreateDirectories pathManifestFile) ;;
  fs (CreateDirectories pathControlFile) ;;
  let linuxExecPath := "/opt" / name / executable in
  settings_set "linux_executable_path" (pathToString H linuxExecPath) ;;
  settings_set "linux_icon_path"
    (pathToString H
       ("/usr" / "share" / "icons" / "hicolor" / "256x256" / "apps" / (executable ++ ".png"))) ;;
  m <- settings_all ;;
  writeFile (pathManifestFile / (name ++ ".desktop")) (tmpl H (gDestkopManifest H) m) ;;
  m <- settings_all ;;
  writeFile (pathControlFile / "control") (tmpl H (gDebianManifest H) m) ;;
  linux_icon <- settings_at "linux_icon" ;;
  let pathToIconSrc := pathToString H (target / linux_icon) in
  let pathToIconDest := pathToString H (pathIcons / (executable ++ ".png")) in
  present <- ask (fun h => exists_ H h pathToIconDest) ;;
  when (negb present) (fs (CopyFile pathToIconSrc pathToIconDest)) ;;
  ret {| flags := flags; files := files; pathBin := pathBin; pathResources := pathResources;
         pathResourcesRelativeToUserBuild := pathResourcesRelativeToUserBuild;
         pathPackage := pathPackage; packageName := packageName |}.

(** "Windows Package Prep", the body of [if (platform.win)] *)
Definition win_prep (target pathOutput : path) (l : Locals) : M Locals :=
  log "preparing build for win" ;;
  let prefix := prefixFile H "" in
  let flags := " -std=c++20 -I" ++ prefix ++ " -I" ++ prefix ++ "\src\win64 -L" ++ prefix ++ "\src\win64" in
  let files := files l ++ prefixFile H "src\main.cc" in
  let files := files ++ prefixFile H "src\process_win.cc" in
  executable <- settings_at "executable" ;;
  version <- settings_at "version" ;;
  let packageName : path := executable ++ "-" ++ version in
  cwd <- ask (current_path H) ;;
  let pathPackage := cwd / target / pathOutput / packageName in
  let pathBin := pathPackage in
  let pathResourcesRelativeToUserBuild := pathPackage in
  fs (CreateDirectories pathPackage) ;;
  let p := pathResourcesRelativeToUserBuild / "AppxManifest.xml" in
  revision <- settings_at "revision" ;;
  when (Str.empty revision) (settings_set "revision" "1") ;;
  m <- settings_all ;;
  writeFile p (tmpl H (gWindowsAppManifest H) m) ;;
  ret {| flags := flags; files := files; pathBin := pathBin; pathResources := pathResources l;
         pathResourcesRelativeToUserBuild := pathResourcesRelativeToUserBuild;
         pathPackage := pathPackage; packageName := packageName |}.

(** *** The user's build command and the compiler *)

Definition bool_digit (b : bool) : string := if b then "1" else "0".

(** a double quote character *)
Definition dq : string := String (ascii_of_nat 34) EmptyString.

Definition buildCommand (f : Flags) (l : Locals) (build : string) : string :=
  build ++ " " ++ pathToString H (pathResourcesRelativeToUserBuild l)
        ++ " --debug=" ++ bool_digit (flagDebugMode f).

(** cd into the target and run the user's build command *)
Definition user_build (f : Flags) (target : path) (l : Locals) : M unit :=
  oldCwd <- ask (current_path H) ;;
  fs (SetCurrentPath (oldCwd / target)) ;;
  build <- settings_at "build" ;;
  let buildCommand := buildCommand f l build in
  log buildCommand ;;
  r <- exec_ buildCommand ;;
  when (negb (exitCode r =? 0))
    (log "Unable to run user build command" ;; exit (exitCode r)) ;;
  log (output r) ;;
  log "ran user build command" ;;
  fs (SetCurrentPath oldCwd).

(** [fs::path binaryPath = { pathBin / executable }] *)
Definition binaryPath (l : Locals) (executable : path) : path := pathBin l / executable.

Definition compileCommand (f : Flags) (_settings : string) (executable : path) (l : Locals)
    (cxx extraFlags : string) : string :=
  cxx ++ " " ++ files l ++ " " ++ flags l ++ " " ++ extraFlags
      ++ " -o " ++ pathToString H (binaryPath l executable)
      ++ " -DDEBUG=" ++ bool_digit (flagDebugMode f)
      ++ " -DSETTINGS=" ++ dq ++ _settings ++ dq.

(** the compiler invocation *)
Definition compile (f : Flags) (_settings : string) (executable : path) (l : Locals) : M unit :=
  (* Serialize the settings so that they can be passed to the compiler. *)
  let _settings := encodeURIComponent H _settings in
  extraFlags <- settings_at (if flagDebugMode f then "debug_flags" else "flags") ;;
  cxx <- getEnv_ "CXX" ;;
  let compileCommand := compileCommand f _settings executable l cxx extraFlags in
  binExists <- ask (fun h => exists_ H h (binaryPath l executable)) ;;
  when (negb (flagRunUserBuild f) || negb binExists)
    (r <- exec_ compileCommand ;;
     when (negb (exitCode r =? 0)) (log "Unable to build" ;; exit (exitCode r)) ;;
     log "compiled native binary").

(** *** Linux packaging *)

(** "Linux Packaging", the body of [if (flagShouldPackage && platform.linux)] *)
Definition linux_package (target pathOutput : path) (l : Locals) : M unit :=
  let pathSymLinks := pathPackage l / "usr" / "local" / "bin" in
  name <- settings_at "name" ;;
  executable <- settings_at "executable" ;;
  let linuxExecPath := "/opt" / name / executable in
  fs (CreateDirectories pathSymLinks) ;;
  fs (CreateSymlink linuxExecPath (pathSymLinks / executable)) ;;
  let archiveCommand :=
    "dpkg-deb --build --root-owner-group " ++ pathToString H (pathPackage l)
      ++ " " ++ pathToString H (target / pathOutput) in
  r <- system_ archiveCommand ;;
  when (negb (r =? 0)) (log "error: failed to create deb package" ;; exit 1).

(** *** macOS code signing *)

Definition codesign (entitlements mac_sign : string) : string :=
  " codesign" ++ " --force" ++ " --options runtime" ++ " --timestamp" ++ entitlements
    ++ " --sign 'Developer ID Application: " ++ mac_sign ++ "'" ++ " ".

(** the loop over [paths], [i] counting from 0 *)
Fixpoint sign_paths (i : nat) (paths : list string) (entitlements : string)
    (l : Locals) (signCommand : string) : M string :=
  match paths with
  | nil => ret signCommand
  | p :: rest =>
      let prefix := if (0 <? i)%nat then ";" else "" in
      mac_sign <- settings_at "mac_sign" ;;
      sign_paths (S i) rest entitlements l
        (signCommand ++ prefix ++ codesign entitlements mac_sign
                     ++ pathToString H (pathResources l / p))
  end.

(** "MacOS Code Signing", the body of [if (flagCodeSign && platform.mac)] *)
Definition mac_sign_step (f : Flags) (target executable : path) (l : Locals) : M unit :=
  entitlements <-
    (if flagEntitlements f then
       let entitlementsPath := pathResourcesRelativeToUserBuild l / "entitlements.plist" in
       mac_entitlements <- settings_at "mac_entitlements" ;;
       fs (CopyFile (target / mac_entitlements) entitlementsPath) ;;
       ret (" --entitlements " ++ pathToString H entitlementsPath)
     else ret "") ;;
  mac_sign_paths <- settings_at "mac_sign_paths" ;;
  signCommand <-
    (if negb (Str.empty mac_sign_paths)
     then sign_paths 0 (split H mac_sign_paths ";"%char) entitlements l ""
     else ret "") ;;
  mac_sign <- settings_at "mac_sign" ;;
  let signCommand :=
    signCommand
      ++ ";" ++ codesign entitlements mac_sign ++ pathToString H (pathBin l / executable)
      ++ ";" ++ codesign entitlements mac_sign ++ pathToString H (pathPackage l) in
  r <- exec_ signCommand ;;
  when (negb (exitCode r =? 0)) (log "Unable to sign" ;; exit (exitCode r)) ;;
  log "finished code signing".

(** *** macOS packaging; the result is [pathToArchive] *)

(** "MacOS Packaging", the body of [if (flagShouldPackage && platform.mac)] *)
Definition mac_package (target pathOutput : path) (l : Locals) : M path :=
  executable <- settings_at "executable" ;;
  let pathToArchive := target / pathOutput / (executable ++ ".zip") in
  let zipCommand :=
    "ditto" ++ " -c" ++ " -k" ++ " --sequesterRsrc" ++ " --keepParent" ++ " "
      ++ pathToString H (pathPackage l) ++ " " ++ pathToString H pathToArchive in
  r <- system_ zipCommand ;;
  when (negb (r =? 0)) (log "error: failed to create zip for notarization" ;; exit 1) ;;
  log "craeted zip artifact" ;;
  ret pathToArchive.

(** *** macOS notarization *)

Definition notarizeStatusCommand (uuid username password : string) : string :=
  "xcrun" ++ " altool" ++ " --notarization-info " ++ uuid
    ++ " -u " ++ username ++ " -p " ++ password.

Definition notarizeHistoryCommand (username password : string) : string :=
  "xcrun" ++ " altool" ++ " --notarization-history 0"
    ++ " -u " ++ username ++ " -p " ++ password.

(** how one pass through the body of the [while] loop ends *)
Inductive LoopCtl : Type := Continue | Break.

(** the body of [while (!uuid.empty())]; [requests] is the counter after
    its increment *)
Definition poll_body (uuid username password : string) (requests : Z) : M LoopCtl :=
  when (1024 <? requests)
    (log "apple did not respond to the request for notarization" ;; exit 1) ;;
  emit (Sleep (1024 * 6)) ;;
  r <- exec_ (notarizeStatusCommand uuid username password) ;;
  let status := Regex.capture1 re_status (output r) in
  if Str.found "in progress" status then
    log "Checking for updates from apple" ;;
    ret Continue
  else
    let lastStatus := output r in
    when (Str.found "invalid" status)
      (log "apple rejected the request for notarization" ;;
       log lastStatus ;;
       r <- exec_ (notarizeHistoryCommand username password) ;;
       when (negb (exitCode r =? 0))
         (log "Unable to get notarization history" ;; exit (exitCode r)) ;;
       log (output r) ;;
       exit 1) ;;
    if Str.found "success" status then
      log "successfully notarized" ;;
      ret Break
    else if negb (Str.found "success" status) then
      log "apple was unable to notarize" ;;
      ret Break
    else ret Continue.

(** [while (!uuid.empty())], [requests] being the counter before its
    increment; [fuel] bounds the passes of the model *)
Fixpoint poll (fuel : nat) (uuid username password : string) (requests : Z) : M unit :=
  if Str.empty uuid then ret tt
  else
    match fuel with
    | O => fun st => (OutOfFuel, st)
    | S fuel' =>
        let requests := requests + 1 in
        c <- poll_body uuid username password requests ;;
        match c with
        | Continue => poll fuel' uuid username password requests
        | Break => ret tt
        end
    end.

(** passes through the loop body that [main] allows for *)
Definition poll_fuel : nat := 1025.

Definition notarizeCommand (username password bundle_identifier : string)
    (pathToArchive : path) : string :=
  "xcrun" ++ " altool" ++ " --notarize-app"
    ++ " --username " ++ dq ++ username ++ dq
    ++ " --password " ++ dq ++ password ++ dq
    ++ " --primary-bundle-id " ++ dq ++ bundle_identifier ++ dq
    ++ " --file " ++ dq ++ pathToString H pathToArchive ++ dq.

(** "MacOS Notorization", the body of [if (flagShouldNotarize && platform.mac)] *)
Definition notarize (pathToArchive : path) : M unit :=
  username <- getEnv_ "APPLE_ID" ;;
  password <- getEnv_ "APPLE_ID_PASSWORD" ;;
  bundle_identifier <- settings_at "bundle_identifier" ;;
  r <- exec_ (notarizeCommand username password bundle_identifier pathToArchive) ;;
  when (negb (exitCode r =? 0)) (log "Unable to notarize" ;; exit (exitCode r)) ;;
  let uuid := Regex.capture1 re_request_uuid (output r) in
  log "polling for notarization" ;;
  poll poll_fuel uuid username password 0 ;;
  log "finished notarization".

(** *** Windows packaging and code signing *)

(** The calls into the AppxPackaging API are recorded as one event. *)
Definition win_package (l : Locals) : M unit := emit (WinAppx (pathPackage l)).

(** "Windows Code Signing", the body of [if (flagCodeSign && platform.win)] *)
Definition win_sign (l : Locals) : M unit :=
  pathToSignTool <- getEnv_ "SIGNTOOL" ;;
  when (Str.empty pathToSignTool)
    (log "missing env var SIGNTOOL, should be the path to the Windows SDK signtool.exe binary." ;;
     exit 1) ;;
  password <- getEnv_ "CSC_KEY_PASSWORD" ;;
  let signCommand :=
    dq ++ pathToSignTool ++ dq ++ " sign" ++ " /debug"
      ++ " /tr http://timestamp.digicert.com" ++ " /td sha256" ++ " /fd sha256"
      ++ " /f cert.pfx" ++ " /p " ++ password ++ " "
      ++ pathToString H (pathPackage l) ++ ".appx" ++ " 2>&1 | tee sign.log" in
  r <- exec_ signCommand ;;
  when (negb (exitCode r =? 0))
    (log "Unable to sign" ;;
     log "---" ;; log (pathPackage l) ;; log "---" ;;
     log "---" ;; log (output r) ;; log "---" ;;
     exit (exitCode r)).

(** *** Running the binary *)

(** the body of [if (flagShouldRun)] *)
Definition run_step (l : Locals) : M unit :=
  executable <- settings_at "executable" ;;
  let execName := if win platform then executable ++ ".exe" else executable in
  let cmd := pathToString H (pathBin l / execName) in
  _ <- system_ cmd ;;
  ret tt.

(** *** [main] *)

(** cleaning the output directory and the package preparation of the
    host platform; the result is [pathOutput], [executable] and the paths *)
Definition prepare (f : Flags) (target : path) : M (path * path * Locals) :=
  output <- settings_at "output" ;;
  let pathOutput : path := output in
  when (negb (flagRunUserBuild f))
    (fs (RemoveAll pathOutput) ;;
     log ("cleaned: " ++ pathToString H pathOutput)) ;;
  exe <- settings_at "executable" ;;
  let executable : path := exe ++ (if win platform then ".exe" else "") in
  l <- (if mac platform then mac_prep target pathOutput initial_locals else ret initial_locals) ;;
  l <- (if linux platform then linux_prep target pathOutput l else ret l) ;;
  l <- (if win platform then win_prep target pathOutput l else ret l) ;;
  log "package prepared" ;;
  ret (pathOutput, executable, l).

(** packaging, signing, notarization and the optional run *)
Definition release_phase (f : Flags) (target pathOutput executable : path) (l : Locals) : M unit :=
  when (flagShouldPackage f && linux platform) (linux_package target pathOutput l) ;;
  when (flagCodeSign f && mac platform) (mac_sign_step f target executable l) ;;
  pathToArchive <-
    (if flagShouldPackage f && mac platform then mac_package target pathOutput l
     else ret EmptyString) ;;
  when (flagShouldNotarize f && mac platform) (notarize pathToArchive) ;;
  when (flagShouldPackage f && win platform) (win_package l) ;;
  when (flagCodeSign f && win platform) (win_sign l) ;;
  when (flagShouldRun f) (run_step l).

(** everything after the settings are validated *)
Definition pipeline (f : Flags) (target : path) (_settings : string) : M Z :=
  debug_suffix f ;;
  prepared <- prepare f target ;;
  let '(pathOutput, executable, l) := prepared in
  user_build f target l ;;
  compile f _settings executable l ;;
  release_phase f target pathOutput executable l ;;
  ret 0.

Definition main (argv : list string) : M Z :=
  let argc := Z.of_nat (length argv) in
  when (argc <? 2) help ;;
  cxx <- getEnv_ "CXX" ;;
  when (Str.empty cxx)
    (log "warning! $CXX env var not set, assuming defaults" ;;
     if win platform then emit (SetEnv "CXX=clang++") else emit (SetEnv "CXX=/usr/bin/g++")) ;;
  f <- scan_args argv initial_flags ;;
  let target : path := List.nth 1 argv EmptyString in
  _settings <- ask (fun h => readFile H h (target / "settings.config")) ;;
  settings_assign (parseConfig H _settings) ;;
  validate ;;
  pipeline f target _settings.

End Program.

(** ** Windows packaging: the calls the event [WinAppx] stands for *)

(** [HRESULT]; [SUCCEEDED(hr)] is [hr >= 0] *)
Definition HRESULT : Type := Z.

Definition SUCCEEDED (hr : HRESULT) : bool := 0 <=? hr.

#[local] Unset Elimination Schemes.

(** an entry of the package directory, as [fs::directory_iterator] yields
    it: its file name and, for a directory, its entries in the order of
    the iteration *)
Inductive Entry : Type :=
| File (name : string)
| Dir (name : string) (entries : list Entry).

#[local] Set Elimination Schemes.

(** What the Windows API answers to the calls of "Windows Packaging". *)
Record Com : Type := {
  CoInitializeEx : HRESULT;
  (* SHCreateStreamOnFileEx with STGM_CREATE, on the output file *)
  createOutputStream : path -> HRESULT;
  CreateUri : HRESULT;
  CoCreateInstance : HRESULT;
  CreatePackageWriter : HRESULT;
  (* SHCreateStreamOnFileEx with STGM_READ *)
  openStream : path -> HRESULT;
  (* the mime type FindMimeFromData stores, if it stores one *)
  FindMimeFromData : path -> option string;
  (* IAppxPackageWriter::Close, given the payload added so far *)
  closeWriter : list (path * option string) -> HRESULT;
  (* _com_error::ErrorMessage *)
  ErrorMessage : HRESULT -> string;
}.

(** the calls the block makes that can be observed *)
Inductive AppxCall : Type :=
| AppxLog (s : string)                                    (* log(s) *)
| AddPayloadFile (composite : path) (mime : option string) (file : path)
| ClosePackage (manifest : path).                         (* packageWriter->Close *)

(** [hr] and the calls made so far *)
Record Walk : Type := { w_hr : HRESULT; w_calls : list AppxCall }.

(** how a part of the block ends: normally, or in a call through the
    null [packageWriter] *)
Inductive Ended (A : Type) : Type :=
| Done (a : A)
| NullWriter (made : list AppxCall).

Arguments Done {A} a.
Arguments NullWriter {A} made.

(** the lambda [GetPackageWriter]: the result is [hr]; the writer is set
    by [CreatePackageWriter] alone, so it is not null exactly when [hr]
    succeeded *)
Definition GetPackageWriter (c : Com) (outputFileName : path) : HRESULT :=
  let hr := createOutputStream c outputFileName in
  let hr := if SUCCEEDED hr then CreateUri c else hr in
  let hr := if SUCCEEDED hr then CoCreateInstance c else hr in
  let hr := if SUCCEEDED hr then CreatePackageWriter c else hr in
  hr.

(** [p.find("AppxManifest.xml") == 0] *)
Definition is_manifest (p : string) : bool :=
  match Str.find "AppxManifest.xml" p with
  | Some O => true
  | _ => false
  end.

(** the payload a list of calls has added *)
Fixpoint payload (cs : list AppxCall) : list (path * option string) :=
  match cs with
  | nil => nil
  | AddPayloadFile composite mime _ :: cs' => (composite, mime) :: payload cs'
  | _ :: cs' => payload cs'
  end.

(** one pass through the body of the loop of [addFiles], for the entry
    [e] of the directory [basePath] *)
Fixpoint addEntry (c : Com) (writer : bool) (basePath last : path) (e : Entry) (w : Walk)
    {struct e} : Ended Walk :=
  match e with
  | File name =>
      if is_manifest name then Done w
      else
        let composite := Path.join Win last name in
        let file := Path.join Win basePath name in
        let hr := openStream c file in
        if SUCCEEDED hr then
          if writer then
            Done {| w_hr := hr;
                    w_calls :=
                      (w_calls w
                         ++ [AddPayloadFile composite (FindMimeFromData c file) file])%list |}
          else NullWriter (w_calls w)
        else
          Done {| w_hr := hr;
                  w_calls := (w_calls w ++ [AppxLog ("Could not add file: " ++ file)])%list |}
  | Dir name entries =>
      if is_manifest name then Done w
      else
        (fix addFiles (es : list Entry) (w : Walk) : Ended Walk :=
           match es with
           | nil => Done w
           | e' :: es' =>
               match addEntry c writer (Path.join Win basePath name)
                       (Path.join Win last name) e' w with
               | Done w' => addFiles es' w'
               | NullWriter made => NullWriter made
               end
           end) entries w
  end.

(** [addFiles(basePath, last)] *)
Fixpoint addFiles (c : Com) (writer : bool) (basePath last : path) (es : list Entry)
    (w : Walk) : Ended Walk :=
  match es with
  | nil => Done w
  | e :: es' =>
      match addEntry c writer basePath last e w with
      | Done w' => addFiles c writer basePath last es' w'
      | NullWriter made => NullWriter made
      end
  end.

(** the body of [if (flagShouldPackage && platform.win)] for the package
    directory [pathPackage] with the entries [entries] *)
Definition package (c : Com) (pathPackage : path) (entries : list Entry) : Ended Walk :=
  let appx := pathPackage ++ ".appx" in
  let hr := CoInitializeEx c in
  let ended :=
    if SUCCEEDED hr then
      let hr := GetPackageWriter c appx in
      let writer := SUCCEEDED hr in
      match addFiles c writer pathPackage "" entries {| w_hr := hr; w_calls := [] |} with
      | NullWriter made => NullWriter made
      | Done w =>
          let manifest := Path.join Win pathPackage "AppxManifest.xml" in
          let w :=
            if SUCCEEDED (w_hr w)
            then {| w_hr := openStream c manifest; w_calls := w_calls w |}
            else {| w_hr := w_hr w;
                    w_calls :=
                      (w_calls w ++ [AppxLog "Could not get package writer or add files"])%list |} in
          if SUCCEEDED (w_hr w) then
            if writer then
              Done {| w_hr := closeWriter c (payload (w_calls w));
                      w_calls := (w_calls w ++ [ClosePackage manifest])%list |}
            else NullWriter (w_calls w)
          else
            Done {| w_hr := w_hr w;
                    w_calls :=
                      (w_calls w ++ [AppxLog "Could not generate AppxManifest.xml"])%list |}
      end
    else Done {| w_hr := hr; w_calls := [AppxLog "Unable to initialize package writer"] |} in
  match ended with
  | NullWriter made => NullWriter made
  | Done w =>
      if SUCCEEDED (w_hr w) then
        Done {| w_hr := w_hr w; w_calls := (w_calls w ++ [AppxLog "Package saved"])%list |}
      else
        Done {| w_hr := w_hr w;
                w_calls :=
                  (w_calls w
                     ++ [AppxLog ("Unable to save package; " ++ ErrorMessage c (w_hr w))])%list |}
  end.

(** ** Notions used in the statements *)

Definition add_event (st : State) (es : list Event) : State :=
  {| settings := settings st; trace := (trace st ++ es)%list |}.

(** the flags a command line sets, read off the words of its arguments *)
Definition flags_of (argv : list string) : Flags :=
  {| flagRunUserBuild := existsb (Str.found "-o") argv;
     flagAppStore := existsb (Str.found "-s") argv;
     flagCodeSign := existsb (Str.found "-c") argv;
     flagShouldRun := existsb (Str.found "-r") argv;
     flagEntitlements := existsb (Str.found "-me") argv;
     flagShouldNotarize := existsb (Str.found "-mn") argv;
     flagDebugMode := negb (existsb (Str.found "-xd") argv);
     flagShouldPackage := existsb (Str.found "-p") argv |}.

(** [f] updated by the arguments [args] *)
Definition flags_after (f : Flags) (args : list string) : Flags :=
  {| flagRunUserBuild := flagRunUserBuild f || existsb (Str.found "-o") args;
     flagAppStore := flagAppStore f || existsb (Str.found "-s") args;
     flagCodeSign := flagCodeSign f || existsb (Str.found "-c") args;
     flagShouldRun := flagShouldRun f || existsb (Str.found "-r") args;
     flagEntitlements := flagEntitlements f || existsb (Str.found "-me") args;
     flagShouldNotarize := flagShouldNotarize f || existsb (Str.found "-mn") args;
     flagDebugMode := flagDebugMode f && negb (existsb (Str.found "-xd") args);
     flagShouldPackage := flagShouldPackage f || existsb (Str.found "-p") args |}.

(** the events of the missing-$CXX warning *)
Definition cxx_warning (pl : Platform) : list Event :=
  [Log "warning! $CXX env var not set, assuming defaults";
   SetEnv (if win pl then "CXX=clang++" else "CXX=/usr/bin/g++")].

(** the first of [keys] the settings lack *)
Fixpoint first_missing (keys : list string) (s : Settings) : option string :=
  match keys with
  | nil => None
  | k :: rest => match s !! k with Some _ => first_missing rest s | None => Some k end
  end.

(** the separator [operator/] inserts after [p] *)
Definition sep_after (pl : Platform) (p : path) : string :=
  if (negb (Path.has_root_directory pl p) && Path.is_absolute pl p) || Path.has_filename pl p
  then Path.preferred_separator pl else "".

(** on the POSIX hosts a path is relative unless it begins with [/] *)
Definition posix (pl : Platform) : Prop := pl = Mac \/ pl = Linux.

(** on Windows a path is relative unless it begins with a separator or
    with a drive *)
Definition win_drive (c0 : ascii) (rest : string) : bool :=
  match rest with
  | String c1 _ => Path.is_letter c0 && Ascii.eqb c1 ":"%char
  | EmptyString => false
  end.

(** a computation leaves the value of the key [k] as it found it, however
    it ends *)
Definition preserves (k : string) {A : Type} (m : M A) : Prop :=
  forall st, get k (settings (snd (m st))) = get k (settings st).

(** the keys no step after the debug suffix writes *)
Definition stable_key (k : string) : Prop :=
  k <> "revision" /\ k <> "linux_executable_path" /\ k <> "linux_icon_path".

(** the four outcomes of one status query *)
Inductive Verdict : Type := Polling | Rejected | Success | Failed.

(** the classification of a status phrase in words: the cases are tried
    in the order in which they are listed *)
Definition classify_status (status : string) : Verdict :=
  if Str.found "in progress" status then Polling
  else if Str.found "invalid" status then Rejected
  else if Str.found "success" status then Success
  else Failed.

(** the events of one pass through the poll loop that finds the request
    still in progress *)
Definition round (query : string) : list Event :=
  [Sleep 6144; Exec query; Log "Checking for updates from apple"].

Fixpoint rounds (n : nat) (query : string) : list Event :=
  match n with
  | O => nil
  | S n' => (round query ++ rounds n' query)%list
  end.

(** the report of the attempt ceiling *)
Definition timeout_report : Event :=
  Log "apple did not respond to the request for notarization".

(** the number of waits, one per status query *)
Fixpoint sleeps (t : list Event) : nat :=
  match t with
  | nil => O
  | Sleep _ :: t' => S (sleeps t')
  | _ :: t' => sleeps t'
  end.

(** the number of times the command [q] was executed *)
Fixpoint queries (q : string) (t : list Event) : nat :=
  match t with
  | nil => O
  | Exec c :: t' => ((if String.eqb c q then 1 else 0) + queries q t')%nat
  | _ :: t' => queries q t'
  end.

(** ** Concrete hosts and inputs, used to run the model *)

(** a host whose settings file parses to [m], whose commands answer with
    [ex] and [sys], and where no file exists and nothing throws *)
Definition simple_host (m : Settings) (ex : list Event -> string -> ExecOutput)
    (sys : list Event -> string -> Z) : Host :=
  {| parseConfig := fun _ => m;
     tmpl := fun t _ => t;
     pathToString := fun p => p;
     prefixFile := fun s => s;
     split := fun s _ => [s];
     encodeURIComponent := fun s => s;
     gPListInfo := "plist";
     gDestkopManifest := "desktop";
     gDebianManifest := "control";
     gWindowsAppManifest := "appx";
     getEnv := fun _ name => if String.eqb name "CXX" then "c++" else "";
     readFile := fun _ _ => "";
     current_path := fun _ => "/work";
     exists_ := fun _ _ => false;
     exec := ex;
     system := sys;
     throws := fun _ _ => false |}.

Definition exec_ok (out : string) : list Event -> string -> ExecOutput :=
  fun _ _ => {| exitCode := 0; output := out |}.

Definition system_ok : list Event -> string -> Z := fun _ _ => 0.

Definition quiet_host (m : Settings) : Host := simple_host m (exec_ok "") system_ok.

(** a host where every file exists *)
Definition host_with_files (m : Settings) : Host :=
  {| parseConfig := parseConfig (quiet_host m);
     tmpl := tmpl (quiet_host m);
     pathToString := pathToString (quiet_host m);
     prefixFile := prefixFile (quiet_host m);
     split := split (quiet_host m);
     encodeURIComponent := encodeURIComponent (quiet_host m);
     gPListInfo := gPListInfo (quiet_host m);
     gDestkopManifest := gDestkopManifest (quiet_host m);
     gDebianManifest := gDebianManifest (quiet_host m);
     gWindowsAppManifest := gWindowsAppManifest (quiet_host m);
     getEnv := getEnv (quiet_host m);
     readFile := readFile (quiet_host m);
     current_path := current_path (quiet_host m);
     exists_ := fun _ _ => true;
     exec := exec (quiet_host m);
     system := system (quiet_host m);
     throws := throws (quiet_host m) |}.

(** a host whose commands all fail with exit code 2 *)
Definition failing_host (m : Settings) : Host :=
  simple_host m (fun _ _ => {| exitCode := 2; output := "boom" |}) system_ok.

Definition initial_state : State := {| settings := ∅; trace := [] |}.

Definition state_with (m : Settings) : State := {| settings := m; trace := [] |}.

(** the settings of the Linux end-to-end scenario *)
Definition scenario_settings : Settings :=
  list_to_map
    [("name", "foo"); ("title", "Foo"); ("executable", "foo"); ("output", "dist");
     ("version", "1.0"); ("arch", "amd64"); ("revision", "1"); ("_cmd", "true");
     ("build", "true")].

(** the same settings with another [name] *)
Definition settings_named (name : string) : Settings :=
  <["name" := name]> scenario_settings.

(** the scenario settings as a settings file with a [linux_cmd] record
    describes them: every mandatory key and the Linux build command *)
Definition linux_cmd_settings : Settings :=
  list_to_map
    [("name", "foo"); ("title", "Foo"); ("executable", "foo"); ("output", "dist");
     ("version", "1.0"); ("arch", "amd64"); ("revision", "1"); ("linux_cmd", "true")].

(** the host of a notarization run: every command exits with 0 and prints [out] *)
Definition notary_host (out : string) : Host :=
  simple_host scenario_settings (exec_ok out) system_ok.

(** the paths of the scenario on Linux *)
Definition scenario_locals : Locals :=
  {| flags := EmptyString; files := EmptyString;
     pathBin := "proj/dist/foo_1.0-1_amd64/opt/foo";
     pathResources := "proj/dist/foo_1.0-1_amd64/opt/foo";
     pathResourcesRelativeToUserBuild := "dist/foo_1.0-1_amd64/opt/foo";
     pathPackage := "proj/dist/foo_1.0-1_amd64"; packageName := "foo_1.0-1_amd64" |}.

(** the flags of a command line without flag arguments but [-xd] *)
Definition release_flags : Flags :=
  {| flagRunUserBuild := false; flagAppStore := false; flagCodeSign := false;
     flagShouldRun := false; flagEntitlements := false; flagShouldNotarize := false;
     flagDebugMode := false; flagShouldPackage := false |}.

(** the flags of [-o] *)
Definition previous_build_flags : Flags :=
  {| flagRunUserBuild := true; flagAppStore := false; flagCodeSign := false;
     flagShouldRun := false; flagEntitlements := false; flagShouldNotarize := false;
     flagDebugMode := true; flagShouldPackage := false |}.

(** the flags of [-mn -r] *)
Definition notarize_and_run_flags : Flags :=
  {| flagRunUserBuild := false; flagAppStore := false; flagCodeSign := false;
     flagShouldRun := true; flagEntitlements := false; flagShouldNotarize := true;
     flagDebugMode := true; flagShouldPackage := false |}.

(** what the submit command prints when it hands out no request identifier *)
Definition no_uuid_output : string := "No errors uploading." ++ nl.

(** what a command of the notarization service prints while the request
    is being processed *)
Definition in_progress_output : string :=
  nl ++ "RequestUUID = 1234-ABCD" ++ nl ++ "   Status: in progress" ++ nl.

(** ** Notions, hosts and inputs of the further properties *)

(** a call of [fs::remove_all] *)
Definition is_remove_all (e : Event) : bool :=
  match e with Fs (RemoveAll _) => true | _ => false end.

(** an outcome that is not [exit(0)] and not the model's loop bound *)
Definition sound_end {A : Type} (o : Outcome A) : Prop :=
  match o with
  | Exit c => c <> 0
  | OutOfFuel => False
  | _ => True
  end.

(** a computation that ends in neither of the two, wherever it starts *)
Definition ends_soundly {A : Type} (m : M A) : Prop :=
  forall st, sound_end (fst (m st)).

(** the steps of the pipeline after the cleaning of the output directory *)
Definition after_cleaning (H : Host) (pl : Platform) (f : Flags) (target : path)
    (_settings : string) (pathOutput : path) : M Z :=
  bind
    (bind (settings_at "executable") (fun exe =>
       let executable : path := exe ++ (if win pl then ".exe" else "") in
       bind (if mac pl then mac_prep H pl target pathOutput initial_locals
             else ret initial_locals) (fun l =>
       bind (if linux pl then linux_prep H pl target pathOutput l else ret l) (fun l =>
       bind (if win pl then win_prep H pl target pathOutput l else ret l) (fun l =>
       bind (log "package prepared") (fun _ => ret (pathOutput, executable, l)))))))
    (fun prepared =>
       let '(pathOutput, executable, l) := prepared in
       bind (user_build H pl f target l) (fun _ =>
       bind (compile H pl f _settings executable l) (fun _ =>
       bind (release_phase H pl f target pathOutput executable l) (fun _ => ret 0)))).

(** what may cause an event of the release phase: the flag and the
    platform of the step it belongs to *)
Definition gated (pl : Platform) (f : Flags) (e : Event) : Prop :=
  match e with
  | Sleep _ => pl = Mac /\ flagShouldNotarize f = true
  | WinAppx _ => pl = Win /\ flagShouldPackage f = true
  | Exec _ =>
      (pl = Mac /\ (flagCodeSign f = true \/ flagShouldNotarize f = true)) \/
      (pl = Win /\ flagCodeSign f = true)
  | System _ => (pl <> Win /\ flagShouldPackage f = true) \/ flagShouldRun f = true
  | Fs _ =>
      (pl = Linux /\ flagShouldPackage f = true) \/
      (pl = Mac /\ flagCodeSign f = true /\ flagEntitlements f = true)
  | Log _ =>
      (pl <> Win /\ flagShouldPackage f = true) \/
      (pl <> Linux /\ flagCodeSign f = true) \/
      (pl = Mac /\ flagShouldNotarize f = true)
  | WriteFile _ _ | Usage | SetEnv _ => False
  end.

(** the scenario settings without [title] and [version] *)
Definition untitled_settings : Settings :=
  list_to_map
    [("name", "foo"); ("executable", "foo"); ("output", "dist"); ("arch", "amd64");
     ("_cmd", "true")].

(** the settings as "Linux Package Prep" leaves them: the two install
    paths written, the keys it read present *)
Definition linux_settings (H : Host) (pl : Platform) (s : Settings) : Settings :=
  let name := get "name" s in
  let executable := get "executable" s in
  let j := Path.join pl in
  <["linux_icon_path" :=
      pathToString H
        (j (j (j (j (j (j "/usr" "share") "icons") "hicolor") "256x256") "apps")
           (executable ++ ".png"))]>
    (<["linux_executable_path" := pathToString H (j (j "/opt" name) executable)]>
       (touch "name" (touch "arch" (touch "revision" (touch "version"
          (touch "executable" s)))))).

(** the scenario settings with an icon *)
Definition icon_settings : Settings := <["linux_icon" := "icon.png"]> scenario_settings.

(** the scenario settings without a revision *)
Definition unrevised_settings : Settings := delete "revision" scenario_settings.

(** a host whose commands succeed when run through [exec] and fail with
    status 256 when run through [std::system] *)
Definition no_dpkg_host (m : Settings) : Host :=
  simple_host m (exec_ok "") (fun _ _ => 256).

(** the flags of [-c -xd] *)
Definition sign_flags : Flags :=
  {| flagRunUserBuild := false; flagAppStore := false; flagCodeSign := true;
     flagShouldRun := false; flagEntitlements := false; flagShouldNotarize := false;
     flagDebugMode := false; flagShouldPackage := false |}.

(** the line the poll loop logs when it ends on a verdict *)
Definition verdict_report (v : Verdict) : string :=
  match v with
  | Success => "successfully notarized"
  | _ => "apple was unable to notarize"
  end.

(** what the notarization service prints once the request went through *)
Definition success_output : string :=
  nl ++ "RequestUUID = 1234-ABCD" ++ nl ++ "   Status: success" ++ nl.

(** every character of [s] satisfies [p] *)
Fixpoint all_chars (p : ascii -> bool) (s : string) : bool :=
  match s with
  | EmptyString => true
  | String c s' => p c && all_chars p s'
  end.

(** not a line feed *)
Definition not_lf (c : ascii) : bool := negb (Ascii.eqb c "010"%char).

(** a character [.] matches *)
Definition not_line_terminator (c : ascii) : bool := negb (Regex.is_line_terminator c).

(** [n] spaces *)
Fixpoint spaces (n : nat) : string :=
  match n with O => EmptyString | S n' => String " "%char (spaces n') end.

(** the loop of the lazy group [(.+?)] in [match_here], [acc] being the
    text taken so far *)
Definition group_loop (rest : list Regex.item) : string -> string -> option (option string) :=
  fix plus (acc s : string) : option (option string) :=
    match s with
    | String c' s' =>
        if Regex.is_line_terminator c' then None
        else
          let acc' := acc ++ String c' EmptyString in
          match Regex.match_here rest s' with
          | Some _ => Some (Some acc')
          | None => plus acc' s'
          end
    | EmptyString => None
    end.

(** the loop of the greedy star [c*] in [match_here] *)
Definition star_loop (c : ascii) (rest : list Regex.item) : string -> option (option string) :=
  fix star (s : string) : option (option string) :=
    match s with
    | String c' s' =>
        if Ascii.eqb c c'
        then match star s' with
             | Some r => Some r
             | None => Regex.match_here rest s
             end
        else Regex.match_here rest s
    | EmptyString => Regex.match_here rest s
    end.

(** the key [k] is not written by the steps that [f] and [pl] enable *)
Definition untouched_key (pl : Platform) (f : Flags) (k : string) : Prop :=
  (k = "name" \/ k = "title" \/ k = "executable" -> flagDebugMode f = false) /\
  (k = "revision" -> pl <> Win) /\
  (k = "linux_executable_path" \/ k = "linux_icon_path" -> pl <> Linux).

(** the files below an entry that the walk reaches, each as the list of
    names from the entry down to the file *)
Fixpoint reached (e : Entry) : list (list string) :=
  match e with
  | File name => if is_manifest name then [] else [[name]]
  | Dir name entries =>
      if is_manifest name then [] else List.map (cons name) (List.flat_map reached entries)
  end.

(** the path made of [names] below [base] *)
Definition below (base : path) (names : list string) : path :=
  List.fold_left (Path.join Win) names base.

(** what the walk does with the file of the names [names] *)
Definition visit (c : Com) (basePath last : path) (names : list string) : AppxCall :=
  let file := below basePath names in
  if SUCCEEDED (openStream c file)
  then AddPayloadFile (below last names) (FindMimeFromData c file) file
  else AppxLog ("Could not add file: " ++ file).

(** whether the stream on the file of the names [names] opens *)
Definition opens (c : Com) (basePath : path) (names : list string) : bool :=
  SUCCEEDED (openStream c (below basePath names)).

(** [hr] after the files [files] were visited in this order *)
Definition hr_after (c : Com) (basePath : path) (files : list (list string)) (hr : HRESULT)
    : HRESULT :=
  List.fold_left (fun _ names => openStream c (below basePath names)) files hr.

(** with a package writer, the walk over the entries of a directory *)
Definition walked (c : Com) (basePath last : path) (files : list (list string)) (w : Walk)
    : Walk :=
  {| w_hr := hr_after c basePath files (w_hr w);
     w_calls := (w_calls w ++ List.map (visit c basePath last) files)%list |}.

(** how the block ends once the walk is over, with a package writer *)
Definition finish (c : Com) (pathPackage : path) (w : Walk) : Walk :=
  let manifest := Path.join Win pathPackage "AppxManifest.xml" in
  if SUCCEEDED (w_hr w) then
    if SUCCEEDED (openStream c manifest) then
      let hrc := closeWriter c (payload (w_calls w)) in
      {| w_hr := hrc;
         w_calls :=
           (w_calls w
              ++ [ClosePackage manifest;
                  AppxLog (if SUCCEEDED hrc then "Package saved"
                           else "Unable to save package; " ++ ErrorMessage c hrc)])%list |}
    else
      {| w_hr := openStream c manifest;
         w_calls :=
           (w_calls w
              ++ [AppxLog "Could not generate AppxManifest.xml";
                  AppxLog ("Unable to save package; "
                             ++ ErrorMessage c (openStream c manifest))])%list |}
  else
    {| w_hr := w_hr w;
       w_calls :=
         (w_calls w
            ++ [AppxLog "Could not get package writer or add files";
                AppxLog "Could not generate AppxManifest.xml";
                AppxLog ("Unable to save package; " ++ ErrorMessage c (w_hr w))])%list |}.

(** without a package writer, the walk over the files [files]: it ends in
    the call through the null writer at the first file whose stream opens *)
Fixpoint walked_null (c : Com) (basePath : path) (files : list (list string)) (w : Walk)
    : Ended Walk :=
  match files with
  | nil => Done w
  | f :: files' =>
      if opens c basePath f then NullWriter (w_calls w)
      else
        walked_null c basePath files'
          {| w_hr := openStream c (below basePath f);
             w_calls :=
               (w_calls w ++ [AppxLog ("Could not add file: " ++ below basePath f)])%list |}
  end.

(** an API on which every call succeeds, but no stream opens on a file
    named locked.bin *)
Definition com_ok : Com :=
  {| CoInitializeEx := 0;
     createOutputStream := fun _ => 0;
     CreateUri := 0;
     CoCreateInstance := 0;
     CreatePackageWriter := 0;
     openStream := fun p => if Str.found "locked.bin" p then -2147024864 else 0;
     FindMimeFromData := fun _ => None;
     closeWriter := fun _ => 0;
     ErrorMessage := fun _ => "The process cannot access the file" |}.

(** the same API without the Appx factory *)
Definition com_without_factory : Com :=
  {| CoInitializeEx := 0;
     createOutputStream := fun _ => 0;
     CreateUri := 0;
     CoCreateInstance := -2147221164;
     CreatePackageWriter := 0;
     openStream := openStream com_ok;
     FindMimeFromData := fun _ => None;
     closeWriter := fun _ => 0;
     ErrorMessage := fun _ => "Class not registered" |}.

(** a package directory *)
Definition package_entries : list Entry :=
  [File "AppxManifest.xml"; Dir "assets" [File "locked.bin"; File "icon.png"];
   File "app.exe"].

(** [f] with the app store flag set to [b] *)
Definition with_app_store (f : Flags) (b : bool) : Flags :=
  {| flagRunUserBuild := flagRunUserBuild f; flagAppStore := b;
     flagCodeSign := flagCodeSign f; flagShouldRun := flagShouldRun f;
     flagEntitlements := flagEntitlements f; flagShouldNotarize := flagShouldNotarize f;
     flagDebugMode := flagDebugMode f; flagShouldPackage := flagShouldPackage f |}.

(** what [getCxxFlags] returns for the value [v] of $CXX_FLAGS *)
Definition cxx_flags_suffix (v : string) : string :=
  if Str.empty v then "" else " " ++ v.

(** a computation that completes returns a value that satisfies [Q] *)
Definition yields {A : Type} (Q : A -> Prop) (m : M A) : Prop :=
  forall st a st', m st = (Ok a, st') -> Q a.

(** ** Properties *)

(** *** Strings *)

Lemma app_cons (c : ascii) (s t : string) : String c s ++ t = String c (s ++ t).
Proof. reflexivity. Qed.

Lemma app_nil_l (s : string) : "" ++ s = s.
Proof. reflexivity. Qed.

Lemma app_nil_r (s : string) : s ++ "" = s.
Proof. induction s as [|c s IH]; [reflexivity|]. rewrite app_cons, IH. reflexivity. Qed.

Lemma app_assoc (s t u : string) : (s ++ t) ++ u = s ++ t ++ u.
Proof. induction s as [|c s IH]; [reflexivity|]. rewrite !app_cons, IH. reflexivity. Qed.

Lemma starts_with_spec (p s : string) :
  Str.starts_with p s = true <-> exists post, s = p ++ post.
Proof.
  revert s. induction p as [|a p IH]; intros s; simpl.
  - split; [intros _; exists s; reflexivity | reflexivity].
  - destruct s as [|b s]; simpl.
    + split; [discriminate | intros [post Hp]; discriminate].
    + destruct (Ascii.eqb_spec a b) as [->|Hne].
      * rewrite IH. split; intros [post Hp]; exists post;
          rewrite app_cons in *; congruence.
      * split; [discriminate | intros [post Hp]; rewrite app_cons in Hp; congruence].
Qed.

Lemma starts_with_app (p post : string) : Str.starts_with p (p ++ post) = true.
Proof. apply starts_with_spec. eauto. Qed.

Lemma found_occurs (sub s : string) : Str.found sub s = true <-> Str.occurs sub s.
Proof.
  unfold Str.found, Str.occurs. split.
  - induction s as [|c s IH]; simpl.
    + destruct (Str.starts_with sub "") eqn:E; [|discriminate].
      intros _. apply starts_with_spec in E as [post Hp]. exists "", post. exact Hp.
    + destruct (Str.starts_with sub (String c s)) eqn:E.
      * intros _. apply starts_with_spec in E as [post Hp]. exists "", post. exact Hp.
      * destruct (Str.find sub s); simpl; [|discriminate].
        intros _. destruct IH as (pre & post & Hp); [reflexivity|].
        exists (String c pre), post. rewrite app_cons. congruence.
  - intros (pre & post & ->). induction pre as [|c pre IH].
    + rewrite app_nil_l.
      pose proof (starts_with_app sub post) as E.
      destruct (sub ++ post); simpl; rewrite E; reflexivity.
    + rewrite app_cons. simpl.
      destruct (Str.starts_with sub (String c (pre ++ sub ++ post))); [reflexivity|].
      destruct (Str.find sub (pre ++ sub ++ post)); [reflexivity|discriminate].
Qed.

Lemma not_found_occurs (sub s : string) : Str.found sub s = false <-> ~ Str.occurs sub s.
Proof.
  rewrite <- found_occurs. destruct (Str.found sub s); split; congruence.
Qed.

Example join_ex1 : Path.join Linux "a" "b" = "a/b". Proof. reflexivity. Qed.
Example join_ex2 : Path.join Linux "a" "/b" = "/b". Proof. reflexivity. Qed.
Example join_ex3 : Path.join Linux "a/" "b" = "a/b". Proof. reflexivity. Qed.
Example join_ex4 : Path.join Linux "" "b" = "b". Proof. reflexivity. Qed.
Example join_ex5 : Path.join Linux "a" "" = "a/". Proof. reflexivity. Qed.
Example join_ex6 : Path.join Win "cat" "c:/dog" = "c:/dog". Proof. reflexivity. Qed.
Example join_ex7 : Path.join Win "c:cat" "/dog" = "c:/dog". Proof. reflexivity. Qed.
Example join_ex8 : Path.join Win "c:cat" "c:dog" = "c:cat\dog". Proof. reflexivity. Qed.
Example join_ex9 : Path.join Win "c:cat" "d:dog" = "d:dog". Proof. reflexivity. Qed.
Example join_ex10 : Path.join Win "c:" "" = "c:". Proof. reflexivity. Qed.
Example join_ex11 : Path.join Win "cat" "c:" = "c:". Proof. reflexivity. Qed.
Example join_ex12 : Path.join Win "C:\proj\dist" "app.exe" = "C:\proj\dist\app.exe". Proof. reflexivity. Qed.
Example join_ex13 : Path.join Win "\\srv" "x" = "\\srv\x". Proof. reflexivity. Qed.

(** *** Command line flags *)

Lemma add_event_nil (st : State) : add_event st [] = st.
Proof. destruct st; unfold add_event; simpl. rewrite List.app_nil_r. reflexivity. Qed.

Lemma add_event_app (st : State) (es es' : list Event) :
  add_event (add_event st es) es' = add_event st (es ++ es')%list.
Proof. unfold add_event; simpl. rewrite <- List.app_assoc. reflexivity. Qed.

Lemma scan_arg_help (arg : string) (f : Flags) (st : State) :
  Str.found "-h" arg = true -> scan_arg arg f st = (Exit 0, add_event st [Usage]).
Proof. intros Hh. unfold scan_arg, bind, when. rewrite Hh. reflexivity. Qed.

Lemma scan_arg_no_help (arg : string) (f : Flags) (st : State) :
  Str.found "-h" arg = false -> scan_arg arg f st = (Ok (flags_after f [arg]), st).
Proof.
  intros Hh. unfold scan_arg, bind, when, ret. rewrite Hh.
  unfold flags_after. simpl. rewrite !orb_false_r.
  destruct f; simpl.
  destruct (Str.found "-c" arg), (Str.found "-me" arg), (Str.found "-mn" arg),
    (Str.found "-o" arg), (Str.found "-p" arg), (Str.found "-r" arg),
    (Str.found "-s" arg), (Str.found "-xd" arg); simpl;
    rewrite ?orb_true_r, ?orb_false_r, ?andb_true_r, ?andb_false_r; reflexivity.
Qed.

Lemma flags_after_cons (f : Flags) (arg : string) (args : list string) :
  flags_after (flags_after f [arg]) args = flags_after f (arg :: args).
Proof.
  unfold flags_after; simpl. rewrite !orb_false_r.
  destruct f; simpl. rewrite !orb_assoc, negb_orb, !andb_assoc. reflexivity.
Qed.

Lemma scan_args_no_help (args : list string) (f : Flags) (st : State) :
  existsb (Str.found "-h") args = false ->
  scan_args args f st = (Ok (flags_after f args), st).
Proof.
  revert f. induction args as [|arg args IH]; intros f Hh; simpl in *.
  - unfold ret, flags_after; simpl. rewrite !orb_false_r, andb_true_r.
    destruct f; reflexivity.
  - apply orb_false_elim in Hh as [Ha Hr].
    unfold bind. rewrite scan_arg_no_help by exact Ha.
    rewrite IH by exact Hr. rewrite flags_after_cons. reflexivity.
Qed.

Lemma scan_args_help (args : list string) (f : Flags) (st : State) :
  existsb (Str.found "-h") args = true ->
  scan_args args f st = (Exit 0, add_event st [Usage]).
Proof.
  revert f. induction args as [|arg args IH]; intros f Hh; simpl in *; [discriminate|].
  unfold bind. destruct (Str.found "-h" arg) eqn:Ha.
  - rewrite scan_arg_help by exact Ha. reflexivity.
  - rewrite scan_arg_no_help by exact Ha. apply IH. exact Hh.
Qed.

Lemma flags_after_initial (args : list string) :
  flags_after initial_flags args = flags_of args.
Proof. reflexivity. Qed.

Lemma existsb_found (sub : string) (argv : list string) :
  existsb (Str.found sub) argv = true <-> exists arg, In arg argv /\ Str.occurs sub arg.
Proof.
  rewrite existsb_exists. split; intros (arg & Hin & Hf); exists arg; split; auto;
    apply found_occurs; exact Hf.
Qed.

Lemma main_help (H : Host) (pl : Platform) (argv : list string) (st : State) :
  existsb (Str.found "-h") argv = true ->
  exists pre, (pre = [] \/ pre = cxx_warning pl) /\
    main H pl argv st = (Exit 0, add_event st (pre ++ [Usage])).
Proof.
  intros Hh. unfold main.
  destruct (Z.of_nat (length argv) <? 2) eqn:Hargc.
  - exists []. split; [left; reflexivity|]. reflexivity.
  - unfold bind at 1. unfold when at 1. unfold ret at 1.
    unfold bind at 1. unfold getEnv_, ask.
    destruct (Str.empty (getEnv H (trace st) "CXX")) eqn:Hcxx.
    + exists (cxx_warning pl). split; [right; reflexivity|].
      unfold bind at 1. unfold when at 1. unfold bind at 1. unfold log at 1. unfold emit at 1.
      assert (Hset : (if win pl then emit (SetEnv "CXX=clang++") else emit (SetEnv "CXX=/usr/bin/g++"))
                = emit (SetEnv (if win pl then "CXX=clang++" else "CXX=/usr/bin/g++")))
        by (destruct pl; reflexivity).
      rewrite Hset. unfold emit at 1. simpl.
      unfold bind at 1. rewrite scan_args_help by exact Hh.
      unfold add_event, cxx_warning; simpl. rewrite <- !List.app_assoc. reflexivity.
    + exists []. split; [left; reflexivity|].
      unfold bind at 1. unfold when at 1. unfold ret at 1.
      unfold bind at 1. rewrite scan_args_help by exact Hh. reflexivity.
Qed.

(** C10.  Flag detection is a substring test on every argument, the
    program name and the project directory included: a flag is set exactly
    when its text occurs somewhere in some argument ([-xd] clears the debug
    flag, which is set otherwise); and when ["-h"] occurs in any argument,
    [main] prints the usage text and exits with code 0, having touched no
    setting and run no step of the pipeline. *)
Theorem flag_detection_is_substring_matching
    (H : Host) (pl : Platform) (argv : list string) (st : State) :
  ((exists arg, In arg argv /\ Str.occurs "-h" arg) ->
     exists pre, (pre = [] \/ pre = cxx_warning pl) /\
       main H pl argv st = (Exit 0, add_event st (pre ++ [Usage])))
  /\
  (~ (exists arg, In arg argv /\ Str.occurs "-h" arg) ->
     exists f, scan_args argv initial_flags st = (Ok f, st) /\
       (flagCodeSign f = true <-> exists arg, In arg argv /\ Str.occurs "-c" arg) /\
       (flagEntitlements f = true <-> exists arg, In arg argv /\ Str.occurs "-me" arg) /\
       (flagShouldNotarize f = true <-> exists arg, In arg argv /\ Str.occurs "-mn" arg) /\
       (flagRunUserBuild f = true <-> exists arg, In arg argv /\ Str.occurs "-o" arg) /\
       (flagShouldPackage f = true <-> exists arg, In arg argv /\ Str.occurs "-p" arg) /\
       (flagShouldRun f = true <-> exists arg, In arg argv /\ Str.occurs "-r" arg) /\
       (flagAppStore f = true <-> exists arg, In arg argv /\ Str.occurs "-s" arg) /\
       (flagDebugMode f = false <-> exists arg, In arg argv /\ Str.occurs "-xd" arg)).
Proof.
  split.
  - intros Hh. apply main_help. apply existsb_found. exact Hh.
  - intros Hn. exists (flags_of argv). split.
    + rewrite scan_args_no_help, flags_after_initial; [reflexivity|].
      destruct (existsb (Str.found "-h") argv) eqn:E; [|reflexivity].
      exfalso. apply Hn. apply existsb_found. exact E.
    + unfold flags_of; simpl. rewrite negb_false_iff.
      repeat split; try (apply existsb_found); try (apply existsb_found; assumption).
Qed.

Lemma flag_detection_is_substring_matching_witness :
  exists pre,
    (pre = [] \/ pre = cxx_warning Linux) /\
    main (quiet_host scenario_settings) Linux ["opkit"; "my-house"] initial_state
    = (Exit 0, add_event initial_state (pre ++ [Usage])).
Proof.
  apply (proj1 (flag_detection_is_substring_matching (quiet_host scenario_settings)
                  Linux ["opkit"; "my-house"] initial_state)).
  exists "my-house". split; [right; left; reflexivity|].
  exists "my", "ouse". reflexivity.
Defined.

(** *** Running the monad *)

Lemma bind_ok {A B} (m : M A) (k : A -> M B) (st st2 : State) (b : B) :
  bind m k st = (Ok b, st2) ->
  exists a st1, m st = (Ok a, st1) /\ k a st1 = (Ok b, st2).
Proof.
  unfold bind. destruct (m st) as [[a| | |] st1]; intros E; try discriminate.
  exists a, st1. split; [reflexivity | exact E].
Qed.

Lemma get_touch (k k' : string) (m : Settings) : get k (touch k' m) = get k m.
Proof.
  unfold get, touch. destruct (m !! k') eqn:E; [reflexivity|].
  destruct (decide (k' = k)) as [->|Hne].
  - rewrite lookup_insert_eq, E. reflexivity.
  - rewrite lookup_insert_ne by exact Hne. reflexivity.
Qed.

Lemma get_insert_ne (k k' v : string) (m : Settings) :
  k' <> k -> get k (<[k' := v]> m) = get k m.
Proof. intros Hne. unfold get. rewrite lookup_insert_ne by exact Hne. reflexivity. Qed.

Lemma get_insert_eq (k v : string) (m : Settings) : get k (<[k := v]> m) = v.
Proof. unfold get. rewrite lookup_insert_eq. reflexivity. Qed.

(** invert a completed run, statement by statement *)
Ltac step_done E := inversion E; subst; clear E.

Ltac run_in E :=
  simpl in E;
  lazymatch type of E with
  | bind _ _ _ = (Ok _, _) =>
      let a := fresh "a" in let st1 := fresh "st" in
      let E1 := fresh "E" in
      apply bind_ok in E as (a & st1 & E1 & E);
      run_in E1; run_in E
  | settings_at _ _ = (Ok _, _) => unfold settings_at in E; step_done E
  | settings_set _ _ _ = (Ok _, _) => unfold settings_set in E; step_done E
  | settings_all _ = (Ok _, _) => unfold settings_all in E; step_done E
  | settings_count _ _ = (Ok _, _) => unfold settings_count in E; step_done E
  | settings_assign _ _ = (Ok _, _) => unfold settings_assign in E; step_done E
  | settings_append _ _ _ = (Ok _, _) => unfold settings_append in E; run_in E
  | ret _ _ = (Ok _, _) => unfold ret in E; step_done E
  | log _ _ = (Ok _, _) => unfold log, emit in E; step_done E
  | emit _ _ = (Ok _, _) => unfold emit in E; step_done E
  | writeFile _ _ _ = (Ok _, _) => unfold writeFile, emit in E; step_done E
  | ask _ _ = (Ok _, _) => unfold ask in E; step_done E
  | getEnv_ _ _ _ = (Ok _, _) => unfold getEnv_, ask in E; step_done E
  | getCxxFlags _ _ = (Ok _, _) => unfold getCxxFlags in E; run_in E
  | exec_ _ _ _ = (Ok _, _) => unfold exec_ in E; step_done E
  | system_ _ _ _ = (Ok _, _) => unfold system_ in E; step_done E
  | fs ?H ?op ?st = (Ok _, _) =>
      let T := fresh "Hthrows" in
      unfold fs in E; destruct (throws H (trace st) op) eqn:T;
      [discriminate E | unfold emit in E; step_done E]
  | exit _ _ = (Ok _, _) => discriminate E
  | when ?b _ _ = (Ok _, _) =>
      let B := fresh "Hcond" in
      unfold when in E; destruct b eqn:B; run_in E
  | _ => idtac
  end.

(** *** The package layout *)

Section Layout.

Variable H : Host.

Lemma mac_prep_layout (pl : Platform) (target pathOutput : path) (l0 l : Locals)
    (st st' : State) :
  mac_prep H pl target pathOutput l0 st = (Ok l, st') ->
  let s := settings st in
  let j := Path.join pl in
  (packageName l = get "name" s ++ ".app" /\
   pathPackage l = j (j target pathOutput) (packageName l) /\
   pathBin l = j (j (pathPackage l) "Contents") "MacOS" /\
   pathResources l = j (j (pathPackage l) "Contents") "Resources" /\
   pathResourcesRelativeToUserBuild l
     = j (j (j (get "output" s) (packageName l)) "Contents") "Resources") /\
  forall k, get k (settings st') = get k s.
Proof.
  intros E. unfold mac_prep in E. run_in E. simpl.
  split; [repeat split; rewrite ?get_touch; reflexivity|].
  intros k. rewrite !get_touch. reflexivity.
Qed.

Lemma linux_prep_layout (pl : Platform) (target pathOutput : path) (l0 l : Locals)
    (st st' : State) :
  linux_prep H pl target pathOutput l0 st = (Ok l, st') ->
  let s := settings st in
  let j := Path.join pl in
  (packageName l
     = get "executable" s ++ "_" ++ get "version" s ++ "-" ++ get "revision" s
         ++ "_" ++ get "arch" s /\
   pathPackage l = j (j target pathOutput) (packageName l) /\
   pathBin l = j (j (pathPackage l) "opt") (get "name" s) /\
   pathResources l = pathBin l /\
   pathResourcesRelativeToUserBuild l
     = j (j (j pathOutput (packageName l)) "opt") (get "name" s)) /\
  forall k, k <> "linux_executable_path" -> k <> "linux_icon_path" ->
    get k (settings st') = get k s.
Proof.
  intros E. unfold linux_prep in E. run_in E; simpl;
    (split; [repeat split; rewrite ?get_touch; reflexivity|]);
    intros k Hk1 Hk2;
    rewrite ?get_touch, !get_insert_ne, ?get_touch by congruence; reflexivity.
Qed.

Lemma win_prep_layout (pl : Platform) (target pathOutput : path) (l0 l : Locals)
    (st st' : State) :
  win_prep H pl target pathOutput l0 st = (Ok l, st') ->
  let s := settings st in
  let j := Path.join pl in
  (packageName l = get "executable" s ++ "-" ++ get "version" s /\
   (exists h, pathPackage l
              = j (j (j (current_path H h) target) pathOutput) (packageName l)) /\
   pathBin l = pathPackage l /\
   pathResourcesRelativeToUserBuild l = pathPackage l) /\
  forall k, k <> "revision" -> get k (settings st') = get k s.
Proof.
  intros E. unfold win_prep in E. run_in E; simpl;
    (split; [repeat split; rewrite ?get_touch; eauto|]);
    intros k Hk;
    rewrite ?get_insert_ne, ?get_touch by congruence; reflexivity.
Qed.

Lemma prepare_layout (pl : Platform) (f : Flags) (target : path) (st st' : State)
    (pathOutput executable : path) (l : Locals) :
  prepare H pl f target st = (Ok (pathOutput, executable, l), st') ->
  let s := settings st in
  let j := Path.join pl in
  pathOutput = get "output" s /\
  executable = get "executable" s ++ (if win pl then ".exe" else "") /\
  match pl with
  | Mac =>
      packageName l = get "name" s ++ ".app" /\
      pathPackage l = j (j target pathOutput) (packageName l) /\
      pathBin l = j (j (pathPackage l) "Contents") "MacOS" /\
      pathResources l = j (j (pathPackage l) "Contents") "Resources" /\
      pathResourcesRelativeToUserBuild l
        = j (j (j pathOutput (packageName l)) "Contents") "Resources"
  | Linux =>
      packageName l
        = get "executable" s ++ "_" ++ get "version" s ++ "-" ++ get "revision" s
            ++ "_" ++ get "arch" s /\
      pathPackage l = j (j target pathOutput) (packageName l) /\
      pathBin l = j (j (pathPackage l) "opt") (get "name" s) /\
      pathResources l = pathBin l /\
      pathResourcesRelativeToUserBuild l
        = j (j (j pathOutput (packageName l)) "opt") (get "name" s)
  | Win =>
      packageName l = get "executable" s ++ "-" ++ get "version" s /\
      (exists h, pathPackage l
                 = j (j (j (current_path H h) target) pathOutput) (packageName l)) /\
      pathBin l = pathPackage l /\
      pathResourcesRelativeToUserBuild l = pathPackage l
  end /\
  get "name" (settings st') = get "name" s /\
  get "title" (settings st') = get "title" s /\
  get "executable" (settings st') = get "executable" s.
Proof.
  intros E s j. subst s j. unfold prepare in E.
  destruct pl; run_in E;
    repeat match goal with
      | E' : mac_prep _ _ _ _ _ _ = _ |- _ => apply mac_prep_layout in E'; simpl in E'
      | E' : linux_prep _ _ _ _ _ _ = _ |- _ => apply linux_prep_layout in E'; simpl in E'
      | E' : win_prep _ _ _ _ _ _ = _ |- _ => apply win_prep_layout in E'; simpl in E'
      end;
    match goal with E' : _ /\ _ |- _ => destruct E' as [Hl Hs] end;
    rewrite ?get_touch in Hl; simpl; rewrite ?get_touch;
    (split; [reflexivity|]); (split; [reflexivity|]);
    (split; [exact Hl|]);
    rewrite !Hs by discriminate; rewrite !get_touch; repeat split; reflexivity.
Qed.

End Layout.

(** *** Paths *)

Lemma last_app (p q : string) : q <> "" -> Str.last (p ++ q) = Str.last q.
Proof.
  intros Hq. induction p as [|c p IH]; [reflexivity|].
  rewrite app_cons. simpl. rewrite IH.
  destruct (p ++ q) eqn:E; [|reflexivity].
  destruct p; [rewrite app_nil_l in E; contradiction | rewrite app_cons in E; discriminate].
Qed.

Lemma plain_relative_inv (pl : Platform) (q : path) :
  Path.is_plain_relative pl q = true ->
  Path.root_name_len pl q = 0%nat /\ Path.has_root_directory pl q = false /\
  Path.is_absolute pl q = false.
Proof.
  unfold Path.is_plain_relative, Path.has_root_name. intros Hq.
  apply andb_true_iff in Hq as [Hn Hd].
  apply negb_true_iff in Hd. apply negb_true_iff, negb_false_iff, Nat.eqb_eq in Hn.
  repeat split; try assumption.
  destruct pl; try exact Hd.
  unfold Path.is_absolute, Path.has_root_name. rewrite Hn. simpl.
  destruct q as [|c0 [|c1 rest]]; try reflexivity.
  destruct (Path.is_letter c0 && Ascii.eqb c1 ":"%char) eqn:E; [|reflexivity].
  simpl in Hn. rewrite E in Hn. discriminate.
Qed.

Lemma join_relative (pl : Platform) (p q : path) :
  Path.is_plain_relative pl q = true ->
  Path.join pl p q = p ++ sep_after pl p ++ q.
Proof.
  intros Hq. pose proof (plain_relative_inv pl q Hq) as (Hn & Hd & Ha).
  unfold Path.join, sep_after, Path.has_root_name. rewrite Ha, Hd, Hn. simpl.
  destruct ((negb (Path.has_root_directory pl p) && Path.is_absolute pl p)
            || Path.has_filename pl p); reflexivity.
Qed.

Lemma descendant_join (pl : Platform) (root rel : path) :
  rel <> "" -> Path.is_plain_relative pl rel = true ->
  Path.descendant pl root (Path.join pl root rel).
Proof. intros Hne Hrel. exists rel. auto. Qed.

Lemma descendant_prefix (pl : Platform) (root p : path) :
  Path.descendant pl root p -> Str.starts_with root p = true.
Proof.
  intros (rel & _ & Hrel & ->). rewrite join_relative by exact Hrel.
  apply starts_with_app.
Qed.

Lemma posix_has_filename_app (pl : Platform) (p q : path) :
  posix pl -> q <> "" -> Path.has_filename pl (p ++ q) = Path.has_filename pl q.
Proof.
  intros [-> | ->] Hq; unfold Path.has_filename; simpl; rewrite last_app by exact Hq;
    reflexivity.
Qed.

Lemma posix_sep_after (pl : Platform) (p : path) :
  posix pl -> sep_after pl p = if Path.has_filename pl p then "/" else "".
Proof.
  intros [-> | ->]; unfold sep_after, Path.is_absolute; simpl;
    destruct (Path.has_root_directory _ p); simpl; reflexivity.
Qed.

Lemma posix_plain_relative_app (pl : Platform) (c : ascii) (p q : path) :
  posix pl -> Path.is_plain_relative pl (String c p) = true ->
  Path.is_plain_relative pl (String c p ++ q) = true.
Proof. intros [-> | ->] Hp; exact Hp. Qed.

(** joining two relative components one after the other is joining their
    concatenation *)
Lemma posix_join_join (pl : Platform) (p q r : path) :
  posix pl -> q <> "" ->
  Path.is_plain_relative pl q = true -> Path.is_plain_relative pl r = true ->
  let qr := q ++ (if Path.has_filename pl q then "/" else "") ++ r in
  Path.join pl (Path.join pl p q) r = Path.join pl p qr
  /\ Path.is_plain_relative pl qr = true /\ qr <> "".
Proof.
  intros Hpl Hq Hrq Hrr qr.
  assert (Hrel : Path.is_plain_relative pl qr = true /\ qr <> "").
  { subst qr. destruct q as [|c q]; [contradiction|]. split.
    - apply posix_plain_relative_app; assumption.
    - rewrite app_cons. discriminate. }
  split; [|exact Hrel]. destruct Hrel as [Hrel _]. subst qr.
  rewrite (join_relative pl p q) by exact Hrq.
  rewrite (join_relative pl _ r) by exact Hrr.
  rewrite (join_relative pl p _) by exact Hrel.
  rewrite (posix_sep_after pl (p ++ _)) by exact Hpl.
  rewrite <- (app_assoc p (sep_after pl p) q).
  rewrite posix_has_filename_app by assumption.
  rewrite !app_assoc. reflexivity.
Qed.

Lemma win_plain_relative_cons (c0 : ascii) (rest : string) :
  Path.is_plain_relative Win (String c0 rest)
  = negb (Path.is_slash Win c0) && negb (win_drive c0 rest).
Proof.
  unfold Path.is_plain_relative, Path.has_root_name, Path.has_root_directory.
  destruct (Path.is_slash Win c0) eqn:Es.
  - destruct (Path.root_name_len Win (String c0 rest)) as [|n]; simpl.
    + unfold Path.is_slash in Es. rewrite Es. reflexivity.
    + reflexivity.
  - assert (Hn : Path.root_name_len Win (String c0 rest)
                 = if win_drive c0 rest then 2%nat else 0%nat).
    { destruct rest as [|c1 rest]; [reflexivity|]. unfold win_drive.
      unfold Path.root_name_len. rewrite Es. simpl.
      destruct (Path.is_letter c0 && Ascii.eqb c1 ":"%char); reflexivity. }
    rewrite Hn. destruct (win_drive c0 rest); simpl; [reflexivity|].
    unfold Path.is_slash in Es. rewrite Es. reflexivity.
Qed.

Lemma win_plain_relative_exe (e : string) :
  Path.is_plain_relative Win e = true -> Path.is_plain_relative Win (e ++ ".exe") = true.
Proof.
  destruct e as [|c0 rest]; [reflexivity|].
  rewrite app_cons, !win_plain_relative_cons.
  destruct rest as [|c1 rest]; [|exact (fun h => h)].
  rewrite app_nil_l. unfold win_drive. cbn [Ascii.eqb]. simpl.
  rewrite andb_false_r. exact (fun h => h).
Qed.

Lemma last_some (s : string) : s <> "" -> exists c, Str.last s = Some c.
Proof.
  induction s as [|x s IH]; [contradiction|]. intros _.
  destruct s as [|y s]; [exists x; reflexivity|].
  destruct IH as [c Hc]; [discriminate|]. exists c. exact Hc.
Qed.

Lemma last_cons (x : ascii) (s : string) (c : ascii) :
  Str.last s = Some c -> Str.last (String x s) = Some c.
Proof. destruct s; [discriminate|]. exact (fun h => h). Qed.

(** the components of a path split into the last one and those before it,
    and appending to the path extends the last one *)
Lemma components_snoc (pl : Platform) (a : string) :
  exists ia la,
    Path.components pl a = (ia ++ [la])%list /\
    (forall b hb tb, Path.components pl b = hb :: tb ->
       Path.components pl (a ++ b) = (ia ++ (la ++ hb)%string :: tb)%list) /\
    (forall c, Str.last la = Some c -> Str.last a = Some c /\ Path.is_slash pl c = false) /\
    (ia = [] -> a = la).
Proof.
  induction a as [|x a (ia & la & Hc & Happ & Hlast & Hone)].
  - exists [], "". repeat split; try discriminate.
    intros b hb tb Hb. rewrite app_nil_l. exact Hb.
  - destruct (Path.is_slash pl x) eqn:Ex.
    + exists ("" :: ia), la. repeat split.
      * simpl. rewrite Ex, Hc. reflexivity.
      * intros b hb tb Hb. rewrite app_cons. simpl. rewrite Ex, (Happ b hb tb Hb).
        reflexivity.
      * apply last_cons, Hlast, H.
      * apply (Hlast c H).
      * discriminate.
    + destruct ia as [|h t].
      * specialize (Hone eq_refl). subst a.
        exists [], (String x la). repeat split.
        -- simpl. rewrite Ex, Hc. reflexivity.
        -- intros b hb tb Hb. rewrite !app_cons. simpl. rewrite Ex, (Happ b hb tb Hb).
           reflexivity.
        -- exact H.
        -- destruct la as [|y la].
           ++ simpl in H. injection H as <-. exact Ex.
           ++ apply (Hlast c). exact H.
      * exists (String x h :: t), la. repeat split.
        -- simpl. rewrite Ex, Hc. reflexivity.
        -- intros b hb tb Hb. rewrite app_cons. simpl. rewrite Ex, (Happ b hb tb Hb).
           reflexivity.
        -- apply last_cons, Hlast, H.
        -- apply (Hlast c H).
        -- discriminate.
Qed.

Lemma components_cons (pl : Platform) (a : string) :
  exists h t, Path.components pl a = h :: t.
Proof.
  destruct (components_snoc pl a) as (ia & la & -> & _).
  destruct ia as [|h t]; eexists _, _; reflexivity.
Qed.

(** a path without a file name ends in an empty component *)
Lemma posix_no_filename_last (pl : Platform) (a la : string) (ia : list string) :
  posix pl -> Path.has_filename pl a = false ->
  (forall c, Str.last la = Some c -> Str.last a = Some c /\ Path.is_slash pl c = false) ->
  la = "".
Proof.
  intros Hpl Hf Hlast. destruct la as [|y la]; [reflexivity|].
  destruct (last_some (String y la)) as [c Hc]; [discriminate|].
  destruct (Hlast c Hc) as [Ha Hs].
  assert (Hf' : Path.has_filename pl a = negb (Path.is_slash pl c)).
  { destruct Hpl as [-> | ->]; unfold Path.has_filename; simpl; rewrite Ha; reflexivity. }
  rewrite Hf', Hs in Hf. discriminate.
Qed.

(** the components of [a / b], for relative [b], are those of [a] followed
    by those of [b] (without the empty one a trailing separator of [a]
    stands for) *)
Lemma posix_components_join (pl : Platform) (a b : string) :
  posix pl ->
  exists ia la hb tb,
    Path.components pl a = (ia ++ [la])%list /\
    Path.components pl b = hb :: tb /\
    Path.components pl (a ++ (if Path.has_filename pl a then "/" else "") ++ b)
      = if Path.has_filename pl a then (ia ++ [la] ++ hb :: tb)%list
        else (ia ++ hb :: tb)%list.
Proof.
  intros Hpl.
  destruct (components_snoc pl a) as (ia & la & Ha & Happ & Hlast & _).
  destruct (components_cons pl b) as (hb & tb & Hb).
  exists ia, la, hb, tb. split; [exact Ha|]. split; [exact Hb|].
  destruct (Path.has_filename pl a) eqn:Hf.
  - rewrite (Happ ("/" ++ b) "" (hb :: tb)).
    + rewrite app_nil_r. reflexivity.
    + rewrite app_cons, app_nil_l. simpl. rewrite <- Hb.
      destruct Hpl as [-> | ->]; reflexivity.
  - rewrite app_nil_l, (Happ b hb tb Hb).
    rewrite (posix_no_filename_last pl a la ia Hpl Hf Hlast). reflexivity.
Qed.

Lemma posix_no_dotdot_join (pl : Platform) (a b : string) :
  posix pl -> Path.no_dotdot pl a = true -> Path.no_dotdot pl b = true ->
  Path.no_dotdot pl (a ++ (if Path.has_filename pl a then "/" else "") ++ b) = true.
Proof.
  intros Hpl. unfold Path.no_dotdot.
  destruct (posix_components_join pl a b Hpl) as (ia & la & hb & tb & -> & -> & ->).
  rewrite forallb_app. intros Ha Hb. apply andb_true_iff in Ha as [Hia Hla].
  destruct (Path.has_filename pl a); rewrite !forallb_app, Hia; [rewrite Hla|]; exact Hb.
Qed.

Lemma posix_has_name_join (pl : Platform) (a b : string) :
  posix pl -> Path.has_name pl a = true ->
  Path.has_name pl (a ++ (if Path.has_filename pl a then "/" else "") ++ b) = true.
Proof.
  intros Hpl. unfold Path.has_name.
  destruct (components_snoc pl a) as (ia & la & Ha & Happ & Hlast & _).
  destruct (posix_components_join pl a b Hpl) as (ia' & la' & hb & tb & Ha' & _ & ->).
  rewrite Ha' in Ha. apply app_inj_tail in Ha as [-> ->].
  rewrite Ha', existsb_app. intros Hn.
  destruct (Path.has_filename pl a) eqn:Hf.
  - rewrite !existsb_app. apply orb_true_iff in Hn as [-> | Hn]; [reflexivity|].
    rewrite Hn. apply orb_true_iff. right. reflexivity.
  - rewrite (posix_no_filename_last pl a la ia Hpl Hf Hlast) in Hn.
    simpl in Hn. rewrite orb_false_r in Hn. rewrite existsb_app, Hn. reflexivity.
Qed.

Lemma length_append (s t : string) :
  String.length (s ++ t) = (String.length s + String.length t)%nat.
Proof. induction s as [|c s IH]; [reflexivity|]. rewrite app_cons. simpl. rewrite IH. reflexivity. Qed.

(** with [.exe] appended, the last component is a name and is not [..] *)
Lemma is_name_exe (la : string) :
  Path.is_name (la ++ ".exe") = true /\ negb (String.eqb (la ++ ".exe") "..") = true.
Proof.
  assert (Hlen : forall s, String.length (la ++ ".exe") = String.length s ->
                   (4 <= String.length s)%nat).
  { intros s <-. rewrite length_append. simpl. lia. }
  assert (Hne : forall s, (String.length s < 4)%nat -> String.eqb (la ++ ".exe") s = false).
  { intros s Hs. apply String.eqb_neq. intros E. apply (f_equal String.length) in E.
    specialize (Hlen s E). lia. }
  unfold Path.is_name. rewrite !Hne by (simpl; lia). split; reflexivity.
Qed.

Lemma win_exe_components (e : string) :
  Path.no_dotdot Win e = true ->
  Path.no_dotdot Win (e ++ ".exe") = true /\ Path.has_name Win (e ++ ".exe") = true.
Proof.
  unfold Path.no_dotdot, Path.has_name.
  destruct (components_snoc Win e) as (ia & la & -> & Happ & _).
  rewrite (Happ ".exe" ".exe" [] eq_refl).
  rewrite !forallb_app, existsb_app. intros Hia. apply andb_true_iff in Hia as [-> _].
  destruct (is_name_exe la) as [Hn Hd]. simpl. rewrite Hn, Hd.
  split; [reflexivity | apply orb_true_iff; right; reflexivity].
Qed.

Lemma inside_join (pl : Platform) (root rel : path) :
  Path.is_plain_relative pl rel = true -> Path.no_dotdot pl rel = true ->
  Path.has_name pl rel = true ->
  Path.inside pl root (Path.join pl root rel).
Proof. intros Hrel Hd Hn. exists rel. auto. Qed.

(** what is inside a directory extends its path *)
Lemma inside_descendant (pl : Platform) (root p : path) :
  Path.inside pl root p -> Path.descendant pl root p.
Proof.
  intros (rel & Hrel & _ & Hn & ->). exists rel. repeat split; [|exact Hrel].
  intros ->. destruct pl; discriminate.
Qed.

(** a path that steps up with [..] is not inside, although it extends the
    path of the directory *)
Lemma dotdot_is_not_inside :
  Path.descendant Linux "pkg" "pkg/opt/../../../../tmp/x/foo" /\
  ~ Path.inside Linux "pkg" "pkg/opt/../../../../tmp/x/foo" /\
  ~ Path.inside Linux "pkg" "pkg/..".
Proof.
  split; [exists "opt/../../../../tmp/x/foo"; repeat split; discriminate|].
  split; intros (rel & Hrel & Hd & _ & E); rewrite join_relative in E by exact Hrel;
    vm_compute in E; injection E as <-; vm_compute in Hd; discriminate.
Qed.

(** C7 (as amended).  When the settings' [executable] and, on Linux,
    [name] are relative paths with no [..] component, the binary directory
    is where the layout of the platform puts it under the package root
    (macOS: <package>/Contents/MacOS; Linux: <package>/opt/<name>; Windows:
    the package root itself) and the binary path is inside the package
    root: the root extended by a relative path that names an entry and
    never steps up. *)
Theorem binary_below_package_root
    (H : Host) (pl : Platform) (f : Flags) (target : path) (st st' : State)
    (pathOutput executable : path) (l : Locals) :
  prepare H pl f target st = (Ok (pathOutput, executable, l), st') ->
  Path.is_plain_relative pl (get "executable" (settings st)) = true ->
  Path.no_dotdot pl (get "executable" (settings st)) = true ->
  (pl = Linux ->
   Path.is_plain_relative pl (get "name" (settings st)) = true /\
   Path.no_dotdot pl (get "name" (settings st)) = true) ->
  match pl with
  | Mac =>
      pathBin l = Path.join pl (Path.join pl (pathPackage l) "Contents") "MacOS" /\
      Path.inside pl (pathPackage l) (pathBin l)
  | Linux =>
      pathBin l
        = Path.join pl (Path.join pl (pathPackage l) "opt") (get "name" (settings st)) /\
      Path.inside pl (pathPackage l) (pathBin l)
  | Win => pathBin l = pathPackage l
  end /\
  Path.inside pl (pathPackage l) (binaryPath pl l executable).
Proof.
  intros E Hexe Hdd Hname.
  apply prepare_layout in E as (_ & Hex & Hl & _). unfold binaryPath.
  destruct pl; simpl in Hex.
  - (* macOS *)
    destruct Hl as (_ & _ & Hbin & _).
    rewrite app_nil_r in Hex. subst executable.
    destruct (posix_join_join Mac (pathPackage l) "Contents" "MacOS")
      as (Hj & Hrel & Hne); try reflexivity; [left; reflexivity | discriminate |].
    rewrite Hj in Hbin.
    destruct (posix_join_join Mac (pathPackage l) _ (get "executable" (settings st))
                (or_introl eq_refl) Hne Hrel Hexe) as (Hj2 & Hrel2 & Hne2).
    repeat split.
    + rewrite Hbin, Hj. reflexivity.
    + rewrite Hbin. apply inside_join; [assumption | reflexivity..].
    + rewrite Hbin, Hj2. apply inside_join; [assumption | |].
      * apply posix_no_dotdot_join; [left; reflexivity | reflexivity | exact Hdd].
      * apply posix_has_name_join; [left; reflexivity | reflexivity].
  - (* Linux *)
    destruct Hl as (_ & _ & Hbin & _).
    rewrite app_nil_r in Hex. subst executable.
    destruct (Hname eq_refl) as [Hrn Hdn].
    destruct (posix_join_join Linux (pathPackage l) "opt" (get "name" (settings st)))
      as (Hj & Hrel & Hne); try reflexivity; [right; reflexivity | discriminate | exact Hrn |].
    destruct (posix_join_join Linux (pathPackage l) _ (get "executable" (settings st))
                (or_intror eq_refl) Hne Hrel Hexe) as (Hj2 & Hrel2 & Hne2).
    assert (Hd1 : Path.no_dotdot Linux
                    ("opt" ++ (if Path.has_filename Linux "opt" then "/" else "")
                       ++ get "name" (settings st)) = true)
      by (apply posix_no_dotdot_join; [right; reflexivity | reflexivity | exact Hdn]).
    assert (Hn1 : Path.has_name Linux
                    ("opt" ++ (if Path.has_filename Linux "opt" then "/" else "")
                       ++ get "name" (settings st)) = true)
      by (apply posix_has_name_join; [right; reflexivity | reflexivity]).
    repeat split.
    + exact Hbin.
    + rewrite Hbin, Hj. apply inside_join; assumption.
    + rewrite Hbin, Hj, Hj2. apply inside_join; [assumption | |].
      * apply posix_no_dotdot_join; [right; reflexivity | exact Hd1 | exact Hdd].
      * apply posix_has_name_join; [right; reflexivity | exact Hn1].
  - (* Windows *)
    destruct Hl as (_ & _ & Hbin & _). subst executable. split; [exact Hbin|].
    rewrite Hbin. destruct (win_exe_components _ Hdd) as [Hd Hn].
    apply inside_join; [|exact Hd | exact Hn].
    apply win_plain_relative_exe. exact Hexe.
Qed.

Lemma binary_below_package_root_witness :
  exists l : Locals,
    fst (prepare (quiet_host scenario_settings) Linux release_flags "proj"
           (state_with scenario_settings))
      = Ok ("dist", "foo", l) /\
    Path.inside Linux (pathPackage l) (binaryPath Linux l "foo").
Proof.
  destruct (prepare (quiet_host scenario_settings) Linux release_flags "proj"
              (state_with scenario_settings)) as [o st'] eqn:E.
  assert (Ho : exists l, o = Ok ("dist", "foo", l)).
  { replace o with (fst (o, st')) by reflexivity. rewrite <- E.
    vm_compute. eexists. reflexivity. }
  destruct Ho as [l ->]. exists l. split; [reflexivity|].
  apply (binary_below_package_root _ _ _ _ _ _ _ _ _ E); [reflexivity | reflexivity |].
  intros _. split; reflexivity.
Defined.

(** C7 (as stated) fails: on Linux, with the absolute [name] "/srv/app",
    the binary directory is /srv/app, and neither it nor the binary path
    lies below the package root proj/dist/foo_1.0-1_amd64. *)
Lemma binary_dir_outside_package_root :
  exists l : Locals,
    fst (prepare (quiet_host (settings_named "/srv/app")) Linux release_flags "proj"
           (state_with (settings_named "/srv/app")))
      = Ok ("dist", "foo", l) /\
    pathPackage l = "proj/dist/foo_1.0-1_amd64" /\
    pathBin l = "/srv/app" /\
    binaryPath Linux l "foo" = "/srv/app/foo" /\
    ~ Path.descendant Linux (pathPackage l) (pathBin l) /\
    ~ Path.descendant Linux (pathPackage l) (binaryPath Linux l "foo").
Proof.
  eexists. split; [vm_compute; reflexivity|]. simpl.
  repeat split; try reflexivity;
    intros Hd; apply descendant_prefix in Hd; vm_compute in Hd; discriminate.
Qed.

(** A relative [name] that steps up takes the binary directory out of the
    package root as well: with [name] "../../../../tmp/x" the binary
    directory is proj/dist/foo_1.0-1_amd64/opt/../../../../tmp/x, which
    extends the path of the package root and is not inside it. *)
Lemma binary_dir_steps_out_of_package_root :
  exists l : Locals,
    fst (prepare (quiet_host (settings_named "../../../../tmp/x")) Linux release_flags "proj"
           (state_with (settings_named "../../../../tmp/x")))
      = Ok ("dist", "foo", l) /\
    Path.is_plain_relative Linux "../../../../tmp/x" = true /\
    pathPackage l = "proj/dist/foo_1.0-1_amd64" /\
    pathBin l = "proj/dist/foo_1.0-1_amd64/opt/../../../../tmp/x" /\
    binaryPath Linux l "foo" = "proj/dist/foo_1.0-1_amd64/opt/../../../../tmp/x/foo" /\
    Path.descendant Linux (pathPackage l) (pathBin l) /\
    ~ Path.inside Linux (pathPackage l) (pathBin l) /\
    ~ Path.inside Linux (pathPackage l) (binaryPath Linux l "foo").
Proof.
  eexists. split; [vm_compute; reflexivity|]. simpl.
  repeat split; try reflexivity.
  - exists "opt/../../../../tmp/x". repeat split; discriminate.
  - intros (rel & Hrel & Hd & _ & E). rewrite join_relative in E by exact Hrel.
    vm_compute in E. injection E as <-. vm_compute in Hd. discriminate.
  - intros (rel & Hrel & Hd & _ & E). rewrite join_relative in E by exact Hrel.
    vm_compute in E. injection E as <-. vm_compute in Hd. discriminate.
Qed.



(** *** The debug suffix *)

Section Preservation.

Variable H : Host.
Variable pl : Platform.
Variable k : string.

Lemma preserves_bind {A B} (m : M A) (c : A -> M B) :
  preserves k m -> (forall a, preserves k (c a)) -> preserves k (bind m c).
Proof.
  intros Hm Hc st. unfold bind. specialize (Hm st).
  destruct (m st) as [[a| | |] st1]; simpl in *; try exact Hm.
  rewrite Hc. exact Hm.
Qed.

Lemma preserves_ret {A} (a : A) : preserves k (ret a).
Proof. intros st. reflexivity. Qed.

Lemma preserves_exit {A} (c : Z) : preserves k (@exit A c).
Proof. intros st. reflexivity. Qed.

Lemma preserves_emit (e : Event) : preserves k (emit e).
Proof. intros st. reflexivity. Qed.

Lemma preserves_log (s : string) : preserves k (log s).
Proof. intros st. reflexivity. Qed.

Lemma preserves_writeFile (p : path) (s : string) : preserves k (writeFile p s).
Proof. intros st. reflexivity. Qed.

Lemma preserves_ask {A} (q : list Event -> A) : preserves k (ask q).
Proof. intros st. reflexivity. Qed.

Lemma preserves_getEnv (n : string) : preserves k (getEnv_ H n).
Proof. intros st. reflexivity. Qed.

Lemma preserves_exec (c : string) : preserves k (exec_ H c).
Proof. intros st. reflexivity. Qed.

Lemma preserves_system (c : string) : preserves k (system_ H c).
Proof. intros st. reflexivity. Qed.

Lemma preserves_fs (op : FsOp) : preserves k (fs H op).
Proof. intros st. unfold fs. destruct (throws H (trace st) op); reflexivity. Qed.

Lemma preserves_settings_at (k' : string) : preserves k (settings_at k').
Proof. intros st. simpl. apply get_touch. Qed.

Lemma preserves_settings_all : preserves k settings_all.
Proof. intros st. reflexivity. Qed.

Lemma preserves_settings_set (k' v : string) : k' <> k -> preserves k (settings_set k' v).
Proof. intros Hne st. simpl. apply get_insert_ne. exact Hne. Qed.

Lemma preserves_out_of_fuel {A} : preserves k (fun st => (@OutOfFuel A, st)).
Proof. intros st. reflexivity. Qed.

Ltac preserve :=
  repeat first
    [ apply preserves_bind; [|intros ?]
    | apply preserves_ret | apply preserves_exit | apply preserves_emit
    | apply preserves_log | apply preserves_writeFile | apply preserves_ask
    | apply preserves_getEnv | apply preserves_exec | apply preserves_system
    | apply preserves_fs | apply preserves_settings_at | apply preserves_settings_all
    | apply preserves_out_of_fuel
    | apply preserves_settings_set; congruence
    | assumption
    | match goal with
      | |- preserves _ (when ?b _) => unfold when; destruct b
      | |- preserves _ (if ?b then _ else _) => destruct b
      | |- preserves _ (match ?x with _ => _ end) => destruct x
      | |- preserves _ (let _ := _ in _) => cbv zeta
      end ].

Hypothesis Hk : stable_key k.

Lemma preserves_prepare (f : Flags) (target : path) : preserves k (prepare H pl f target).
Proof.
  destruct Hk as (K1 & K2 & K3).
  unfold prepare, mac_prep, linux_prep, win_prep, getCxxFlags. preserve.
Qed.

Lemma preserves_user_build (f : Flags) (target : path) (l : Locals) :
  preserves k (user_build H pl f target l).
Proof. unfold user_build. preserve. Qed.

Lemma preserves_compile (f : Flags) (s : string) (e : path) (l : Locals) :
  preserves k (compile H pl f s e l).
Proof. unfold compile. preserve. Qed.

Lemma preserves_sign_paths (paths : list string) :
  forall i ent l cmd, preserves k (sign_paths H pl i paths ent l cmd).
Proof.
  induction paths as [|p paths IH]; intros i ent l cmd; simpl; preserve. apply IH.
Qed.

Lemma preserves_poll (fuel : nat) :
  forall uuid u p n, preserves k (poll H fuel uuid u p n).
Proof.
  induction fuel as [|fuel IH]; intros uuid u p n; simpl; unfold poll_body; preserve;
    apply IH.
Qed.

Lemma preserves_release_phase (f : Flags) (target po e : path) (l : Locals) :
  preserves k (release_phase H pl f target po e l).
Proof.
  unfold release_phase, linux_package, mac_sign_step, mac_package, notarize,
    win_package, win_sign, run_step.
  preserve; first [apply preserves_sign_paths | apply preserves_poll].
Qed.

End Preservation.

Lemma debug_suffix_on (f : Flags) (st : State) :
  flagDebugMode f = true ->
  exists st1,
    debug_suffix f st = (Ok tt, st1) /\ trace st1 = trace st /\
    get "name" (settings st1) = get "name" (settings st) ++ "-dev" /\
    get "title" (settings st1) = get "title" (settings st) ++ "-dev" /\
    get "executable" (settings st1) = get "executable" (settings st) ++ "-dev" /\
    (forall k, k <> "name" -> k <> "title" -> k <> "executable" ->
       get k (settings st1) = get k (settings st)).
Proof.
  intros Hd. unfold debug_suffix, when. rewrite Hd.
  eexists. split; [reflexivity|]. simpl.
  split; [reflexivity|].
  repeat split;
    try (intros k K1 K2 K3);
    repeat first [ rewrite get_insert_eq | rewrite get_insert_ne by congruence
                 | rewrite get_touch ];
    reflexivity.
Qed.

Lemma stable_name : stable_key "name".
Proof. repeat split; discriminate. Qed.
Lemma stable_title : stable_key "title".
Proof. repeat split; discriminate. Qed.
Lemma stable_executable : stable_key "executable".
Proof. repeat split; discriminate. Qed.
Lemma stable_version : stable_key "version".
Proof. repeat split; discriminate. Qed.

Lemma preserves_after_debug (H : Host) (pl : Platform) (k : string) (f : Flags)
    (target : path) (_settings : string) :
  stable_key k ->
  preserves k
    (bind (prepare H pl f target) (fun prepared =>
       let '(pathOutput, executable, l) := prepared in
       bind (user_build H pl f target l) (fun _ =>
       bind (compile H pl f _settings executable l) (fun _ =>
       bind (release_phase H pl f target pathOutput executable l) (fun _ => ret 0))))).
Proof.
  intros Hk.
  apply preserves_bind; [apply preserves_prepare; exact Hk|].
  intros [[po e] l].
  apply preserves_bind; [apply preserves_user_build|intros _].
  apply preserves_bind; [apply preserves_compile|intros _].
  apply preserves_bind; [apply preserves_release_phase; exact Hk|intros _].
  apply preserves_ret.
Qed.

(** C5.  In debug mode the suffix "-dev" is appended to [name], [title]
    and [executable] once: however the run ends, each of the three values
    is the configured one followed by a single "-dev".  The suffix comes
    before anything is derived: the run is the package preparation and the
    steps after it, started in the state the suffix step leaves, with the
    three values suffixed and nothing done yet; the executable file name,
    the package name and the layout paths the preparation returns are
    derived from the suffixed values, and they are the ones the user
    build, the compiler and the release steps of the run are given. *)
Theorem debug_suffix_applied_once
    (H : Host) (pl : Platform) (f : Flags) (target : path) (_settings : string)
    (st : State) :
  flagDebugMode f = true ->
  let s := settings st in
  let run := pipeline H pl f target _settings st in
  let final := snd run in
  (get "name" (settings final) = get "name" s ++ "-dev" /\
   get "title" (settings final) = get "title" s ++ "-dev" /\
   get "executable" (settings final) = get "executable" s ++ "-dev") /\
  exists st1,
    debug_suffix f st = (Ok tt, st1) /\
    trace st1 = trace st /\
    (get "name" (settings st1) = get "name" s ++ "-dev" /\
     get "title" (settings st1) = get "title" s ++ "-dev" /\
     get "executable" (settings st1) = get "executable" s ++ "-dev") /\
    run = bind (prepare H pl f target) (fun prepared =>
            let '(pathOutput, executable, l) := prepared in
            bind (user_build H pl f target l) (fun _ =>
            bind (compile H pl f _settings executable l) (fun _ =>
            bind (release_phase H pl f target pathOutput executable l) (fun _ => ret 0))))
            st1 /\
    forall pathOutput executable l st',
      prepare H pl f target st1 = (Ok (pathOutput, executable, l), st') ->
      (executable = (get "executable" s ++ "-dev") ++ (if win pl then ".exe" else "") /\
       match pl with
       | Mac => packageName l = (get "name" s ++ "-dev") ++ ".app"
       | Linux =>
           packageName l
             = (get "executable" s ++ "-dev") ++ "_" ++ get "version" s ++ "-"
                 ++ get "revision" s ++ "_" ++ get "arch" s /\
           pathBin l
             = Path.join pl (Path.join pl (pathPackage l) "opt") (get "name" s ++ "-dev")
       | Win => packageName l = (get "executable" s ++ "-dev") ++ "-" ++ get "version" s
       end /\
       binaryPath pl l executable = Path.join pl (pathBin l) executable) /\
      run = bind (user_build H pl f target l) (fun _ =>
            bind (compile H pl f _settings executable l) (fun _ =>
            bind (release_phase H pl f target pathOutput executable l) (fun _ => ret 0)))
            st'.
Proof.
  intros Hd s run final.
  destruct (debug_suffix_on f st Hd) as (st1 & E1 & Htr & Hn & Ht & He & Hother).
  assert (Erun : run
                 = bind (prepare H pl f target) (fun prepared =>
                     let '(pathOutput, executable, l) := prepared in
                     bind (user_build H pl f target l) (fun _ =>
                     bind (compile H pl f _settings executable l) (fun _ =>
                     bind (release_phase H pl f target pathOutput executable l)
                       (fun _ => ret 0)))) st1).
  { subst run. unfold pipeline. unfold bind at 1. rewrite E1. reflexivity. }
  split.
  - assert (Hfinal : forall k, stable_key k ->
                get k (settings final) = get k (settings st1)).
    { intros k Hk. subst final. rewrite Erun.
      apply (preserves_after_debug H pl k f target _settings Hk). }
    rewrite (Hfinal _ stable_name), (Hfinal _ stable_title),
      (Hfinal _ stable_executable).
    auto.
  - exists st1. split; [exact E1|]. split; [exact Htr|]. split; [auto|].
    split; [exact Erun|].
    intros po ex l st' E. split.
    + apply prepare_layout in E as (_ & Hex & Hl & _).
      rewrite He in Hex. split; [exact Hex|]. split; [|reflexivity].
      destruct pl.
      * destruct Hl as (Hp & _). rewrite Hn in Hp. exact Hp.
      * destruct Hl as (Hp & _ & Hb & _). rewrite He in Hp. rewrite Hn in Hb.
        rewrite !Hother in Hp by discriminate. split; assumption.
      * destruct Hl as (Hp & _). rewrite He in Hp.
        rewrite !Hother in Hp by discriminate. exact Hp.
    + rewrite Erun. unfold bind at 1. rewrite E. reflexivity.
Qed.

Lemma debug_suffix_applied_once_witness :
  get "name"
    (settings (snd (pipeline (quiet_host scenario_settings) Linux initial_flags "proj" ""
                      (state_with scenario_settings)))) = "foo-dev" /\
  existsb (fun e => match e with
                    | Exec cmd =>
                        Str.found
                          " -o proj/dist/foo-dev_1.0-1_amd64/opt/foo-dev/foo-dev -DDEBUG=1"
                          cmd
                    | _ => false
                    end)
    (trace (snd (pipeline (quiet_host scenario_settings) Linux initial_flags "proj" ""
                   (state_with scenario_settings)))) = true.
Proof.
  split.
  - apply (debug_suffix_applied_once (quiet_host scenario_settings) Linux initial_flags
             "proj" "" (state_with scenario_settings)).
    reflexivity.
  - vm_compute. reflexivity.
Defined.

(** *** The compile step *)

Lemma app_cons_not_nil {A} (l r : list A) (x : A) : l <> (l ++ x :: r)%list.
Proof.
  intros E. apply (f_equal (@length A)) in E.
  rewrite List.length_app in E. simpl in E. lia.
Qed.

(** C6.  The compile command is run unless "only run user build" ([-o])
    was requested and a file exists at the binary path: in that case the
    step does nothing, in every other case its first action is to execute
    the compile command.  Nothing but the flag and the existence test
    enters the decision. *)
Theorem compile_skipped_iff_binary_exists
    (H : Host) (pl : Platform) (f : Flags) (_settings : string) (executable : path)
    (l : Locals) (st : State) :
  let present := exists_ H (trace st) (binaryPath pl l executable) in
  let cmd :=
    compileCommand H pl f (encodeURIComponent H _settings) executable l
      (getEnv H (trace st) "CXX")
      (get (if flagDebugMode f then "debug_flags" else "flags") (settings st)) in
  let res := compile H pl f _settings executable l st in
  ((flagRunUserBuild f = true /\ present = true) ->
     fst res = Ok tt /\ trace (snd res) = trace st) /\
  (~ (flagRunUserBuild f = true /\ present = true) ->
     exists rest, trace (snd res) = (trace st ++ Exec cmd :: rest)%list) /\
  ((exists rest, trace (snd res) = (trace st ++ Exec cmd :: rest)%list) <->
   ~ (flagRunUserBuild f = true /\ present = true)).
Proof.
  intros present cmd res.
  assert (Hskip : (flagRunUserBuild f = true /\ present = true) ->
                  fst res = Ok tt /\ trace (snd res) = trace st).
  { intros [Hf Hp]. subst res present. unfold compile, bind, settings_at, getEnv_, ask, when.
    simpl. rewrite Hf, Hp. simpl. split; reflexivity. }
  assert (Hrun : ~ (flagRunUserBuild f = true /\ present = true) ->
                 exists rest, trace (snd res) = (trace st ++ Exec cmd :: rest)%list).
  { intros Hn. subst res. unfold compile, bind, settings_at, getEnv_, ask, when.
    simpl. fold present.
    assert (Hc : negb (flagRunUserBuild f) || negb present = true).
    { destruct (flagRunUserBuild f), present; try reflexivity. exfalso; apply Hn; auto. }
    rewrite Hc. unfold exec_. simpl. fold cmd.
    destruct (exitCode _ =? 0); simpl; eexists; rewrite <- List.app_assoc; reflexivity. }
  split; [exact Hskip|]. split; [exact Hrun|]. split; [|exact Hrun].
  intros [rest Hrest] Hboth. destruct (Hskip Hboth) as [_ Ht].
  rewrite Ht in Hrest. exact (app_cons_not_nil _ _ _ Hrest).
Qed.

Lemma compile_skipped_iff_binary_exists_witness :
  fst (compile (host_with_files scenario_settings) Linux previous_build_flags EmptyString
         "foo-dev" scenario_locals (state_with scenario_settings)) = Ok tt /\
  trace (snd (compile (host_with_files scenario_settings) Linux previous_build_flags
                EmptyString "foo-dev" scenario_locals (state_with scenario_settings))) = [].
Proof.
  apply (compile_skipped_iff_binary_exists (host_with_files scenario_settings) Linux
           previous_build_flags EmptyString "foo-dev" scenario_locals
           (state_with scenario_settings)).
  split; reflexivity.
Defined.

(** *** The user's build step *)

(** C4 (as amended).  The working directory is changed to the project
    directory, the build command is logged and run; when it exits with 0
    the original working directory is restored before the step ends, and
    when it exits nonzero the run is aborted with that exit code, the
    working directory not being restored. *)
Theorem user_build_restores_cwd_on_success
    (H : Host) (pl : Platform) (f : Flags) (target : path) (l : Locals) (st : State) :
  let oldCwd := current_path H (trace st) in
  let cmd := buildCommand H f l (get "build" (settings st)) in
  let t1 := (trace st ++ [Fs (SetCurrentPath (Path.join pl oldCwd target)); Log cmd])%list in
  let r := exec H t1 cmd in
  let t2 := (t1 ++ [Exec cmd; Log (output r); Log "ran user build command"])%list in
  let res := user_build H pl f target l st in
  throws H (trace st) (SetCurrentPath (Path.join pl oldCwd target)) = false ->
  (exitCode r = 0 -> throws H t2 (SetCurrentPath oldCwd) = false ->
     fst res = Ok tt /\ trace (snd res) = (t2 ++ [Fs (SetCurrentPath oldCwd)])%list) /\
  (exitCode r <> 0 ->
     fst res = Exit (exitCode r) /\
     trace (snd res) = (t1 ++ [Exec cmd; Log "Unable to run user build command"])%list).
Proof.
  intros oldCwd cmd t1 r t2 res Hcd.
  assert (Hrun : res =
    bind (when (negb (exitCode r =? 0))
            (bind (log "Unable to run user build command") (fun _ => exit (exitCode r))))
         (fun _ => bind (log (output r)) (fun _ =>
            bind (log "ran user build command") (fun _ => fs H (SetCurrentPath oldCwd))))
         {| settings := touch "build" (settings st); trace := (t1 ++ [Exec cmd])%list |}).
  { subst res. unfold user_build. unfold bind at 1. unfold ask.
    unfold bind at 1. unfold fs at 1. fold oldCwd. rewrite Hcd.
    unfold emit at 1. unfold bind at 1. unfold settings_at. simpl.
    unfold bind at 1. unfold log at 1, emit at 1. simpl.
    unfold bind at 1. unfold exec_ at 1. simpl.
    subst r t1 cmd. unfold buildCommand.
    rewrite <- !List.app_assoc. simpl. reflexivity. }
  split.
  - intros Hz Hback. rewrite Hrun. unfold bind, when. rewrite Hz. simpl.
    unfold fs. simpl.
    assert (Ht : ((((t1 ++ [Exec cmd]) ++ [Log (output r)])
                   ++ [Log "ran user build command"])%list = t2))
      by (subst t2; rewrite <- !List.app_assoc; reflexivity).
    rewrite Ht, Hback. simpl. split; reflexivity.
  - intros Hnz. rewrite Hrun. unfold bind, when.
    destruct (exitCode r =? 0) eqn:Ez; [apply Z.eqb_eq in Ez; contradiction|].
    simpl. rewrite <- !List.app_assoc. split; reflexivity.
Qed.

Lemma user_build_restores_cwd_on_success_witness :
  trace (snd (user_build (quiet_host scenario_settings) Linux release_flags "proj"
                scenario_locals (state_with scenario_settings)))
  = [Fs (SetCurrentPath "/work/proj"); Log "true dist/foo_1.0-1_amd64/opt/foo --debug=0";
     Exec "true dist/foo_1.0-1_amd64/opt/foo --debug=0"; Log EmptyString;
     Log "ran user build command"; Fs (SetCurrentPath "/work")].
Proof.
  apply (user_build_restores_cwd_on_success (quiet_host scenario_settings) Linux
           release_flags "proj" scenario_locals (state_with scenario_settings));
    reflexivity.
Defined.

(** C4 (as stated) fails: when the build command exits with 2 the run is
    aborted with exit code 2 and the original working directory /work is
    never restored. *)
Lemma cwd_not_restored_on_failure :
  user_build (failing_host scenario_settings) Linux release_flags "proj"
    scenario_locals (state_with scenario_settings)
  = (Exit 2,
     {| settings := settings (state_with scenario_settings);
        trace := [Fs (SetCurrentPath "/work/proj");
                  Log "true dist/foo_1.0-1_amd64/opt/foo --debug=0";
                  Exec "true dist/foo_1.0-1_amd64/opt/foo --debug=0";
                  Log "Unable to run user build command"] |}) /\
  ~ In (Fs (SetCurrentPath "/work"))
      (trace (snd (user_build (failing_host scenario_settings) Linux release_flags "proj"
                     scenario_locals (state_with scenario_settings)))).
Proof.
  split; [vm_compute; reflexivity|].
  vm_compute. intros [E|[E|[E|[E|[]]]]]; discriminate.
Qed.

(** *** Settings validation *)

Lemma check_required_spec (keys : list string) (st : State) :
  check_required keys st
  = match first_missing keys (settings st) with
    | Some k => (Exit 1, add_event st [Log ("'" ++ k ++ "' key/value is required")])
    | None => (Ok tt, st)
    end.
Proof.
  induction keys as [|k keys IH]; [reflexivity|].
  simpl. unfold bind, settings_count. destruct (settings st !! k); simpl.
  - exact IH.
  - reflexivity.
Qed.

(** what [validate] does, for every settings map *)
Lemma validate_spec (st : State) :
  validate st
  = match settings st !! "_cmd" with
    | None =>
        (Exit 1,
         add_event st
           [Log "at least one of 'win_cmd', 'mac_cmd', 'linux_cmd' key/value is required"])
    | Some _ =>
        match first_missing required (settings st) with
        | Some k => (Exit 1, add_event st [Log ("'" ++ k ++ "' key/value is required")])
        | None => (Ok tt, st)
        end
    end.
Proof.
  unfold validate. unfold bind at 1. unfold settings_count at 1.
  destruct (settings st !! "_cmd").
  - exact (check_required_spec required st).
  - reflexivity.
Qed.

(** C9 (the code at the failing input).  With every mandatory key and the
    per-platform key [linux_cmd] present, the run still stops in the
    validation with exit code 1 and the message about the build-command
    keys: the key looked up is "_cmd". *)
Theorem validation_looks_up_underscore_cmd :
  linux_cmd_settings !! "linux_cmd" = Some "true" /\
  first_missing required linux_cmd_settings = None /\
  main (quiet_host linux_cmd_settings) Linux ["opkit"; "proj"] initial_state
  = (Exit 1,
     {| settings := linux_cmd_settings;
        trace :=
          [Log "at least one of 'win_cmd', 'mac_cmd', 'linux_cmd' key/value is required"]
     |}).
Proof. repeat split; vm_compute; reflexivity. Qed.

(** *** The regular expressions *)

Lemma app_single_not_empty (acc : string) (c : ascii) : acc ++ String c "" <> "".
Proof. destruct acc; [|rewrite app_cons]; discriminate. Qed.

(** a match of a pattern with the group captures at least one character *)
Lemma match_here_capture (items : list Regex.item) :
  In Regex.GroupLazyPlusAny items ->
  forall s r, Regex.match_here items s = Some r -> exists cap, r = Some cap /\ cap <> "".
Proof.
  induction items as [|it rest IH]; intros Hin; [destruct Hin|].
  destruct it as [c|c|].
  - destruct Hin as [Hin|Hin]; [discriminate|]. specialize (IH Hin).
    intros s r. simpl. destruct s as [|c' s]; [discriminate|].
    destruct (Ascii.eqb c c'); [apply IH | discriminate].
  - destruct Hin as [Hin|Hin]; [discriminate|]. specialize (IH Hin).
    intros s. induction s as [|c' s IHs]; intros r; simpl in *.
    + apply IH.
    + destruct (Ascii.eqb c c'); [|apply IH].
      match goal with |- context [match ?x with Some _ => _ | None => _ end] =>
        destruct x as [r0|] eqn:E end.
      * intros [= <-]. apply IHs. reflexivity.
      * apply IH.
  - clear IH Hin. intros s r. simpl.
    match goal with
    | |- ?plus EmptyString s = _ -> _ =>
        enough (Hacc : forall acc, plus acc s = Some r ->
                                   exists cap, r = Some cap /\ cap <> "")
          by apply Hacc
    end.
    induction s as [|c' s IHs]; intros acc; [discriminate|].
    destruct (Regex.is_line_terminator c'); [discriminate|].
    destruct (Regex.match_here rest s).
    + intros [= <-]. eexists. split; [reflexivity|]. apply app_single_not_empty.
    + apply IHs.
Qed.

Lemma regex_search_capture (items : list Regex.item) :
  In Regex.GroupLazyPlusAny items ->
  forall s r, Regex.regex_search items s = Some r -> exists cap, r = Some cap /\ cap <> "".
Proof.
  intros Hin s. induction s as [|c s IH]; intros r; simpl.
  - destruct (Regex.match_here items "") eqn:E; [|discriminate].
    intros [= <-]. exact (match_here_capture items Hin _ _ E).
  - destruct (Regex.match_here items (String c s)) eqn:E; [|apply IH].
    intros [= <-]. exact (match_here_capture items Hin _ _ E).
Qed.

(** the request identifier is empty exactly when the pattern has no match *)
Lemma request_uuid_empty_iff (out : string) :
  Regex.capture1 re_request_uuid out = "" <->
  Regex.regex_search re_request_uuid out = None.
Proof.
  unfold Regex.capture1. split.
  - destruct (Regex.regex_search re_request_uuid out) as [r|] eqn:E; [|reflexivity].
    destruct (regex_search_capture re_request_uuid) with (s := out) (r := r)
      as (cap & -> & Hne); [|exact E|].
    + vm_compute. tauto.
    + intros Hc. contradiction.
  - intros ->. reflexivity.
Qed.

(** *** Notarization *)

Lemma sleeps_app (a b : list Event) : sleeps (a ++ b)%list = (sleeps a + sleeps b)%nat.
Proof.
  induction a as [|e a IH]; [reflexivity|]. destruct e; simpl; rewrite IH; reflexivity.
Qed.

Lemma classify_status_occurs (status : string) :
  (classify_status status = Polling <-> Str.occurs "in progress" status) /\
  (classify_status status = Rejected <->
     ~ Str.occurs "in progress" status /\ Str.occurs "invalid" status) /\
  (classify_status status = Success <->
     ~ Str.occurs "in progress" status /\ ~ Str.occurs "invalid" status /\
     Str.occurs "success" status) /\
  (classify_status status = Failed <->
     ~ Str.occurs "in progress" status /\ ~ Str.occurs "invalid" status /\
     ~ Str.occurs "success" status).
Proof.
  unfold classify_status.
  rewrite <- !not_found_occurs, <- !found_occurs.
  destruct (Str.found "in progress" status), (Str.found "invalid" status),
    (Str.found "success" status);
    repeat split; try discriminate; try reflexivity; intuition discriminate.
Qed.

Lemma poll_body_eq
    (H : Host) (uuid username password : string) (requests : Z) (st : State) :
  requests <= 1024 ->
  let query := notarizeStatusCommand uuid username password in
  let history := notarizeHistoryCommand username password in
  let t1 := (trace st ++ [Sleep 6144])%list in
  let r := exec H t1 query in
  let status := Regex.capture1 re_status (output r) in
  let t2 := (t1 ++ [Exec query])%list in
  poll_body H uuid username password requests st
  = match classify_status status with
    | Polling => (Ok Continue, add_event st [Sleep 6144; Exec query; Log "Checking for updates from apple"])
    | Rejected =>
        let t3 := (t2 ++ [Log "apple rejected the request for notarization";
                          Log (output r)])%list in
        let h := exec H t3 history in
        if exitCode h =? 0
        then (Exit 1,
              add_event st [Sleep 6144; Exec query;
                            Log "apple rejected the request for notarization";
                            Log (output r); Exec history; Log (output h)])
        else (Exit (exitCode h),
              add_event st [Sleep 6144; Exec query;
                            Log "apple rejected the request for notarization";
                            Log (output r); Exec history;
                            Log "Unable to get notarization history"])
    | Success => (Ok Break, add_event st [Sleep 6144; Exec query; Log "successfully notarized"])
    | Failed => (Ok Break, add_event st [Sleep 6144; Exec query; Log "apple was unable to notarize"])
    end.
Proof.
  intros Hreq. cbv zeta.
  assert (Hle : (1024 <? requests) = false) by (apply Z.ltb_ge; exact Hreq).
  unfold poll_body, classify_status, add_event. change (1024 * 6) with 6144.
  unfold bind, when. rewrite Hle. unfold ret, log, emit, exec_, exit. cbn [trace settings].
  destruct (Str.found "in progress" _).
  - cbn [trace settings]. rewrite <- !List.app_assoc. reflexivity.
  - destruct (Str.found "invalid" _).
    + cbn [trace settings]. rewrite <- !List.app_assoc; cbn [List.app].
      destruct (exitCode _ =? 0) eqn:Eh; cbn [negb trace settings];
        rewrite <- ?List.app_assoc; cbn [List.app]; reflexivity.
    + cbn [trace settings].
      destruct (Str.found "success" _); cbn [negb trace settings];
        rewrite <- !List.app_assoc; reflexivity.
Qed.

(** C2.  One pass through the poll loop classifies the status phrase
    extracted from the output of the status command four ways, the cases
    being tried in this order: a phrase containing "in progress" keeps the
    loop polling; one containing "invalid" is a rejection (the rejection
    and the last status are logged, the history command is run, its output
    is logged when it succeeded, and the run is aborted with a nonzero exit
    code); one containing "success" ends the loop as success; every other
    phrase, the empty phrase of an output without a status line included,
    ends the loop with the failure report and never continues polling. *)
Theorem poll_body_classifies_status
    (H : Host) (uuid username password : string) (requests : Z) (st : State) :
  requests <= 1024 ->
  let query := notarizeStatusCommand uuid username password in
  let history := notarizeHistoryCommand username password in
  let t1 := (trace st ++ [Sleep 6144])%list in
  let r := exec H t1 query in
  let status := Regex.capture1 re_status (output r) in
  let t2 := (t1 ++ [Exec query])%list in
  let res := poll_body H uuid username password requests st in
  match classify_status status with
  | Polling =>
      res = (Ok Continue,
             add_event st [Sleep 6144; Exec query; Log "Checking for updates from apple"])
  | Rejected =>
      let t3 := (t2 ++ [Log "apple rejected the request for notarization";
                        Log (output r)])%list in
      let h := exec H t3 history in
      (exists code, fst res = Exit code /\ code <> 0) /\
      (exitCode h = 0 ->
         res = (Exit 1,
                add_event st [Sleep 6144; Exec query;
                              Log "apple rejected the request for notarization";
                              Log (output r); Exec history; Log (output h)])) /\
      (exitCode h <> 0 ->
         res = (Exit (exitCode h),
                add_event st [Sleep 6144; Exec query;
                              Log "apple rejected the request for notarization";
                              Log (output r); Exec history;
                              Log "Unable to get notarization history"]))
  | Success =>
      res = (Ok Break, add_event st [Sleep 6144; Exec query; Log "successfully notarized"])
  | Failed =>
      res = (Ok Break,
             add_event st [Sleep 6144; Exec query; Log "apple was unable to notarize"])
  end /\
  (classify_status status = Polling <-> Str.occurs "in progress" status) /\
  (classify_status status = Rejected <->
     ~ Str.occurs "in progress" status /\ Str.occurs "invalid" status) /\
  (classify_status status = Success <->
     ~ Str.occurs "in progress" status /\ ~ Str.occurs "invalid" status /\
     Str.occurs "success" status) /\
  (classify_status status = Failed <->
     ~ Str.occurs "in progress" status /\ ~ Str.occurs "invalid" status /\
     ~ Str.occurs "success" status) /\
  (Regex.regex_search re_status (output r) = None -> classify_status status = Failed).
Proof.
  intros Hreq query history t1 r status t2 res.
  split; [|split; [|split; [|split; [|split]]]];
    try apply classify_status_occurs.
  - subst res. rewrite poll_body_eq by exact Hreq. cbv zeta.
    fold query history t1 r status t2.
    destruct (classify_status status); try reflexivity.
    destruct (exitCode _ =? 0) eqn:Eh.
    + apply Z.eqb_eq in Eh. split; [exists 1; split; [reflexivity|discriminate]|].
      split; [reflexivity | intros Hn; contradiction].
    + apply Z.eqb_neq in Eh. split; [eexists; split; [reflexivity|exact Eh]|].
      split; [intros Hz; contradiction | reflexivity].
  - intros Hnone. subst status. unfold Regex.capture1. rewrite Hnone. reflexivity.
Qed.

Lemma poll_body_classifies_status_witness :
  poll_body (quiet_host scenario_settings) "1234-ABCD" "me" "secret" 1 initial_state
  = (Ok Break,
     add_event initial_state
       [Sleep 6144; Exec "xcrun altool --notarization-info 1234-ABCD -u me -p secret";
        Log "apple was unable to notarize"]).
Proof.
  assert (Hle : 1 <= 1024) by lia.
  exact (proj1 (poll_body_classifies_status (quiet_host scenario_settings)
                  "1234-ABCD" "me" "secret" 1 initial_state Hle)).
Defined.

Lemma poll_body_timeout
    (H : Host) (uuid username password : string) (requests : Z) (st : State) :
  1024 < requests ->
  poll_body H uuid username password requests st = (Exit 1, add_event st [timeout_report]).
Proof.
  intros Hgt. apply Z.ltb_lt in Hgt.
  unfold poll_body. unfold bind at 1. unfold when. rewrite Hgt. reflexivity.
Qed.

Lemma sleeps_rounds (n : nat) (query : string) : sleeps (rounds n query) = n.
Proof. induction n as [|n IH]; [reflexivity|]. simpl. rewrite IH. reflexivity. Qed.

Lemma queries_app (q : string) (a b : list Event) :
  queries q (a ++ b)%list = (queries q a + queries q b)%nat.
Proof.
  induction a as [|e a IH]; [reflexivity|]. destruct e; simpl; rewrite IH; lia.
Qed.

Lemma queries_rounds (n : nat) (query : string) : queries query (rounds n query) = n.
Proof.
  induction n as [|n IH]; [reflexivity|]. simpl. rewrite String.eqb_refl, IH. reflexivity.
Qed.

(** the history command is not a status query *)
Lemma history_is_no_query (uuid username password : string) :
  String.eqb (notarizeHistoryCommand username password)
    (notarizeStatusCommand uuid username password) = false.
Proof.
  apply String.eqb_neq. intros E.
  apply (f_equal (Str.starts_with "xcrun altool --notarization-i")) in E.
  vm_compute in E. discriminate.
Qed.

Section PollLoop.

Variable H : Host.
Variables uuid username password : string.

Local Abbreviation query := (notarizeStatusCommand uuid username password).

(** while every status query answers "in progress", [n] more rounds are
    made before the ceiling is reached *)
Lemma poll_in_progress :
  Str.empty uuid = false ->
  (forall h, Str.found "in progress"
               (Regex.capture1 re_status (output (exec H h query))) = true) ->
  forall (n fuel : nat) (requests : Z) (st : State),
    requests = 1024 - Z.of_nat n -> (n < fuel)%nat ->
    poll H fuel uuid username password requests st
    = (Exit 1, add_event st (rounds n query ++ [timeout_report])).
Proof.
  intros Hne Hprog. induction n as [|n IH]; intros fuel requests st Hreq Hfuel.
  - destruct fuel as [|fuel]; [lia|]. simpl. rewrite Hne.
    unfold bind. rewrite poll_body_timeout by lia. reflexivity.
  - destruct fuel as [|fuel]; [lia|]. simpl. rewrite Hne.
    unfold bind. rewrite poll_body_eq by lia. cbv zeta.
    unfold classify_status. fold query. rewrite Hprog.
    rewrite (IH fuel) by lia. rewrite add_event_app.
    cbn [rounds round List.app]. reflexivity.
Qed.

(** whatever the service answers, the loop ends within its allowance of
    passes and waits and queries at most once per remaining request *)
Lemma poll_bounded :
  forall (fuel : nat) (requests : Z) (st : State),
    0 <= requests <= 1024 -> 1025 - requests <= Z.of_nat fuel ->
    fst (poll H fuel uuid username password requests st) <> OutOfFuel /\
    exists new,
      snd (poll H fuel uuid username password requests st) = add_event st new /\
      Z.of_nat (sleeps new) <= 1024 - requests /\
      Z.of_nat (queries query new) <= 1024 - requests.
Proof.
  pose proof (history_is_no_query uuid username password) as Hhist.
  induction fuel as [|fuel IH]; intros requests st Hreq Hfuel; [lia|].
  simpl. destruct (Str.empty uuid).
  { split; [discriminate|]. exists []. rewrite add_event_nil.
    split; [reflexivity|simpl; lia]. }
  unfold bind. destruct (Z.eq_dec requests 1024) as [->|Hlt].
  { rewrite poll_body_timeout by lia. split; [discriminate|].
    eexists. split; [reflexivity|simpl; lia]. }
  rewrite poll_body_eq by lia. cbv zeta.
  destruct (classify_status _).
  - destruct (IH (requests + 1) (add_event st (round query))) as (Hf & new & Hs & Hb & Hq);
      [lia | lia |].
    split; [exact Hf|]. exists (round query ++ new)%list.
    unfold round in *. rewrite Hs, add_event_app. split; [reflexivity|].
    rewrite sleeps_app, queries_app. cbn [queries sleeps]. rewrite String.eqb_refl. lia.
  - destruct (exitCode _ =? 0); (split; [discriminate|]);
      eexists; (split; [reflexivity|]); cbn [queries sleeps];
      rewrite String.eqb_refl, Hhist; lia.
  - split; [discriminate|]. eexists. split; [reflexivity|].
    cbn [queries sleeps]. rewrite String.eqb_refl. lia.
  - split; [discriminate|]. eexists. split; [reflexivity|].
    cbn [queries sleeps]. rewrite String.eqb_refl. lia.
Qed.

End PollLoop.

(** C3.  When the request identifier is not empty and every status query
    answers with a status containing "in progress", the poll loop makes
    exactly 1024 rounds (wait, status query, "Checking for updates"), then
    reports that the service did not respond and aborts the run with exit
    code 1.  Whatever the service answers, the loop never waits or queries
    the status more than 1024 times, and the model's allowance of passes is
    never exhausted. *)
Theorem poll_loop_ceiling
    (H : Host) (uuid username password : string) (st : State) :
  let query := notarizeStatusCommand uuid username password in
  let res := poll H poll_fuel uuid username password 0 st in
  (uuid <> EmptyString ->
   (forall h, Str.occurs "in progress"
                (Regex.capture1 re_status (output (exec H h query)))) ->
   res = (Exit 1, add_event st (rounds 1024 query ++ [timeout_report])) /\
   queries query (rounds 1024 query ++ [timeout_report]) = 1024%nat /\
   sleeps (rounds 1024 query ++ [timeout_report]) = 1024%nat) /\
  fst res <> OutOfFuel /\
  exists new,
    snd res = add_event st new /\ (queries query new <= 1024)%nat /\
    (sleeps new <= 1024)%nat.
Proof.
  intros query res. split; [|split].
  - intros Hne Hprog. split; [|split].
    + subst res. apply (poll_in_progress H uuid username password).
      * destruct uuid; [contradiction|reflexivity].
      * intros h. apply found_occurs. apply Hprog.
      * reflexivity.
      * unfold poll_fuel. lia.
    + rewrite queries_app, queries_rounds. reflexivity.
    + rewrite sleeps_app, sleeps_rounds. reflexivity.
  - apply (poll_bounded H uuid username password); unfold poll_fuel; lia.
  - destruct (poll_bounded H uuid username password poll_fuel 0 st)
      as (_ & new & Hs & Hb & Hq); [lia | unfold poll_fuel; lia |].
    exists new. subst query. split; [exact Hs | split; lia].
Qed.

Lemma poll_loop_ceiling_witness :
  fst (poll (notary_host in_progress_output) poll_fuel "1234-ABCD" "me" "secret" 0
         initial_state) = Exit 1 /\
  queries (notarizeStatusCommand "1234-ABCD" "me" "secret")
    (trace (snd (poll (notary_host in_progress_output) poll_fuel "1234-ABCD" "me"
                   "secret" 0 initial_state))) = 1024%nat.
Proof.
  destruct (proj1 (poll_loop_ceiling (notary_host in_progress_output) "1234-ABCD" "me"
                     "secret" initial_state)) as (Hres & Hq & _).
  - discriminate.
  - intros h. apply found_occurs. reflexivity.
  - rewrite Hres. split; [reflexivity|]. exact Hq.
Defined.

(** the notarization step as a whole: an accepted submission that is never
    seen to leave "in progress" ends the run with exit code 1 *)
Lemma notarize_times_out (H : Host) (pathToArchive : path) (st : State) :
  let username := getEnv H (trace st) "APPLE_ID" in
  let password := getEnv H (trace st) "APPLE_ID_PASSWORD" in
  let cmd :=
    notarizeCommand H username password (get "bundle_identifier" (settings st))
      pathToArchive in
  let r := exec H (trace st) cmd in
  exitCode r = 0 ->
  Regex.regex_search re_request_uuid (output r) <> None ->
  (forall h q, Str.found "in progress"
                 (Regex.capture1 re_status (output (exec H h q))) = true) ->
  fst (notarize H pathToArchive st) = Exit 1.
Proof.
  intros username password cmd r Hz Hmatch Hprog.
  unfold notarize, bind, getEnv_, ask, settings_at, exec_. cbn [trace settings].
  fold username password cmd r. rewrite Hz. cbn [Z.eqb negb when ret].
  unfold log at 1. unfold emit. cbn [trace settings].
  assert (Hne : Str.empty (Regex.capture1 re_request_uuid (output r)) = false).
  { destruct (Regex.capture1 re_request_uuid (output r)) eqn:E; [|reflexivity].
    apply request_uuid_empty_iff in E. contradiction. }
  rewrite (poll_in_progress H _ username password Hne (fun h => Hprog h _) 1024 poll_fuel 0)
    by (unfold poll_fuel; lia).
  reflexivity.
Qed.

Lemma notarize_no_uuid (H : Host) (pathToArchive : path) (st : State) :
  let username := getEnv H (trace st) "APPLE_ID" in
  let password := getEnv H (trace st) "APPLE_ID_PASSWORD" in
  let cmd :=
    notarizeCommand H username password (get "bundle_identifier" (settings st))
      pathToArchive in
  let r := exec H (trace st) cmd in
  exitCode r = 0 ->
  Regex.regex_search re_request_uuid (output r) = None ->
  notarize H pathToArchive st
  = (Ok tt,
     {| settings := touch "bundle_identifier" (settings st);
        trace := (trace st ++ [Exec cmd; Log "polling for notarization";
                               Log "finished notarization"])%list |}).
Proof.
  intros username password cmd r Hz Hnone.
  unfold notarize, bind, getEnv_, ask, settings_at, exec_. cbn [trace settings].
  fold username password cmd r. rewrite Hz. cbn [Z.eqb negb when ret].
  unfold Regex.capture1. rewrite Hnone.
  unfold log, emit. cbn [trace settings poll poll_fuel Str.empty ret].
  rewrite <- !List.app_assoc. reflexivity.
Qed.

(** C1 (as amended).  When the submit command exits with 0 and its output
    has no match for the RequestUUID pattern, no status query is made and
    nothing is retried: the step logs "polling for notarization" and
    "finished notarization" and completes, and the pipeline goes on (with
    run-after-build requested, the binary is launched next). *)
Theorem notarize_without_request_id
    (H : Host) (f : Flags) (target pathOutput executable : path) (l : Locals)
    (st : State) :
  let username := getEnv H (trace st) "APPLE_ID" in
  let password := getEnv H (trace st) "APPLE_ID_PASSWORD" in
  let cmd archive :=
    notarizeCommand H username password (get "bundle_identifier" (settings st)) archive in
  (forall archive,
     exitCode (exec H (trace st) (cmd archive)) = 0 ->
     Regex.regex_search re_request_uuid (output (exec H (trace st) (cmd archive))) = None ->
     fst (notarize H archive st) = Ok tt /\
     trace (snd (notarize H archive st))
     = (trace st ++ [Exec (cmd archive); Log "polling for notarization";
                     Log "finished notarization"])%list) /\
  (flagShouldNotarize f = true -> flagShouldRun f = true ->
   flagShouldPackage f = false -> flagCodeSign f = false ->
   exitCode (exec H (trace st) (cmd EmptyString)) = 0 ->
   Regex.regex_search re_request_uuid (output (exec H (trace st) (cmd EmptyString))) = None ->
   fst (release_phase H Mac f target pathOutput executable l st) = Ok tt /\
   trace (snd (release_phase H Mac f target pathOutput executable l st))
   = (trace st ++ [Exec (cmd EmptyString); Log "polling for notarization";
                   Log "finished notarization";
                   System (pathToString H
                             (Path.join Mac (pathBin l)
                                (get "executable" (settings st))))])%list).
Proof.
  intros username password cmd. split.
  - intros archive Hz Hnone.
    rewrite (notarize_no_uuid H archive st Hz Hnone). split; reflexivity.
  - intros Hn Hr Hp Hc Hz Hnone.
    assert (E : release_phase H Mac f target pathOutput executable l st
                = (Ok tt,
                   {| settings := touch "executable" (touch "bundle_identifier" (settings st));
                      trace :=
                        (trace st ++ [Exec (cmd EmptyString);
                                      Log "polling for notarization";
                                      Log "finished notarization";
                                      System (pathToString H
                                                (Path.join Mac (pathBin l)
                                                   (get "executable" (settings st))))])%list
                   |})).
    { unfold release_phase. rewrite Hn, Hr, Hp, Hc. cbn [andb mac linux win when].
      unfold bind at 1. unfold ret at 1.
      unfold bind at 1. unfold ret at 1.
      unfold bind at 1. unfold ret at 1.
      unfold bind at 1. rewrite (notarize_no_uuid H EmptyString st Hz Hnone).
      unfold bind at 1. unfold ret at 1.
      unfold bind at 1. unfold ret at 1.
      unfold run_step, bind, settings_at, system_, ret. cbn [trace settings fst snd win].
      rewrite get_touch, <- !List.app_assoc. reflexivity. }
    rewrite E. split; reflexivity.
Qed.

Lemma notarize_without_request_id_witness :
  fst (notarize (notary_host no_uuid_output) EmptyString (state_with scenario_settings))
  = Ok tt.
Proof.
  apply (proj1 (notarize_without_request_id (notary_host no_uuid_output)
                  notarize_and_run_flags "proj" "dist" "foo-dev" scenario_locals
                  (state_with scenario_settings)) EmptyString);
    reflexivity.
Defined.

(** C1 (as stated) fails: on macOS with [-mn -r], a submit command that
    exits with 0 and prints no request identifier does not abort the run;
    no status query is made, the notarization step finishes, the binary is
    launched and [main] returns 0. *)
Lemma run_continues_without_request_id :
  Regex.regex_search re_request_uuid no_uuid_output = None /\
  fst (main (notary_host no_uuid_output) Mac ["opkit"; "proj"; "-mn"; "-r"] initial_state)
  = Ok 0 /\
  sleeps (trace (snd (main (notary_host no_uuid_output) Mac
                        ["opkit"; "proj"; "-mn"; "-r"] initial_state))) = 0%nat /\
  exists before submit,
    trace (snd (main (notary_host no_uuid_output) Mac ["opkit"; "proj"; "-mn"; "-r"]
                  initial_state))
    = (before ++ [Exec submit; Log "polling for notarization";
                  Log "finished notarization";
                  System "proj/dist/foo-dev.app/Contents/MacOS/foo-dev"])%list.
Proof.
  split; [vm_compute; reflexivity|].
  split; [vm_compute; reflexivity|].
  split; [vm_compute; reflexivity|].
  eexists (_ :: _ :: _ :: _ :: _ :: _ :: _ :: _ :: _ :: _ :: _ :: _ :: _ :: _ :: _ :: []), _.
  vm_compute. reflexivity.
Qed.

(** *** Further properties of the code *)

(** *** How a run ends *)
(** every event a computation adds to the history satisfies [P], however
    the computation ends *)
Definition emits (P : Event -> Prop) {A : Type} (m : M A) : Prop :=
  forall st, exists new,
    trace (snd (m st)) = (trace st ++ new)%list /\ Forall P new.

Section Ends.

Variable H : Host.
Variable pl : Platform.

Lemma ends_bind {A B} (m : M A) (c : A -> M B) :
  ends_soundly m -> (forall a, ends_soundly (c a)) -> ends_soundly (bind m c).
Proof.
  intros Hm Hc st. unfold bind. specialize (Hm st).
  destruct (m st) as [[a| | |] st1]; simpl in *; try exact Hm.
  apply Hc.
Qed.

Lemma ends_ok {A} (m : M A) : (forall st, exists a st', m st = (Ok a, st')) -> ends_soundly m.
Proof. intros Hm st. destruct (Hm st) as (a & st' & ->). exact I. Qed.

Lemma ends_exit {A} (c : Z) : c <> 0 -> ends_soundly (@exit A c).
Proof. intros Hc st. exact Hc. Qed.

Lemma ends_fs (op : FsOp) : ends_soundly (fs H op).
Proof. intros st. unfold fs. destruct (throws H (trace st) op); exact I. Qed.

Ltac ends_atom := apply ends_ok; intros ?; eexists _, _; reflexivity.

Ltac ends :=
  repeat first
    [ apply ends_bind; [|intros ?]
    | apply ends_fs
    | apply ends_exit;
      first [ discriminate
            | match goal with
              | Hc : negb (?c =? 0) = true |- ?c <> 0 =>
                  apply Z.eqb_neq, negb_true_iff, Hc
              end ]
    | assumption
    | match goal with
      | |- ends_soundly (when ?b _) => unfold when; destruct b eqn:?
      | |- ends_soundly (if ?b then _ else _) => destruct b eqn:?
      | |- ends_soundly (let _ := _ in _) => cbv zeta
      end
    | ends_atom ].

Lemma ends_validate : ends_soundly validate.
Proof. unfold validate, required, check_required. ends. Qed.

Lemma ends_debug_suffix f : ends_soundly (debug_suffix f).
Proof. unfold debug_suffix, settings_append. ends. Qed.

Lemma ends_prepare f target : ends_soundly (prepare H pl f target).
Proof. unfold prepare, mac_prep, linux_prep, win_prep, getCxxFlags. ends. Qed.

Lemma ends_user_build f target l : ends_soundly (user_build H pl f target l).
Proof. unfold user_build. ends. Qed.

Lemma ends_compile f s e l : ends_soundly (compile H pl f s e l).
Proof. unfold compile. ends. Qed.

Lemma ends_sign_paths paths : forall i ent l cmd, ends_soundly (sign_paths H pl i paths ent l cmd).
Proof. induction paths as [|p paths IH]; intros i ent l cmd; simpl; ends. apply IH. Qed.

Lemma ends_poll (fuel : nat) :
  forall uuid u p requests,
    0 <= requests <= 1024 -> 1025 - requests <= Z.of_nat fuel ->
    ends_soundly (poll H fuel uuid u p requests).
Proof.
  induction fuel as [|fuel IH]; intros uuid u p requests Hreq Hfuel; [lia|].
  intros st. simpl. destruct (Str.empty uuid); [exact I|].
  unfold bind. destruct (Z.eq_dec requests 1024) as [->|Hlt].
  { rewrite poll_body_timeout by lia. simpl. discriminate. }
  rewrite poll_body_eq by lia. cbv zeta.
  destruct (classify_status _); try exact I.
  - apply IH; lia.
  - destruct (exitCode _ =? 0) eqn:Eh; simpl; [discriminate|].
    apply Z.eqb_neq. exact Eh.
Qed.

Lemma ends_release_phase f target po e l : ends_soundly (release_phase H pl f target po e l).
Proof.
  unfold release_phase, linux_package, mac_sign_step, mac_package, notarize,
    win_package, win_sign, run_step.
  ends; first [apply ends_sign_paths | apply ends_poll; unfold poll_fuel; lia].
Qed.

Lemma ends_pipeline f target s : ends_soundly (pipeline H pl f target s).
Proof.
  unfold pipeline.
  apply ends_bind; [apply ends_debug_suffix|intros _].
  apply ends_bind; [apply ends_prepare|intros [[po e] l]].
  apply ends_bind; [apply ends_user_build|intros _].
  apply ends_bind; [apply ends_compile|intros _].
  apply ends_bind; [apply ends_release_phase|intros _].
  ends.
Qed.

End Ends.

Lemma main_run (H : Host) (pl : Platform) (argv : list string) (st : State) :
  (2 <= length argv)%nat ->
  existsb (Str.found "-h") argv = false ->
  let pre := if Str.empty (getEnv H (trace st) "CXX") then cxx_warning pl else [] in
  let target := List.nth 1 argv EmptyString in
  let text := readFile H (trace st ++ pre) (Path.join pl target "settings.config") in
  main H pl argv st
  = bind validate (fun _ => pipeline H pl (flags_of argv) target text)
      {| settings := parseConfig H text; trace := (trace st ++ pre)%list |}.
Proof.
  intros Hlen Hh pre target text. unfold main.
  assert (Hargc : (Z.of_nat (length argv) <? 2) = false) by (apply Z.ltb_ge; lia).
  rewrite Hargc. unfold bind at 1. unfold when at 1. unfold ret at 1.
  unfold bind at 1. unfold getEnv_, ask.
  assert (Hset : (if win pl then emit (SetEnv "CXX=clang++") else emit (SetEnv "CXX=/usr/bin/g++"))
                = emit (SetEnv (if win pl then "CXX=clang++" else "CXX=/usr/bin/g++")))
    by (destruct pl; reflexivity).
  rewrite Hset. subst text pre.
  destruct (Str.empty (getEnv H (trace st) "CXX")).
  - unfold bind at 1. unfold when at 1. unfold bind at 1. unfold log at 1. unfold emit at 1.
    unfold emit at 1. cbn [trace settings].
    unfold bind at 1. rewrite scan_args_no_help by exact Hh. rewrite flags_after_initial.
    unfold bind at 1. cbn [trace settings].
    unfold bind at 1. unfold settings_assign. cbn [trace settings].
    unfold cxx_warning. rewrite <- !List.app_assoc. reflexivity.
  - unfold bind at 1. unfold when at 1. unfold ret at 1.
    unfold bind at 1. rewrite scan_args_no_help by exact Hh. rewrite flags_after_initial.
    unfold bind at 1. cbn [trace settings].
    unfold bind at 1. unfold settings_assign. cbn [trace settings].
    rewrite List.app_nil_r. reflexivity.
Qed.

(** *** The events a computation adds *)

Section Emits.

Variable H : Host.
Variable pl : Platform.
Variable P : Event -> Prop.

Lemma emits_bind {A B} (m : M A) (c : A -> M B) :
  emits P m -> (forall a, emits P (c a)) -> emits P (bind m c).
Proof.
  intros Hm Hc st. unfold bind. destruct (Hm st) as (new & Ht & Hp).
  destruct (m st) as [[a| | |] st1]; simpl in *; try (exists new; split; assumption).
  destruct (Hc a st1) as (new' & Ht' & Hp').
  exists (new ++ new')%list. rewrite Ht', Ht, List.app_assoc. split; [reflexivity|].
  apply Forall_app; split; assumption.
Qed.

Lemma emits_silent {A} (m : M A) : (forall st, trace (snd (m st)) = trace st) -> emits P m.
Proof.
  intros Hm st. exists []. rewrite Hm, List.app_nil_r. split; [reflexivity|constructor].
Qed.

Lemma emits_emit (e : Event) : P e -> emits P (emit e).
Proof. intros He st. exists [e]. split; [reflexivity|]. repeat constructor. exact He. Qed.

Lemma emits_fs (op : FsOp) : P (Fs op) -> emits P (fs H op).
Proof.
  intros He st. unfold fs. destruct (throws H (trace st) op).
  - exists []. simpl. rewrite List.app_nil_r. split; [reflexivity|constructor].
  - apply emits_emit. exact He.
Qed.

Lemma emits_exec (cmd : string) : P (Exec cmd) -> emits P (exec_ H cmd).
Proof. intros He st. exists [Exec cmd]. split; [reflexivity|]. repeat constructor. exact He. Qed.

Lemma emits_system (cmd : string) : P (System cmd) -> emits P (system_ H cmd).
Proof. intros He st. exists [System cmd]. split; [reflexivity|]. repeat constructor. exact He. Qed.

End Emits.

(** [side] proves that an event of the program may be emitted *)
Ltac emits_with side :=
  repeat first
    [ apply emits_bind; [|intros ?]
    | apply emits_silent; intros ?; reflexivity
    | assumption
    | match goal with
      | |- emits _ (when ?b _) => unfold when; destruct b eqn:?
      | |- emits _ (if ?b then _ else _) => destruct b eqn:?
      | |- emits _ (let _ := _ in _) => cbv zeta
      | |- emits _ (log _) => apply emits_emit; side
      | |- emits _ (writeFile _ _) => apply emits_emit; side
      | |- emits _ (emit _) => apply emits_emit; side
      | |- emits _ (fs _ _) => apply emits_fs; side
      | |- emits _ (exec_ _ _) => apply emits_exec; side
      | |- emits _ (system_ _ _) => apply emits_system; side
      end ].

Section NoRemove.

Variable H : Host.
Variable pl : Platform.
Variable P : Event -> Prop.
Hypothesis HP : forall e, is_remove_all e = false -> P e.

Ltac harmless := apply HP; reflexivity.

Lemma emits_debug_suffix f : emits P (debug_suffix f).
Proof. unfold debug_suffix, settings_append. emits_with harmless. Qed.

Lemma emits_mac_prep target po l : emits P (mac_prep H pl target po l).
Proof. unfold mac_prep, getCxxFlags. emits_with harmless. Qed.

Lemma emits_linux_prep target po l : emits P (linux_prep H pl target po l).
Proof. unfold linux_prep, getCxxFlags. emits_with harmless. Qed.

Lemma emits_win_prep target po l : emits P (win_prep H pl target po l).
Proof. unfold win_prep. emits_with harmless. Qed.

Lemma emits_user_build f target l : emits P (user_build H pl f target l).
Proof. unfold user_build. emits_with harmless. Qed.

Lemma emits_compile f s e l : emits P (compile H pl f s e l).
Proof. unfold compile. emits_with harmless. Qed.

Lemma emits_sign_paths paths : forall i ent l cmd, emits P (sign_paths H pl i paths ent l cmd).
Proof.
  induction paths as [|p paths IH]; intros i ent l cmd; simpl; emits_with harmless. apply IH.
Qed.

Lemma emits_poll_body uuid u p n : emits P (poll_body H uuid u p n).
Proof. unfold poll_body. emits_with harmless. Qed.

Lemma emits_poll fuel : forall uuid u p n, emits P (poll H fuel uuid u p n).
Proof.
  induction fuel as [|fuel IH]; intros uuid u p n; simpl.
  - emits_with harmless.
  - destruct (Str.empty uuid); [emits_with harmless|].
    apply emits_bind; [apply emits_poll_body|]. intros [|]; [apply IH|emits_with harmless].
Qed.

Lemma emits_release_phase f target po e l : emits P (release_phase H pl f target po e l).
Proof.
  unfold release_phase, linux_package, mac_sign_step, mac_package, notarize,
    win_package, win_sign, run_step.
  emits_with harmless; first [apply emits_sign_paths | apply emits_poll].
Qed.

End NoRemove.

(** *** Cleaning the output directory *)

Lemma bind_assoc {A B C} (m : M A) (k : A -> M B) (k2 : B -> M C) (st : State) :
  bind (bind m k) k2 st = bind m (fun a => bind (k a) k2) st.
Proof. unfold bind. destruct (m st) as [[a| | |] st1]; reflexivity. Qed.

(** the debug suffix leaves the history and every other key alone *)
Lemma debug_suffix_run (f : Flags) (st : State) :
  exists st1, debug_suffix f st = (Ok tt, st1) /\ trace st1 = trace st /\
    (forall k, k <> "name" -> k <> "title" -> k <> "executable" ->
       get k (settings st1) = get k (settings st)).
Proof.
  destruct (flagDebugMode f) eqn:Hd.
  - destruct (debug_suffix_on f st Hd) as (st1 & E & Ht & _ & _ & _ & Ho).
    exists st1. auto.
  - exists st. unfold debug_suffix, when. rewrite Hd. auto.
Qed.

Lemma pipeline_after_cleaning (H : Host) (pl : Platform) (f : Flags) (target : path)
    (_settings : string) (st : State) :
  exists st1, trace st1 = trace st /\
    pipeline H pl f target _settings st
    = bind (when (negb (flagRunUserBuild f))
              (bind (fs H (RemoveAll (get "output" (settings st))))
                 (fun _ => log ("cleaned: " ++ pathToString H (get "output" (settings st))))))
        (fun _ => after_cleaning H pl f target _settings (get "output" (settings st))) st1.
Proof.
  destruct (debug_suffix_run f st) as (st0 & E & Ht & Ho).
  exists {| settings := touch "output" (settings st0); trace := trace st0 |}.
  split; [exact Ht|].
  unfold pipeline. unfold bind at 1. rewrite E.
  unfold prepare. rewrite bind_assoc. unfold bind at 1. unfold settings_at at 1.
  rewrite Ho by discriminate. rewrite bind_assoc. reflexivity.
Qed.

Lemma emits_after_cleaning (H : Host) (pl : Platform) (P : Event -> Prop) f target s po :
  (forall e, is_remove_all e = false -> P e) ->
  emits P (after_cleaning H pl f target s po).
Proof.
  intros HP. unfold after_cleaning.
  apply emits_bind.
  - apply emits_bind; [emits_with idtac|intros exe]. cbv zeta.
    apply emits_bind;
      [destruct (mac pl); [apply emits_mac_prep; exact HP|emits_with idtac]|intros l1].
    apply emits_bind;
      [destruct (linux pl); [apply emits_linux_prep; exact HP|emits_with idtac]|intros l2].
    apply emits_bind;
      [destruct (win pl); [apply emits_win_prep; exact HP|emits_with idtac]|intros l3].
    emits_with ltac:(apply HP; reflexivity).
  - intros [[po' e] l].
    apply emits_bind; [apply emits_user_build; exact HP|intros _].
    apply emits_bind; [apply emits_compile; exact HP|intros _].
    apply emits_bind; [apply emits_release_phase; exact HP|intros _].
    emits_with idtac.
Qed.

(** X4.  The only directory a run removes is the one the [output] setting
    names, taken as it is written (it is not resolved against the project
    directory), and only when [-o] was not given.  Without [-o] that
    removal is the first effect of the pipeline and is followed by the
    "cleaned" log line; nothing is removed afterwards. *)
Theorem only_the_output_setting_is_removed
    (H : Host) (pl : Platform) (f : Flags) (target : path) (_settings : string)
    (st : State) :
  let out := get "output" (settings st) in
  exists new,
    trace (snd (pipeline H pl f target _settings st)) = (trace st ++ new)%list /\
    Forall (fun e => is_remove_all e = true ->
                     e = Fs (RemoveAll out) /\ flagRunUserBuild f = false) new /\
    (flagRunUserBuild f = false -> throws H (trace st) (RemoveAll out) = false ->
       exists rest,
         new = Fs (RemoveAll out) :: Log ("cleaned: " ++ pathToString H out) :: rest /\
         Forall (fun e => is_remove_all e = false) rest) /\
    (flagRunUserBuild f = false -> throws H (trace st) (RemoveAll out) = true ->
       new = [] /\ fst (pipeline H pl f target _settings st) = Terminate).
Proof.
  intros out.
  destruct (pipeline_after_cleaning H pl f target _settings st) as (st1 & Ht & E).
  fold out in E. rewrite E. clear E.
  set (tail := after_cleaning H pl f target _settings out).
  assert (Htail : forall P, (forall e, is_remove_all e = false -> P e) -> emits P tail)
    by (intros P HP; apply emits_after_cleaning; exact HP).
  destruct (flagRunUserBuild f) eqn:Hf; cbn [negb when].
  - unfold bind at 1. unfold ret at 1.
    destruct (Htail (fun e => is_remove_all e = false) (fun e He => He) st1)
      as (new & Hn & Hall).
    exists new. rewrite Hn, Ht. split; [reflexivity|].
    split; [|split; discriminate].
    eapply Forall_impl; [exact Hall|]. simpl. intros e He Hr. congruence.
  - destruct (throws H (trace st) (RemoveAll out)) eqn:Hthrow.
    + assert (E : bind (bind (fs H (RemoveAll out))
                          (fun _ => log ("cleaned: " ++ pathToString H out)))
                    (fun _ => tail) st1 = (Terminate, st1)).
      { unfold bind, fs. rewrite Ht, Hthrow. reflexivity. }
      rewrite E. exists []. cbn [snd fst]. rewrite Ht, List.app_nil_r.
      split; [reflexivity|]. split; [constructor|]. split; [discriminate|].
      intros _ _. split; reflexivity.
    + assert (E : bind (bind (fs H (RemoveAll out))
                          (fun _ => log ("cleaned: " ++ pathToString H out)))
                    (fun _ => tail) st1
                  = tail (add_event st1 [Fs (RemoveAll out);
                                         Log ("cleaned: " ++ pathToString H out)])).
      { unfold bind at 1. unfold bind at 1. unfold fs. rewrite Ht, Hthrow.
        unfold log, emit, add_event. cbn [trace settings].
        rewrite <- List.app_assoc. reflexivity. }
      rewrite E.
      destruct (Htail (fun e => is_remove_all e = false) (fun e He => He)
                  (add_event st1 [Fs (RemoveAll out);
                                  Log ("cleaned: " ++ pathToString H out)]))
        as (rest & Hn & Hall).
      exists (Fs (RemoveAll out) :: Log ("cleaned: " ++ pathToString H out) :: rest).
      rewrite Hn. unfold add_event. cbn [trace]. rewrite Ht, <- !List.app_assoc.
      split; [reflexivity|]. split; [|split; [|discriminate]].
      * constructor; [intros _; split; reflexivity|].
        constructor; [discriminate|].
        eapply Forall_impl; [exact Hall|]. simpl. intros e He Hr. congruence.
      * intros _ _. exists rest. split; [reflexivity|exact Hall].
Qed.

Lemma only_the_output_setting_is_removed_witness :
  exists rest,
    trace (snd (pipeline (quiet_host scenario_settings) Linux release_flags "proj" ""
                  (state_with scenario_settings)))
    = Fs (RemoveAll "dist") :: Log "cleaned: dist" :: rest /\
    Forall (fun e => is_remove_all e = false) rest.
Proof.
  destruct (only_the_output_setting_is_removed (quiet_host scenario_settings) Linux
              release_flags "proj" "" (state_with scenario_settings))
    as (new & Ht & _ & Hfirst & _).
  destruct Hfirst as (rest & -> & Hall); [reflexivity|reflexivity|].
  exists rest. split; [exact Ht|exact Hall].
Defined.

(** *** The steps of the release phase *)

Section Kinds.

Variable H : Host.
Variable pl : Platform.
Variable P : Event -> Prop.

Lemma emits_nothing_sign_paths paths :
  forall i ent l cmd, emits P (sign_paths H pl i paths ent l cmd).
Proof.
  induction paths as [|p paths IH]; intros i ent l cmd; simpl; emits_with idtac. apply IH.
Qed.

Hypothesis Psleep : forall ms, P (Sleep ms).
Hypothesis Pexec : forall c, P (Exec c).
Hypothesis Plog : forall s, P (Log s).

Lemma emits_kinds_poll_body uuid u p n : emits P (poll_body H uuid u p n).
Proof.
  unfold poll_body.
  emits_with ltac:(first [apply Psleep | apply Pexec | apply Plog]).
Qed.

Lemma emits_kinds_poll fuel : forall uuid u p n, emits P (poll H fuel uuid u p n).
Proof.
  induction fuel as [|fuel IH]; intros uuid u p n; simpl.
  - emits_with idtac.
  - destruct (Str.empty uuid); [emits_with idtac|].
    apply emits_bind; [apply emits_kinds_poll_body|]. intros [|]; [apply IH|emits_with idtac].
Qed.

Lemma emits_kinds_notarize archive : emits P (notarize H archive).
Proof.
  unfold notarize.
  emits_with ltac:(first [apply Psleep | apply Pexec | apply Plog]).
  apply emits_kinds_poll.
Qed.

End Kinds.

Ltac gate pl :=
  cbn [gated];
  repeat match goal with
         | Hc : _ && _ = true |- _ => apply andb_prop in Hc as [? ?]
         end;
  destruct pl; try discriminate; intuition congruence.

(** X5.  Every effect of the release phase belongs to a step that its flag
    and the host platform enable. *)
Theorem release_steps_are_gated
    (H : Host) (pl : Platform) (f : Flags) (target pathOutput executable : path)
    (l : Locals) (st : State) :
  exists new,
    trace (snd (release_phase H pl f target pathOutput executable l st))
      = (trace st ++ new)%list /\
    Forall (gated pl f) new /\
    (flagShouldPackage f = false -> flagCodeSign f = false ->
     flagShouldNotarize f = false -> flagShouldRun f = false ->
     new = [] /\ fst (release_phase H pl f target pathOutput executable l st) = Ok tt).
Proof.
  assert (Hem : emits (gated pl f) (release_phase H pl f target pathOutput executable l)).
  { unfold release_phase.
    apply emits_bind; [|intros _].
    { unfold linux_package. emits_with ltac:(gate pl). }
    apply emits_bind; [|intros _].
    { unfold when. destruct (flagCodeSign f && mac pl) eqn:?; [|emits_with idtac].
      unfold mac_sign_step. emits_with ltac:(gate pl). apply emits_nothing_sign_paths. }
    apply emits_bind; [|intros archive].
    { unfold mac_package. emits_with ltac:(gate pl). }
    apply emits_bind; [|intros _].
    { unfold when. destruct (flagShouldNotarize f && mac pl) eqn:?; [|emits_with idtac].
      apply emits_kinds_notarize; intros ?; gate pl. }
    unfold win_package, win_sign, run_step. emits_with ltac:(gate pl). }
  destruct (Hem st) as (new & Ht & Hall). exists new.
  split; [exact Ht|]. split; [exact Hall|].
  intros Hp Hc Hn Hr.
  unfold release_phase in *. rewrite Hp, Hc, Hn, Hr in *. cbn [andb when] in *.
  unfold bind, ret in *. cbn [fst snd] in *.
  split; [|reflexivity].
  apply (f_equal (@length Event)) in Ht. rewrite List.length_app in Ht.
  destruct new; [reflexivity|simpl in Ht; lia].
Qed.

Lemma release_steps_are_gated_witness :
  fst (release_phase (quiet_host scenario_settings) Linux release_flags "proj" "dist" "foo"
         scenario_locals (state_with scenario_settings)) = Ok tt.
Proof.
  destruct (release_steps_are_gated (quiet_host scenario_settings) Linux release_flags
              "proj" "dist" "foo" scenario_locals (state_with scenario_settings))
    as (new & _ & _ & Hnone).
  apply Hnone; reflexivity.
Defined.

(** *** Validation and exit status *)

Lemma first_missing_none (keys : list string) (s : Settings) :
  first_missing keys s = None <-> forall k, In k keys -> s !! k <> None.
Proof.
  induction keys as [|k keys IH]; simpl.
  - split; [intros _ k []|reflexivity].
  - destruct (s !! k) eqn:E.
    + rewrite IH. split.
      * intros Hall k' [<-|Hin]; [rewrite E; discriminate|apply Hall; exact Hin].
      * intros Hall k' Hin. apply Hall. right. exact Hin.
    + split; [discriminate|]. intros Hall. exfalso. apply (Hall k); [left; reflexivity|exact E].
Qed.

Lemma first_missing_some (keys : list string) (s : Settings) (k : string) :
  first_missing keys s = Some k <->
  exists before after, keys = (before ++ k :: after)%list /\
    (forall k', In k' before -> s !! k' <> None) /\ s !! k = None.
Proof.
  induction keys as [|k0 keys IH]; simpl.
  - split; [discriminate|]. intros (b & a & E & _). destruct b; discriminate.
  - destruct (s !! k0) eqn:E0.
    + rewrite IH. split.
      * intros (b & a & -> & Hb & Hk). exists (k0 :: b), a. split; [reflexivity|].
        split; [|exact Hk]. intros k' [<-|Hin]; [rewrite E0; discriminate|apply Hb; exact Hin].
      * intros (b & a & E & Hb & Hk). destruct b as [|b0 b]; simpl in E.
        -- injection E as <- _. congruence.
        -- injection E as <- ->. exists b, a. split; [reflexivity|].
           split; [|exact Hk]. intros k' Hin. apply Hb. right. exact Hin.
    + split.
      * intros [= <-]. exists [], keys. split; [reflexivity|]. split; [intros k' []|exact E0].
      * intros (b & a & E & Hb & Hk). destruct b as [|b0 b]; simpl in E.
        -- injection E as <- _. reflexivity.
        -- injection E as <- ->. exfalso. apply (Hb k0); [left; reflexivity|exact E0].
Qed.

(** X1.  Once the [_cmd] key is there, the settings pass the validation
    exactly when each of name, title, executable, output, version and arch
    is a key of the map (its value may be empty); otherwise the first of
    them, in this order, that is missing is reported and the run stops
    with exit code 1.  A validation that passes changes nothing. *)
Theorem validation_reports_first_missing_key (st : State) :
  settings st !! "_cmd" <> None ->
  (validate st = (Ok tt, st) <-> forall k, In k required -> settings st !! k <> None) /\
  (forall before k after,
     required = (before ++ k :: after)%list ->
     (forall k', In k' before -> settings st !! k' <> None) ->
     settings st !! k = None ->
     validate st = (Exit 1, add_event st [Log ("'" ++ k ++ "' key/value is required")])).
Proof.
  intros Hcmd. rewrite validate_spec.
  destruct (settings st !! "_cmd") as [c|]; [clear Hcmd|contradiction].
  split.
  - rewrite <- first_missing_none.
    destruct (first_missing required (settings st)); split; try discriminate; reflexivity.
  - intros before k after E Hb Hk.
    assert (Hm : first_missing required (settings st) = Some k)
      by (apply first_missing_some; exists before, after; auto).
    rewrite Hm. reflexivity.
Qed.

Lemma validation_reports_first_missing_key_witness :
  validate (state_with untitled_settings)
  = (Exit 1, add_event (state_with untitled_settings) [Log "'title' key/value is required"]).
Proof.
  assert (Hcmd : settings (state_with untitled_settings) !! "_cmd" <> None)
    by (vm_compute; discriminate).
  apply (proj2 (validation_reports_first_missing_key
                  (state_with untitled_settings) Hcmd)
           ["name"] "title" ["executable"; "output"; "version"; "arch"]).
  - reflexivity.
  - intros k' [<-|[]]. vm_compute. discriminate.
  - vm_compute. reflexivity.
Defined.

(** X2.  A run whose settings fail the validation stops with exit code 1
    before it has touched the file system or run any command: all it has
    done is to read the environment and the settings file and to log. *)
Theorem main_fails_fast
    (H : Host) (pl : Platform) (argv : list string) (st : State) :
  (2 <= length argv)%nat ->
  existsb (Str.found "-h") argv = false ->
  let pre := if Str.empty (getEnv H (trace st) "CXX") then cxx_warning pl else [] in
  let target := List.nth 1 argv EmptyString in
  let text := readFile H (trace st ++ pre) (Path.join pl target "settings.config") in
  let s := parseConfig H text in
  (s !! "_cmd" = None \/ exists k, In k required /\ s !! k = None) ->
  exists msg,
    main H pl argv st
    = (Exit 1, {| settings := s; trace := (trace st ++ pre ++ [Log msg])%list |}).
Proof.
  intros Hlen Hh pre target text s Hbad.
  rewrite main_run by assumption. fold pre target text s.
  unfold bind. rewrite validate_spec. cbn [settings].
  destruct (s !! "_cmd") as [c|] eqn:Ec.
  - destruct (first_missing required s) as [k|] eqn:Em.
    + eexists. unfold add_event. cbn [settings trace]. rewrite <- List.app_assoc. reflexivity.
    + exfalso. destruct Hbad as [Hc|(k & Hin & Hk)]; [discriminate|].
      apply first_missing_none with (k := k) in Em; [contradiction|exact Hin].
  - eexists. unfold add_event. cbn [settings trace]. rewrite <- List.app_assoc. reflexivity.
Qed.

Lemma main_fails_fast_witness :
  exists msg,
    main (quiet_host untitled_settings) Linux ["opkit"; "proj"] initial_state
    = (Exit 1, {| settings := untitled_settings; trace := [Log msg] |}).
Proof.
  apply (main_fails_fast (quiet_host untitled_settings) Linux ["opkit"; "proj"] initial_state).
  - simpl. lia.
  - reflexivity.
  - right. exists "title". split; [right; left; reflexivity|vm_compute; reflexivity].
Defined.

(** X3.  [main] calls [exit] with status 0 only to print the usage text.
    With fewer than two arguments it prints the usage text and exits with
    0, having done nothing else.  With a project directory and without
    [-h], every path that ends in [exit], validation failures and failed
    commands alike, passes a status that is not 0; and the poll loop
    always ends within the passes the model allows it. *)
Theorem exit_status_zero_only_for_usage
    (H : Host) (pl : Platform) (argv : list string) (st : State) :
  ((length argv < 2)%nat -> main H pl argv st = (Exit 0, add_event st [Usage])) /\
  ((2 <= length argv)%nat ->
   existsb (Str.found "-h") argv = false ->
   match fst (main H pl argv st) with
   | Exit c => c <> 0
   | OutOfFuel => False
   | _ => True
   end).
Proof.
  split.
  - intros Hlen. unfold main.
    assert (Hargc : (Z.of_nat (length argv) <? 2) = true) by (apply Z.ltb_lt; lia).
    rewrite Hargc. reflexivity.
  - intros Hlen Hh. rewrite main_run by assumption.
    apply (ends_bind validate); [apply ends_validate|intros _; apply ends_pipeline].
Qed.

Lemma exit_status_zero_only_for_usage_witness :
  match fst (main (failing_host scenario_settings) Linux ["opkit"; "proj"] initial_state) with
  | Exit c => c <> 0
  | OutOfFuel => False
  | _ => True
  end.
Proof.
  apply (proj2 (exit_status_zero_only_for_usage (failing_host scenario_settings) Linux
                  ["opkit"; "proj"] initial_state)).
  - simpl. lia.
  - reflexivity.
Defined.

(** *** Package preparation *)

Lemma linux_prep_effects (H : Host) (pl : Platform) (target pathOutput : path)
    (l0 l : Locals) (st st' : State) :
  linux_prep H pl target pathOutput l0 st = (Ok l, st') ->
  let s := settings st in
  let j := Path.join pl in
  let pkg := pathPackage l in
  let icons := j (j (j (j (j (j pkg "usr") "share") "icons") "hicolor") "256x256") "apps" in
  let apps := j (j (j pkg "usr") "share") "applications" in
  let m := linux_settings H pl s in
  let setup :=
    [Log "preparing build for linux";
     Fs (CreateDirectories icons); Fs (CreateDirectories (pathResources l));
     Fs (CreateDirectories apps); Fs (CreateDirectories (j pkg "DEBIAN"));
     WriteFile (j apps (get "name" s ++ ".desktop")) (tmpl H (gDestkopManifest H) m);
     WriteFile (j (j pkg "DEBIAN") "control") (tmpl H (gDebianManifest H) m)] in
  let src := pathToString H (j target (get "linux_icon" s)) in
  let dest := pathToString H (j icons (get "executable" s ++ ".png")) in
  settings st' = touch "linux_icon" m /\
  trace st'
  = (trace st ++ setup
       ++ (if exists_ H (trace st ++ setup) dest then [] else [Fs (CopyFile src dest)]))%list.
Proof.
  intros E. unfold linux_prep in E.
  run_in E; cbv zeta; cbn [settings trace pathPackage pathResources] in *;
    rewrite ?get_touch in *; rewrite <- !List.app_assoc in *; cbn [List.app] in *;
    (split; [reflexivity|]);
    [apply negb_true_iff in Hcond | apply negb_false_iff in Hcond];
    unfold linux_settings;
    repeat first [rewrite get_insert_ne in Hcond by discriminate | rewrite get_touch in Hcond];
    repeat first [rewrite get_insert_ne by discriminate | rewrite get_touch];
    rewrite Hcond;
    cbn [List.app]; rewrite ?List.app_nil_r; reflexivity.
Qed.

(** X6.  "Linux Package Prep" first creates the four directories of the
    package, then records the two install paths in the settings, renders
    both manifests from the settings that already hold them, and last
    copies the icon from the project directory, but only when nothing
    exists at its destination: an icon already in the package is never
    overwritten. *)
Theorem linux_prep_renders_after_install_paths
    (H : Host) (pl : Platform) (target pathOutput : path) (l0 l : Locals)
    (st st' : State) :
  linux_prep H pl target pathOutput l0 st = (Ok l, st') ->
  let s := settings st in
  let j := Path.join pl in
  let pkg := pathPackage l in
  let icons := j (j (j (j (j (j pkg "usr") "share") "icons") "hicolor") "256x256") "apps" in
  let apps := j (j (j pkg "usr") "share") "applications" in
  let src := pathToString H (j target (get "linux_icon" s)) in
  let dest := pathToString H (j icons (get "executable" s ++ ".png")) in
  exists m setup,
    setup
    = [Log "preparing build for linux";
       Fs (CreateDirectories icons); Fs (CreateDirectories (pathResources l));
       Fs (CreateDirectories apps); Fs (CreateDirectories (j pkg "DEBIAN"));
       WriteFile (j apps (get "name" s ++ ".desktop")) (tmpl H (gDestkopManifest H) m);
       WriteFile (j (j pkg "DEBIAN") "control") (tmpl H (gDebianManifest H) m)] /\
    trace st'
    = (trace st ++ setup
         ++ (if exists_ H (trace st ++ setup) dest then [] else [Fs (CopyFile src dest)]))%list /\
    get "linux_executable_path" m
    = pathToString H (j (j "/opt" (get "name" s)) (get "executable" s)) /\
    get "linux_icon_path" m
    = pathToString H
        (j (j (j (j (j (j "/usr" "share") "icons") "hicolor") "256x256") "apps")
           (get "executable" s ++ ".png")) /\
    (forall k, k <> "linux_executable_path" -> k <> "linux_icon_path" ->
       get k m = get k s) /\
    (forall k, get k (settings st') = get k m).
Proof.
  intros E. apply linux_prep_effects in E as [Hs Ht]. cbv zeta.
  exists (linux_settings H pl (settings st)). eexists. split; [reflexivity|].
  split; [exact Ht|]. unfold linux_settings.
  split; [rewrite get_insert_ne by discriminate; apply get_insert_eq|].
  split; [apply get_insert_eq|]. split.
  - intros k K1 K2. rewrite !get_insert_ne by congruence. rewrite !get_touch. reflexivity.
  - intros k. rewrite Hs. apply get_touch.
Qed.

Lemma linux_prep_renders_after_install_paths_witness :
  exists l st',
    linux_prep (quiet_host icon_settings) Linux "proj" "dist" initial_locals
      (state_with icon_settings) = (Ok l, st') /\
    get "linux_executable_path" (settings st') = "/opt/foo/foo" /\
    In (Fs (CopyFile "proj/icon.png"
              "proj/dist/foo_1.0-1_amd64/usr/share/icons/hicolor/256x256/apps/foo.png"))
       (trace st').
Proof.
  destruct (linux_prep (quiet_host icon_settings) Linux "proj" "dist" initial_locals
              (state_with icon_settings)) as [o st'] eqn:E.
  assert (Ho : exists l, o = Ok l /\ pathPackage l = "proj/dist/foo_1.0-1_amd64").
  { replace o with (fst (o, st')) by reflexivity. rewrite <- E.
    vm_compute. eexists. split; reflexivity. }
  destruct Ho as (l & -> & Hl). exists l, st'. split; [reflexivity|].
  destruct (linux_prep_renders_after_install_paths _ _ _ _ _ _ _ _ E)
    as (m & setup & -> & Ht & Hp & _ & _ & Hs).
  split.
  - rewrite Hs, Hp. reflexivity.
  - rewrite Ht, Hl. apply in_or_app. right. apply in_or_app. right.
    left. reflexivity.
Defined.

Lemma win_prep_effects (H : Host) (pl : Platform) (target pathOutput : path)
    (l0 l : Locals) (st st' : State) :
  win_prep H pl target pathOutput l0 st = (Ok l, st') ->
  let s := settings st in
  let t := touch "revision" (touch "version" (touch "executable" s)) in
  let m := if Str.empty (get "revision" s) then <["revision" := "1"]> t else t in
  settings st' = m /\
  trace st'
  = (trace st ++
     [Log "preparing build for win"; Fs (CreateDirectories (pathPackage l));
      WriteFile (Path.join pl (pathPackage l) "AppxManifest.xml")
        (tmpl H (gWindowsAppManifest H) m)])%list.
Proof.
  intros E. unfold win_prep in E.
  run_in E; cbv zeta; cbn [settings trace pathPackage] in *;
    repeat rewrite get_touch in Hcond; rewrite Hcond;
    rewrite <- !List.app_assoc; cbn [List.app]; split; reflexivity.
Qed.

(** X7.  "Windows Package Prep" gives [revision] the value 1 exactly when
    it is missing or empty, and leaves a configured revision alone; the
    manifest is rendered, into AppxManifest.xml at the package root, from
    the settings that hold this revision. *)
Theorem win_prep_defaults_revision
    (H : Host) (pl : Platform) (target pathOutput : path) (l0 l : Locals)
    (st st' : State) :
  win_prep H pl target pathOutput l0 st = (Ok l, st') ->
  let s := settings st in
  exists m,
    trace st'
    = (trace st ++
       [Log "preparing build for win"; Fs (CreateDirectories (pathPackage l));
        WriteFile (Path.join pl (pathPackage l) "AppxManifest.xml")
          (tmpl H (gWindowsAppManifest H) m)])%list /\
    get "revision" m = (if Str.empty (get "revision" s) then "1" else get "revision" s) /\
    (forall k, k <> "revision" -> get k m = get k s) /\
    (forall k, get k (settings st') = get k m).
Proof.
  intros E. apply win_prep_effects in E as [Hs Ht]. cbv zeta in *.
  eexists. split; [exact Ht|].
  destruct (Str.empty (get "revision" (settings st))).
  - split; [apply get_insert_eq|]. split.
    + intros k Hk. rewrite get_insert_ne by congruence. rewrite !get_touch. reflexivity.
    + intros k. rewrite Hs. reflexivity.
  - split; [rewrite !get_touch; reflexivity|]. split.
    + intros k _. rewrite !get_touch. reflexivity.
    + intros k. rewrite Hs. reflexivity.
Qed.

Lemma win_prep_defaults_revision_witness :
  exists l st',
    win_prep (quiet_host unrevised_settings) Win "proj" "dist" initial_locals
      (state_with unrevised_settings) = (Ok l, st') /\
    get "revision" (settings st') = "1".
Proof.
  destruct (win_prep (quiet_host unrevised_settings) Win "proj" "dist" initial_locals
              (state_with unrevised_settings)) as [o st'] eqn:E.
  assert (Ho : exists l, o = Ok l).
  { replace o with (fst (o, st')) by reflexivity. rewrite <- E.
    vm_compute. eexists. reflexivity. }
  destruct Ho as (l & ->). exists l, st'. split; [reflexivity|].
  destruct (win_prep_defaults_revision _ _ _ _ _ _ _ _ E) as (m & _ & Hr & _ & Hs).
  rewrite Hs, Hr. reflexivity.
Defined.

(** *** The directory of the user's build *)

Lemma posix_join_assoc (pl : Platform) (p q r : path) :
  posix pl -> q <> "" ->
  Path.is_plain_relative pl q = true -> Path.is_plain_relative pl r = true ->
  Path.join pl (Path.join pl p q) r = Path.join pl p (Path.join pl q r) /\
  Path.is_plain_relative pl (Path.join pl q r) = true /\ Path.join pl q r <> "".
Proof.
  intros Hpl Hq Hrq Hrr.
  destruct (posix_join_join pl p q r Hpl Hq Hrq Hrr) as (E & Hrel & Hne).
  rewrite (join_relative pl q r) by exact Hrr.
  rewrite (posix_sep_after pl q) by exact Hpl.
  auto.
Qed.

Lemma posix_plain_relative_suffix (pl : Platform) (p q : path) :
  posix pl -> q <> "" -> Path.is_plain_relative pl q = true ->
  Path.is_plain_relative pl (p ++ q) = Path.is_plain_relative pl (if Str.empty p then q else p).
Proof.
  intros Hpl Hq Hr. destruct p as [|c p]; [reflexivity|].
  destruct Hpl as [-> | ->]; reflexivity.
Qed.

(** X8.  On macOS and Linux the directory handed to the user's build
    command, which runs inside the project directory, is the resources
    directory of the package: resolved against the project directory it
    is the very path under which the tool itself addresses the resources,
    provided the project directory, the output directory and the name
    (on Linux also the executable) are relative paths. *)
Theorem user_build_writes_into_package_resources
    (H : Host) (pl : Platform) (f : Flags) (target : path) (st st' : State)
    (pathOutput executable : path) (l : Locals) (cwd : path) :
  prepare H pl f target st = (Ok (pathOutput, executable, l), st') ->
  posix pl ->
  target <> "" -> Path.is_plain_relative pl target = true ->
  get "output" (settings st) <> "" ->
  Path.is_plain_relative pl (get "output" (settings st)) = true ->
  Path.is_plain_relative pl (get "name" (settings st)) = true ->
  (pl = Linux -> Path.is_plain_relative pl (get "executable" (settings st)) = true) ->
  Path.join pl (Path.join pl cwd target) (pathResourcesRelativeToUserBuild l)
  = Path.join pl cwd (pathResources l).
Proof.
  intros E Hpl Ht Hrt Ho Hro Hrn Hre.
  apply prepare_layout in E as (Hout & _ & Hl & _). cbv zeta in Hl.
  assert (Hpkg : Path.is_plain_relative pl (packageName l) = true).
  { destruct Hpl as [-> | ->].
    - destruct Hl as (-> & _).
      rewrite posix_plain_relative_suffix; [|left; reflexivity|discriminate|reflexivity].
      destruct (get "name" (settings st)); [reflexivity|exact Hrn].
    - destruct Hl as (-> & _). specialize (Hre eq_refl).
      destruct (get "executable" (settings st)); [reflexivity|exact Hre]. }
  subst pathOutput.
  set (out := get "output" (settings st)) in *.
  set (pkg := packageName l) in *.
  destruct (posix_join_assoc pl target out pkg Hpl Ho Hro Hpkg) as (A1 & R1 & N1).
  assert (Hchain : forall a b,
            Path.is_plain_relative pl a = true -> Path.is_plain_relative pl b = true ->
            pathResourcesRelativeToUserBuild l
              = Path.join pl (Path.join pl (Path.join pl out pkg) a) b ->
            pathResources l
              = Path.join pl (Path.join pl (Path.join pl (Path.join pl target out) pkg) a) b ->
            Path.join pl (Path.join pl cwd target) (pathResourcesRelativeToUserBuild l)
            = Path.join pl cwd (pathResources l)).
  { intros a b Ha Hb -> ->.
    destruct (posix_join_assoc pl target _ a Hpl N1 R1 Ha) as (A2 & R2 & N2).
    destruct (posix_join_assoc pl target _ b Hpl N2 R2 Hb) as (A3 & R3 & N3).
    destruct (posix_join_assoc pl cwd target _ Hpl Ht Hrt R3) as (A4 & _ & _).
    rewrite A1, A2, A3, A4. reflexivity. }
  destruct Hpl as [-> | ->].
  - destruct Hl as (_ & Hp & _ & Hres & Hrel).
    apply (Hchain "Contents" "Resources"); try reflexivity.
    + exact Hrel.
    + rewrite Hres, Hp. reflexivity.
  - destruct Hl as (_ & Hp & Hbin & Hres & Hrel).
    apply (Hchain "opt" (get "name" (settings st))); try reflexivity.
    + exact Hrn.
    + exact Hrel.
    + rewrite Hres, Hbin, Hp. reflexivity.
Qed.

Lemma user_build_writes_into_package_resources_witness :
  exists l st',
    prepare (quiet_host scenario_settings) Linux release_flags "proj"
      (state_with scenario_settings) = (Ok ("dist", "foo", l), st') /\
    Path.join Linux "/work/proj" (pathResourcesRelativeToUserBuild l)
    = Path.join Linux "/work" (pathResources l).
Proof.
  destruct (prepare (quiet_host scenario_settings) Linux release_flags "proj"
              (state_with scenario_settings)) as [o st'] eqn:E.
  assert (Ho : exists l, o = Ok ("dist", "foo", l)).
  { replace o with (fst (o, st')) by reflexivity. rewrite <- E.
    vm_compute. eexists. reflexivity. }
  destruct Ho as (l & ->). exists l, st'. split; [reflexivity|].
  apply (user_build_writes_into_package_resources _ _ _ _ _ _ _ _ _ "/work" E);
    try reflexivity; try discriminate.
  right. reflexivity.
Defined.

(** *** Compiling and packaging on Linux *)

(** X10.  When the compiler is run, its exit code decides: 0 lets the run
    go on after "compiled native binary"; any other code is reported as
    "Unable to build" and becomes the exit code of the run. *)
Theorem compile_forwards_exit_code
    (H : Host) (pl : Platform) (f : Flags) (_settings : string) (executable : path)
    (l : Locals) (st : State) :
  let cmd :=
    compileCommand H pl f (encodeURIComponent H _settings) executable l
      (getEnv H (trace st) "CXX")
      (get (if flagDebugMode f then "debug_flags" else "flags") (settings st)) in
  let r := exec H (trace st) cmd in
  let res := compile H pl f _settings executable l st in
  ~ (flagRunUserBuild f = true /\ exists_ H (trace st) (binaryPath pl l executable) = true) ->
  (exitCode r = 0 ->
     fst res = Ok tt /\
     trace (snd res) = (trace st ++ [Exec cmd; Log "compiled native binary"])%list) /\
  (exitCode r <> 0 ->
     fst res = Exit (exitCode r) /\
     trace (snd res) = (trace st ++ [Exec cmd; Log "Unable to build"])%list).
Proof.
  intros cmd r res Hrun.
  assert (Hc : negb (flagRunUserBuild f)
               || negb (exists_ H (trace st) (binaryPath pl l executable)) = true).
  { destruct (flagRunUserBuild f), (exists_ H (trace st) (binaryPath pl l executable));
      try reflexivity. exfalso. apply Hrun. auto. }
  assert (E : res
    = bind (when (negb (exitCode r =? 0))
              (bind (log "Unable to build") (fun _ => exit (exitCode r))))
        (fun _ => log "compiled native binary")
        {| settings := touch (if flagDebugMode f then "debug_flags" else "flags") (settings st);
           trace := (trace st ++ [Exec cmd])%list |}).
  { subst res. unfold compile. unfold bind at 1. unfold settings_at at 1.
    unfold bind at 1. unfold getEnv_, ask. cbn [trace settings].
    unfold bind at 1. cbn [trace settings]. rewrite Hc. unfold when at 1.
    unfold bind at 1. unfold exec_ at 1. cbn [trace settings]. reflexivity. }
  rewrite E. split.
  - intros Hz. rewrite Hz. unfold bind, when, log, emit. simpl.
    rewrite <- List.app_assoc. split; reflexivity.
  - intros Hnz. apply Z.eqb_neq in Hnz. rewrite Hnz. unfold bind, when, log, emit, exit. simpl.
    rewrite <- List.app_assoc. split; reflexivity.
Qed.

Lemma compile_forwards_exit_code_witness :
  fst (compile (failing_host scenario_settings) Linux release_flags EmptyString "foo"
         scenario_locals (state_with scenario_settings)) = Exit 2.
Proof.
  apply (compile_forwards_exit_code (failing_host scenario_settings) Linux release_flags
           EmptyString "foo" scenario_locals (state_with scenario_settings)).
  - intros [Hf _]. discriminate.
  - discriminate.
Defined.

(** X11.  "Linux Packaging" links <package>/usr/local/bin/<executable> to
    the install path /opt/<name>/<executable> and runs dpkg-deb on the
    package root with the output directory of the project as destination.
    A nonzero result of dpkg-deb is reported and ends the run with exit
    code 1, whatever that result was. *)
Theorem linux_package_links_and_archives
    (H : Host) (pl : Platform) (target pathOutput : path) (l : Locals) (st : State) :
  let j := Path.join pl in
  let name := get "name" (settings st) in
  let executable := get "executable" (settings st) in
  let bin := j (j (j (pathPackage l) "usr") "local") "bin" in
  let link := CreateSymlink (j (j "/opt" name) executable) (j bin executable) in
  let cmd := "dpkg-deb --build --root-owner-group " ++ pathToString H (pathPackage l)
               ++ " " ++ pathToString H (j target pathOutput) in
  let t := (trace st ++ [Fs (CreateDirectories bin); Fs link])%list in
  let res := linux_package H pl target pathOutput l st in
  throws H (trace st) (CreateDirectories bin) = false ->
  throws H (trace st ++ [Fs (CreateDirectories bin)]) link = false ->
  (system H t cmd = 0 ->
     fst res = Ok tt /\ trace (snd res) = (t ++ [System cmd])%list) /\
  (system H t cmd <> 0 ->
     fst res = Exit 1 /\
     trace (snd res) = (t ++ [System cmd; Log "error: failed to create deb package"])%list).
Proof.
  intros j name executable bin link cmd t res Hd Hl.
  assert (E : res
    = when (negb (system H t cmd =? 0))
        (bind (log "error: failed to create deb package") (fun _ => exit 1))
        {| settings := touch "executable" (touch "name" (settings st));
           trace := (t ++ [System cmd])%list |}).
  { subst res t cmd link bin executable name j.
    unfold linux_package. unfold bind at 1. unfold settings_at at 1.
    unfold bind at 1. unfold settings_at at 1. cbn [trace settings]. rewrite get_touch.
    unfold bind at 1. unfold fs at 1. cbn [trace settings]. rewrite Hd.
    unfold emit at 1. cbn [trace settings].
    unfold bind at 1. unfold fs at 1. cbn [trace settings]. rewrite Hl.
    unfold emit at 1. cbn [trace settings].
    unfold bind at 1. unfold system_ at 1. cbn [trace settings].
    rewrite <- !List.app_assoc. cbn [List.app]. reflexivity. }
  rewrite E. split.
  - intros Hz. rewrite Hz. split; reflexivity.
  - intros Hnz. apply Z.eqb_neq in Hnz. rewrite Hnz. unfold bind, when, log, emit, exit. simpl.
    rewrite <- List.app_assoc. split; reflexivity.
Qed.

Lemma linux_package_links_and_archives_witness :
  fst (linux_package (no_dpkg_host scenario_settings) Linux "proj" "dist" scenario_locals
         (state_with scenario_settings)) = Exit 1.
Proof.
  apply (linux_package_links_and_archives (no_dpkg_host scenario_settings) Linux "proj" "dist"
           scenario_locals (state_with scenario_settings)).
  - reflexivity.
  - reflexivity.
  - discriminate.
Defined.

Lemma prepare_linux_inv (H : Host) (f : Flags) (target : path) (st st' : State)
    (pathOutput executable : path) (l : Locals) :
  prepare H Linux f target st = (Ok (pathOutput, executable, l), st') ->
  exists st1 st2,
    linux_prep H Linux target pathOutput initial_locals st1 = (Ok l, st2) /\
    (forall k, get k (settings st1) = get k (settings st)) /\
    settings st' = settings st2.
Proof.
  intros E. unfold prepare in E.
  run_in E;
    match goal with
    | E' : linux_prep _ _ _ _ _ _ = _ |- _ =>
        eexists _, _; split; [exact E'|]; split; [|reflexivity];
        intros k; simpl; rewrite !get_touch; reflexivity
    end.
Qed.

(** X9.  On Linux the places that name the installed binary agree: with
    relative [name] and [executable], the binary is put into the package
    at <package>/<rel>, while the install path /opt/<name>/<executable>,
    which is recorded as [linux_executable_path] for the manifests and is
    the target of the symbolic link of the packaging step, is /<rel>;
    <rel> being opt/<name>/<executable>. *)
Theorem linux_install_path_matches_package
    (H : Host) (f : Flags) (target : path) (st st' : State)
    (pathOutput executable : path) (l : Locals) :
  prepare H Linux f target st = (Ok (pathOutput, executable, l), st') ->
  Path.is_plain_relative Linux (get "name" (settings st)) = true ->
  Path.is_plain_relative Linux (get "executable" (settings st)) = true ->
  let j := Path.join Linux in
  let name := get "name" (settings st) in
  let exe := get "executable" (settings st) in
  let rel := j (j "opt" name) exe in
  binaryPath Linux l executable = j (pathPackage l) rel /\
  j (j "/opt" name) exe = "/" ++ rel /\
  get "linux_executable_path" (settings st') = pathToString H ("/" ++ rel).
Proof.
  intros E Hn He j name exe rel. subst rel exe name j.
  assert (Hpl : posix Linux) by (right; reflexivity).
  assert (Hopt : "opt" <> "") by discriminate.
  destruct (posix_join_assoc Linux (pathPackage l) "opt" _ Hpl Hopt eq_refl Hn)
    as (A1 & R1 & N1).
  destruct (posix_join_assoc Linux (pathPackage l) _ _ Hpl N1 R1 He) as (A2 & R2 & _).
  destruct (posix_join_assoc Linux "/" "opt" _ Hpl Hopt eq_refl Hn) as (B1 & _ & _).
  destruct (posix_join_assoc Linux "/" _ _ Hpl N1 R1 He) as (B2 & _ & _).
  match goal with |- _ /\ ?a = _ /\ _ => assert (Habs : a = Path.join Linux "/" (Path.join Linux (Path.join Linux "opt" (get "name" (settings st))) (get "executable" (settings st)))) end.
  { change "/opt" with (Path.join Linux "/" "opt"). rewrite B1, B2. reflexivity. }
  rewrite (join_relative Linux "/" _ R2) in Habs.
  change (sep_after Linux "/") with "" in Habs. rewrite app_nil_l in Habs.
  split; [|split; [exact Habs|]].
  - apply prepare_layout in E as (_ & Hex & (_ & _ & Hbin & _) & _).
    simpl in Hex. rewrite app_nil_r in Hex. unfold binaryPath.
    rewrite Hbin, Hex. rewrite A1, A2. reflexivity.
  - apply prepare_linux_inv in E as (st1 & st2 & E & Hs1 & ->).
    apply linux_prep_effects in E as [Hs _]. cbv zeta in Hs. rewrite Hs, get_touch.
    unfold linux_settings. rewrite get_insert_ne by discriminate.
    rewrite get_insert_eq, !Hs1. rewrite Habs. reflexivity.
Qed.

Lemma linux_install_path_matches_package_witness :
  exists l st',
    prepare (quiet_host scenario_settings) Linux release_flags "proj"
      (state_with scenario_settings) = (Ok ("dist", "foo", l), st') /\
    binaryPath Linux l "foo" = Path.join Linux (pathPackage l) "opt/foo/foo" /\
    get "linux_executable_path" (settings st') = "/opt/foo/foo".
Proof.
  destruct (prepare (quiet_host scenario_settings) Linux release_flags "proj"
              (state_with scenario_settings)) as [o st'] eqn:E.
  assert (Ho : exists l, o = Ok ("dist", "foo", l)).
  { replace o with (fst (o, st')) by reflexivity. rewrite <- E.
    vm_compute. eexists. reflexivity. }
  destruct Ho as (l & ->). exists l, st'. split; [reflexivity|].
  destruct (linux_install_path_matches_package _ _ _ _ _ _ _ _ E) as (Hb & _ & Hp);
    try reflexivity.
  split; [exact Hb|exact Hp].
Defined.

(** *** The macOS signing command *)

Lemma concat_cons (sep x : string) (xs : list string) :
  String.concat sep (x :: xs)
  = x ++ (match xs with [] => "" | _ => sep end) ++ String.concat sep xs.
Proof. destruct xs; simpl; [rewrite app_nil_l, app_nil_r|]; reflexivity. Qed.

Lemma touch_idem (k : string) (m : Settings) : touch k (touch k m) = touch k m.
Proof.
  unfold touch. destruct (m !! k) eqn:E; [rewrite E; reflexivity|].
  rewrite lookup_insert_eq. reflexivity.
Qed.

(** what the loop over the paths to sign appends to the command *)
Lemma sign_paths_spec (H : Host) (pl : Platform) (ent : string) (l : Locals)
    (paths : list string) :
  forall (i : nat) (acc : string) (st : State),
    let seg p := codesign ent (get "mac_sign" (settings st))
                   ++ pathToString H (Path.join pl (pathResources l) p) in
    sign_paths H pl i paths ent l acc st
    = (Ok (acc ++ (match paths with [] => "" | _ => if (0 <? i)%nat then ";" else "" end)
               ++ String.concat ";" (map seg paths)),
       {| settings := match paths with [] => settings st | _ => touch "mac_sign" (settings st) end;
          trace := trace st |}).
Proof.
  induction paths as [|p rest IH]; intros i acc st seg.
  - simpl. rewrite app_nil_l, app_nil_r. destruct st; reflexivity.
  - cbn [sign_paths]. unfold bind at 1. unfold settings_at at 1.
    rewrite IH. cbn [settings trace map]. rewrite concat_cons.
    assert (Hseg : forall q, codesign ent (get "mac_sign" (touch "mac_sign" (settings st)))
                     ++ pathToString H (Path.join pl (pathResources l) q) = seg q)
      by (intros q; subst seg; cbv beta; rewrite get_touch; reflexivity).
    rewrite (map_ext _ seg) by exact Hseg.
    f_equal.
    + f_equal. fold (seg p). rewrite !app_assoc. f_equal. f_equal. f_equal.
      destruct rest; reflexivity.
    + f_equal. destruct rest; [reflexivity|].
      apply touch_idem.
Qed.

(** X12.  "MacOS Code Signing" runs one command that signs, in this order,
    every path of [mac_sign_paths] (resolved in the resources directory),
    the binary and the package, the invocations separated by semicolons;
    without [mac_sign_paths] the command begins with a semicolon.  With
    [-me] the entitlements file is first copied from the project directory
    and every invocation names it.  A nonzero exit code of the command is
    reported as "Unable to sign" and becomes the exit code of the run. *)
Theorem mac_sign_command_signs_paths_binary_package
    (H : Host) (pl : Platform) (f : Flags) (target executable : path) (l : Locals)
    (st : State) :
  let s := settings st in
  let j := Path.join pl in
  let entPath := j (pathResourcesRelativeToUserBuild l) "entitlements.plist" in
  let copy := CopyFile (j target (get "mac_entitlements" s)) entPath in
  let ent := if flagEntitlements f then " --entitlements " ++ pathToString H entPath else "" in
  let sign p := codesign ent (get "mac_sign" s) ++ pathToString H p in
  let paths :=
    if Str.empty (get "mac_sign_paths" s) then []
    else split H (get "mac_sign_paths" s) ";"%char in
  let cmd :=
    String.concat ";" (map (fun p => sign (j (pathResources l) p)) paths)
      ++ ";" ++ sign (j (pathBin l) executable)
      ++ ";" ++ sign (pathPackage l) in
  let t := (trace st ++ (if flagEntitlements f then [Fs copy] else []))%list in
  let r := exec H t cmd in
  let res := mac_sign_step H pl f target executable l st in
  (flagEntitlements f = true -> throws H (trace st) copy = false) ->
  (exitCode r = 0 ->
     fst res = Ok tt /\
     trace (snd res) = (t ++ [Exec cmd; Log "finished code signing"])%list) /\
  (exitCode r <> 0 ->
     fst res = Exit (exitCode r) /\
     trace (snd res) = (t ++ [Exec cmd; Log "Unable to sign"])%list).
Proof.
  intros s j entPath copy ent sign paths cmd t r res Hcopy.
  assert (E : exists s',
    res = bind (when (negb (exitCode r =? 0))
                  (bind (log "Unable to sign") (fun _ => exit (exitCode r))))
            (fun _ => log "finished code signing")
            {| settings := s'; trace := (t ++ [Exec cmd])%list |}).
  { subst res r t cmd paths sign ent copy entPath j s.
    assert (Hpre : forall xs : list string,
              match xs with [] => "" | _ :: _ => if (0 <? 0)%nat then ";" else "" end = "")
      by (intros []; reflexivity).
    unfold mac_sign_step.
    destruct (flagEntitlements f).
    - specialize (Hcopy eq_refl).
      unfold bind at 1. unfold bind at 1. unfold settings_at at 1.
      unfold bind at 1. unfold fs at 1. cbn [trace settings]. rewrite Hcopy.
      unfold emit at 1, ret at 1. cbn [trace settings].
      unfold bind at 1. unfold settings_at at 1. cbn [trace settings]. rewrite !get_touch.
      destruct (Str.empty (get "mac_sign_paths" (settings st))); cbn [negb].
      + unfold bind at 1. unfold ret at 1.
        unfold bind at 1. unfold settings_at at 1. cbn [trace settings].
        rewrite !get_touch.
        unfold bind at 1. unfold exec_ at 1. cbn [trace settings map String.concat].
        rewrite ?app_assoc. eexists. reflexivity.
      + unfold bind at 1. rewrite sign_paths_spec. cbn [trace settings].
        rewrite Hpre, !get_touch, !app_nil_l.
        unfold bind at 1. unfold settings_at at 1. cbn [trace settings].
        assert (Hms : forall m : Settings,
                  get "mac_sign"
                    (match split H (get "mac_sign_paths" (settings st)) ";"%char with
                     | [] => touch "mac_sign_paths" m
                     | _ :: _ => touch "mac_sign" (touch "mac_sign_paths" m)
                     end) = get "mac_sign" m)
          by (intros m; destruct (split H _ _); rewrite !get_touch; reflexivity).
        rewrite Hms, !get_touch.
        unfold bind at 1. unfold exec_ at 1. cbn [trace settings].
        rewrite ?app_assoc. eexists. reflexivity.
    - clear Hcopy. unfold bind at 1. unfold ret at 1.
      unfold bind at 1. unfold settings_at at 1. cbn [trace settings].
      rewrite List.app_nil_r.
      destruct (Str.empty (get "mac_sign_paths" (settings st))); cbn [negb].
      + unfold bind at 1. unfold ret at 1.
        unfold bind at 1. unfold settings_at at 1. cbn [trace settings].
        rewrite !get_touch.
        unfold bind at 1. unfold exec_ at 1. cbn [trace settings map String.concat].
        rewrite ?app_assoc. eexists. reflexivity.
      + unfold bind at 1. rewrite sign_paths_spec. cbn [trace settings].
        rewrite Hpre, !get_touch, !app_nil_l.
        unfold bind at 1. unfold settings_at at 1. cbn [trace settings].
        assert (Hms : forall m : Settings,
                  get "mac_sign"
                    (match split H (get "mac_sign_paths" (settings st)) ";"%char with
                     | [] => touch "mac_sign_paths" m
                     | _ :: _ => touch "mac_sign" (touch "mac_sign_paths" m)
                     end) = get "mac_sign" m)
          by (intros m; destruct (split H _ _); rewrite !get_touch; reflexivity).
        rewrite Hms.
        unfold bind at 1. unfold exec_ at 1. cbn [trace settings].
        rewrite ?app_assoc. eexists. reflexivity. }
  destruct E as (s' & E). rewrite E. split.
  - intros Hz. rewrite Hz. unfold bind, when, log, emit. simpl.
    rewrite <- List.app_assoc. split; reflexivity.
  - intros Hnz. apply Z.eqb_neq in Hnz. rewrite Hnz. unfold bind, when, log, emit, exit. simpl.
    rewrite <- List.app_assoc. split; reflexivity.
Qed.

Lemma mac_sign_command_signs_paths_binary_package_witness :
  fst (mac_sign_step (quiet_host scenario_settings) Mac sign_flags "proj" "foo"
         scenario_locals (state_with scenario_settings)) = Ok tt.
Proof.
  apply (mac_sign_command_signs_paths_binary_package (quiet_host scenario_settings) Mac
           sign_flags "proj" "foo" scenario_locals (state_with scenario_settings)).
  - discriminate.
  - reflexivity.
Defined.

(** *** The outcome of the notarization *)

Lemma rounds_snoc (n : nat) (q : string) :
  (rounds n q ++ round q = round q ++ rounds n q)%list.
Proof.
  induction n as [|n IH]; [rewrite List.app_nil_r; reflexivity|].
  cbn [rounds]. rewrite <- List.app_assoc, IH. reflexivity.
Qed.

Section PollVerdict.

Variable H : Host.
Variables uuid username password : string.

Local Abbreviation query := (notarizeStatusCommand uuid username password).

(** the status phrase of the query made after [i] rounds *)
Local Abbreviation status_after t i :=
  (Regex.capture1 re_status
     (output (exec H (t ++ rounds i query ++ [Sleep 6144])%list query))).

Lemma poll_until_verdict :
  Str.empty uuid = false ->
  forall (k fuel : nat) (requests : Z) (st : State) (v : Verdict),
    0 <= requests -> requests + Z.of_nat k <= 1023 -> (k < fuel)%nat ->
    (forall i, (i < k)%nat -> Str.found "in progress" (status_after (trace st) i) = true) ->
    classify_status (status_after (trace st) k) = v ->
    v = Success \/ v = Failed ->
    poll H fuel uuid username password requests st
    = (Ok tt,
       add_event st (rounds k query
                       ++ [Sleep 6144; Exec query; Log (verdict_report v)])).
Proof.
  intros Hne. induction k as [|k IH]; intros fuel requests st v H0 Hreq Hfuel Hprog Hv Hsf.
  - destruct fuel as [|fuel]; [lia|]. simpl. rewrite Hne.
    unfold bind. rewrite poll_body_eq by lia. cbv zeta.
    cbn [rounds List.app] in Hv. rewrite Hv.
    destruct Hsf as [-> | ->]; reflexivity.
  - destruct fuel as [|fuel]; [lia|]. simpl. rewrite Hne.
    unfold bind. rewrite poll_body_eq by lia. cbv zeta.
    pose proof (Hprog O ltac:(lia)) as H1. cbn [rounds List.app] in H1.
    unfold classify_status. rewrite H1.
    rewrite (IH fuel (requests + 1) _ v); try lia; try assumption.
    + rewrite add_event_app. reflexivity.
    + intros i Hi. specialize (Hprog (S i) ltac:(lia)).
      cbn [add_event trace]. cbn [rounds] in Hprog.
      rewrite <- !List.app_assoc in *. exact Hprog.
    + cbn [add_event trace]. cbn [rounds] in Hv.
      rewrite <- !List.app_assoc in *. exact Hv.
Qed.

End PollVerdict.

(** X14.  The notarization step ends the run only when the submission
    fails (with the exit code of the command, before any status query),
    on a rejection or on the timeout.  When the submission succeeds and
    hands out a request identifier, and the status is "in progress" for
    [k] queries and then successful or anything else that is not a
    rejection, the step makes exactly these [k + 1] queries, reports the
    verdict and completes with "finished notarization": a notarization
    that merely failed does not stop the run. *)
Theorem notarize_completes_unless_rejected
    (H : Host) (pathToArchive : path) (st : State) (k : nat) (v : Verdict) :
  let username := getEnv H (trace st) "APPLE_ID" in
  let password := getEnv H (trace st) "APPLE_ID_PASSWORD" in
  let submit :=
    notarizeCommand H username password (get "bundle_identifier" (settings st))
      pathToArchive in
  let r := exec H (trace st) submit in
  let uuid := Regex.capture1 re_request_uuid (output r) in
  let query := notarizeStatusCommand uuid username password in
  let t0 := (trace st ++ [Exec submit; Log "polling for notarization"])%list in
  let status i :=
    Regex.capture1 re_status
      (output (exec H (t0 ++ rounds i query ++ [Sleep 6144])%list query)) in
  let res := notarize H pathToArchive st in
  (exitCode r <> 0 ->
     fst res = Exit (exitCode r) /\
     trace (snd res) = (trace st ++ [Exec submit; Log "Unable to notarize"])%list) /\
  (exitCode r = 0 -> uuid <> "" -> (k <= 1023)%nat ->
   (forall i, (i < k)%nat -> Str.found "in progress" (status i) = true) ->
   classify_status (status k) = v -> v = Success \/ v = Failed ->
     fst res = Ok tt /\
     trace (snd res)
     = (t0 ++ rounds k query
           ++ [Sleep 6144; Exec query; Log (verdict_report v);
               Log "finished notarization"])%list).
Proof.
  intros username password submit r uuid query t0 status res.
  assert (E : res
    = bind (when (negb (exitCode r =? 0))
              (bind (log "Unable to notarize") (fun _ => exit (exitCode r))))
        (fun _ =>
           bind (log "polling for notarization") (fun _ =>
           bind (poll H poll_fuel uuid username password 0) (fun _ =>
           log "finished notarization")))
        {| settings := touch "bundle_identifier" (settings st);
           trace := (trace st ++ [Exec submit])%list |}).
  { subst res. unfold notarize. unfold bind at 1. unfold getEnv_ at 1, ask at 1.
    unfold bind at 1. unfold getEnv_ at 1, ask at 1.
    unfold bind at 1. unfold settings_at at 1. cbn [trace settings].
    unfold bind at 1. unfold exec_ at 1. cbn [trace settings]. reflexivity. }
  rewrite E. clear E. split.
  - intros Hnz. apply Z.eqb_neq in Hnz. rewrite Hnz. unfold bind, when, log, emit, exit. simpl.
    rewrite <- List.app_assoc. split; reflexivity.
  - intros Hz Hu Hk Hprog Hv Hsf. rewrite Hz.
    assert (Hne : Str.empty uuid = false) by (destruct uuid; [contradiction|reflexivity]).
    assert (E : forall s1,
      bind (when (negb (0 =? 0))
              (bind (log "Unable to notarize") (fun _ => exit 0)))
        (fun _ =>
           bind (log "polling for notarization") (fun _ =>
           bind (poll H poll_fuel uuid username password 0) (fun _ =>
           log "finished notarization")))
        {| settings := s1; trace := (trace st ++ [Exec submit])%list |}
      = (Ok tt,
         {| settings := s1;
            trace := (t0 ++ rounds k query
                        ++ [Sleep 6144; Exec query; Log (verdict_report v);
                            Log "finished notarization"])%list |})).
    { intros s1. unfold bind at 1. unfold when at 1. cbn [Z.eqb negb]. unfold ret at 1.
      unfold bind at 1. unfold log at 1, emit at 1. cbn [trace settings].
      rewrite <- (List.app_assoc (trace st) [Exec submit] _). cbn [List.app]. fold t0.
      unfold bind.
      rewrite (poll_until_verdict H uuid username password Hne k poll_fuel 0 _ v);
        try assumption; try (unfold poll_fuel; lia).
      unfold log, emit, add_event. cbn [trace settings].
      rewrite <- !List.app_assoc. cbn [List.app]. reflexivity. }
    rewrite E. split; reflexivity.
Qed.

Lemma notarize_completes_unless_rejected_witness :
  fst (notarize (notary_host success_output) "proj/dist/foo.zip"
         (state_with scenario_settings)) = Ok tt.
Proof.
  apply (notarize_completes_unless_rejected (notary_host success_output) "proj/dist/foo.zip"
           (state_with scenario_settings) 0 Success).
  - reflexivity.
  - vm_compute. discriminate.
  - lia.
  - intros i Hi. lia.
  - vm_compute. reflexivity.
  - left. reflexivity.
Defined.

(** *** The archive submitted for notarization *)

(** the history after [bind m k] extends the history after [m] *)
Lemma trace_bind_extends {A B} (P : Event -> Prop) (m : M A) (k : A -> M B) (st : State) :
  (forall a, emits P (k a)) ->
  exists new, trace (snd (bind m k st)) = (trace (snd (m st)) ++ new)%list.
Proof.
  intros Hk. unfold bind. destruct (m st) as [[a| | |] st1]; cbn [snd];
    try (exists []; rewrite List.app_nil_r; reflexivity).
  destruct (Hk a st1) as (new & Hn & _). exists new. exact Hn.
Qed.

Lemma notarize_first_event (H : Host) (archive : path) (st : State) :
  exists rest,
    trace (snd (notarize H archive st))
    = (trace st ++
       Exec (notarizeCommand H (getEnv H (trace st) "APPLE_ID")
               (getEnv H (trace st) "APPLE_ID_PASSWORD")
               (get "bundle_identifier" (settings st)) archive) :: rest)%list.
Proof.
  unfold notarize. unfold bind at 1. unfold getEnv_ at 1, ask at 1.
  unfold bind at 1. unfold getEnv_ at 1, ask at 1.
  unfold bind at 1. unfold settings_at at 1. cbn [trace settings].
  match goal with
  | |- context [bind (exec_ H ?c) ?k ?s] =>
      destruct (trace_bind_extends (fun _ => True) (exec_ H c) k s) as (new & Hn)
  end.
  - intros r. emits_with ltac:(exact I).
    apply emits_kinds_poll; intros; exact I.
  - rewrite Hn. unfold exec_. cbn [snd trace]. rewrite <- List.app_assoc.
    exists new. reflexivity.
Qed.

(** X13.  On macOS the archive submitted for notarization is the one the
    packaging step of the same run has written,
    <target>/<output>/<executable>.zip; a run that notarizes without
    packaging ([-mn] without [-p]) submits the empty path.  The packaging
    step itself ends the run with exit code 1 when ditto fails. *)
Theorem notarization_submits_the_packaged_archive
    (H : Host) (f : Flags) (target pathOutput executable : path) (l : Locals)
    (st : State) :
  flagCodeSign f = false -> flagShouldNotarize f = true ->
  let s := settings st in
  let archive :=
    Path.join Mac (Path.join Mac target pathOutput) (get "executable" s ++ ".zip") in
  let zip :=
    "ditto -c -k --sequesterRsrc --keepParent " ++ pathToString H (pathPackage l)
      ++ " " ++ pathToString H archive in
  let submit t a :=
    notarizeCommand H (getEnv H t "APPLE_ID") (getEnv H t "APPLE_ID_PASSWORD")
      (get "bundle_identifier" s) a in
  let res := release_phase H Mac f target pathOutput executable l st in
  (flagShouldPackage f = false ->
     exists rest, trace (snd res) = (trace st ++ Exec (submit (trace st) "") :: rest)%list) /\
  (flagShouldPackage f = true -> system H (trace st) zip = 0 ->
     let t := (trace st ++ [System zip; Log "craeted zip artifact"])%list in
     exists rest, trace (snd res) = (t ++ Exec (submit t archive) :: rest)%list) /\
  (flagShouldPackage f = true -> system H (trace st) zip <> 0 ->
     fst res = Exit 1 /\
     trace (snd res)
     = (trace st ++ [System zip; Log "error: failed to create zip for notarization"])%list).
Proof.
  intros Hc Hn s archive zip submit res.
  assert (Htail : forall a : unit,
            emits (fun _ => True) (when (flagShouldRun f) (run_step H Mac l))).
  { intros _. unfold run_step. emits_with ltac:(exact I). }
  assert (E0 : res
    = bind (if flagShouldPackage f then mac_package H Mac target pathOutput l
            else ret EmptyString)
        (fun a => bind (notarize H a) (fun _ => when (flagShouldRun f) (run_step H Mac l)))
        st).
  { subst res. unfold release_phase. rewrite Hc, Hn. cbn [andb mac linux win].
    rewrite !andb_false_r, andb_true_r. reflexivity. }
  rewrite E0. clear E0.
  assert (E : mac_package H Mac target pathOutput l st
              = bind (when (negb (system H (trace st) zip =? 0))
                        (bind (log "error: failed to create zip for notarization")
                           (fun _ => exit 1)))
                  (fun _ => bind (log "craeted zip artifact") (fun _ => ret archive))
                  {| settings := touch "executable" (settings st);
                     trace := (trace st ++ [System zip])%list |}).
  { unfold mac_package. unfold bind at 1. unfold settings_at at 1.
    unfold bind at 1. unfold system_ at 1. cbn [trace settings]. reflexivity. }
  split; [|split].
  - intros ->. unfold bind at 1. unfold ret at 1.
    destruct (trace_bind_extends (fun _ => True) (notarize H "")
                (fun _ => when (flagShouldRun f) (run_step H Mac l)) st Htail)
      as (new & Hnew).
    destruct (notarize_first_event H "" st) as (rest & Hrest).
    rewrite Hnew, Hrest. rewrite <- List.app_assoc. eexists. reflexivity.
  - intros -> Hz t.
    assert (E1 : mac_package H Mac target pathOutput l st
                 = (Ok archive,
                    {| settings := touch "executable" (settings st); trace := t |})).
    { rewrite E, Hz. unfold bind, when, log, emit, ret. cbn [Z.eqb negb trace settings].
      subst t. rewrite <- List.app_assoc. reflexivity. }
    unfold bind at 1. rewrite E1.
    match goal with
    | |- context [bind (notarize H ?a) ?k ?s0] =>
        destruct (trace_bind_extends (fun _ => True) (notarize H a) k s0 Htail)
          as (new & Hnew);
        destruct (notarize_first_event H a s0) as (rest & Hrest)
    end.
    rewrite Hnew, Hrest. cbn [trace settings]. rewrite get_touch.
    rewrite <- List.app_assoc. eexists. reflexivity.
  - intros -> Hnz. apply Z.eqb_neq in Hnz.
    assert (E2 : mac_package H Mac target pathOutput l st
                 = (Exit 1,
                    {| settings := touch "executable" (settings st);
                       trace := (trace st ++ [System zip;
                                  Log "error: failed to create zip for notarization"])%list |})).
    { rewrite E, Hnz. unfold bind, when, log, emit, exit. cbn [negb trace settings].
      rewrite <- List.app_assoc. reflexivity. }
    unfold bind. rewrite E2. split; reflexivity.
Qed.

Lemma notarization_submits_the_packaged_archive_witness :
  exists rest,
    trace (snd (release_phase (notary_host no_uuid_output) Mac notarize_and_run_flags
                  "proj" "dist" "foo" scenario_locals (state_with scenario_settings)))
    = ([] ++ Exec (notarizeCommand (notary_host no_uuid_output) "" "" "" "") :: rest)%list.
Proof.
  apply (notarization_submits_the_packaged_archive (notary_host no_uuid_output)
           notarize_and_run_flags "proj" "dist" "foo" scenario_locals
           (state_with scenario_settings)); reflexivity.
Defined.

(** *** What the regular expressions extract *)

Lemma match_here_lits (lit s : string) (rest : list Regex.item) :
  Regex.match_here (Regex.lits lit ++ rest)%list (lit ++ s) = Regex.match_here rest s.
Proof.
  induction lit as [|c lit IH]; [reflexivity|].
  rewrite app_cons. cbn [Regex.lits list_ascii_of_string List.map List.app Regex.match_here].
  rewrite Ascii.eqb_refl. exact IH.
Qed.

Lemma match_here_group_loop (rest : list Regex.item) (s : string) :
  Regex.match_here (Regex.GroupLazyPlusAny :: rest) s = group_loop rest EmptyString s.
Proof. reflexivity. Qed.

Lemma group_loop_step (rest : list Regex.item) (acc : string) (c : ascii) (s : string) :
  group_loop rest acc (String c s)
  = if Regex.is_line_terminator c then None
    else match Regex.match_here rest s with
         | Some _ => Some (Some (acc ++ String c EmptyString))
         | None => group_loop rest (acc ++ String c EmptyString) s
         end.
Proof. reflexivity. Qed.

(** the lazy group followed by a line feed captures up to the first line
    feed *)
Lemma match_here_group (text post : string) :
  text <> "" -> all_chars not_line_terminator text = true ->
  Regex.match_here (Regex.GroupLazyPlusAny :: Regex.lits nl) (text ++ nl ++ post)
  = Some (Some text).
Proof.
  intros Hne Hall. rewrite match_here_group_loop.
  enough (Hacc : forall acc,
            group_loop (Regex.lits nl) acc (text ++ nl ++ post) = Some (Some (acc ++ text)))
    by (rewrite Hacc; reflexivity).
  induction text as [|c text IH]; [contradiction|]. intros acc.
  rewrite app_cons, group_loop_step.
  cbn [all_chars] in Hall. apply andb_true_iff in Hall as [Hc Hall].
  unfold not_line_terminator in Hc. apply negb_true_iff in Hc. rewrite Hc.
  destruct text as [|c' text].
  - rewrite app_nil_l. change (nl ++ post) with (String "010"%char post).
    cbn [Regex.lits nl list_ascii_of_string List.map Regex.match_here].
    rewrite Ascii.eqb_refl. reflexivity.
  - assert (Hc' : Ascii.eqb "010"%char c' = false).
    { cbn [all_chars] in Hall. apply andb_true_iff in Hall as [Hc' _].
      unfold not_line_terminator, Regex.is_line_terminator in Hc'.
      apply negb_true_iff, orb_false_elim in Hc' as [Hc' _].
      rewrite Ascii.eqb_sym. exact Hc'. }
    assert (Hno : Regex.match_here (Regex.lits nl) (String c' text ++ nl ++ post) = None).
    { rewrite app_cons.
      cbn [Regex.lits nl list_ascii_of_string List.map Regex.match_here].
      rewrite Hc'. reflexivity. }
    rewrite Hno, IH by (discriminate || exact Hall).
    rewrite app_assoc. reflexivity.
Qed.

(** no match of a pattern that begins with a line feed starts inside a
    text without line feeds *)
Lemma regex_search_skips (rest : list Regex.item) (pre s : string) :
  all_chars not_lf pre = true ->
  forall r, Regex.match_here (Regex.lits nl ++ rest)%list s = Some r ->
  Regex.regex_search (Regex.lits nl ++ rest)%list (pre ++ s) = Some r.
Proof.
  intros Hpre r Hs. induction pre as [|c pre IH].
  - rewrite app_nil_l. destruct s; simpl in *; rewrite Hs; reflexivity.
  - cbn [all_chars] in Hpre. apply andb_true_iff in Hpre as [Hc Hpre].
    rewrite app_cons. cbn [Regex.regex_search].
    assert (Hno : Regex.match_here (Regex.lits nl ++ rest)%list (String c (pre ++ s)) = None).
    { cbn [Regex.lits nl list_ascii_of_string List.map List.app Regex.match_here].
      unfold not_lf in Hc. apply negb_true_iff in Hc. rewrite Ascii.eqb_sym, Hc. reflexivity. }
    rewrite Hno. apply IH. exact Hpre.
Qed.

(** X15.  When the first line break of the output of the submission is
    followed by "RequestUUID = ", an identifier and a line break, the
    identifier being not empty and free of carriage returns and line
    feeds, the request identifier extracted is exactly that identifier,
    whatever stands on the first line and after the identifier's line. *)
Theorem request_uuid_is_rest_of_line (pre id post : string) :
  all_chars not_lf pre = true ->
  id <> "" -> all_chars not_line_terminator id = true ->
  Regex.capture1 re_request_uuid (pre ++ nl ++ "RequestUUID = " ++ id ++ nl ++ post) = id.
Proof.
  intros Hpre Hne Hid. unfold Regex.capture1, re_request_uuid.
  rewrite (regex_search_skips _ pre _ Hpre (Some id)); [reflexivity|].
  rewrite match_here_lits, match_here_lits. apply match_here_group; assumption.
Qed.

Lemma match_here_star_loop (c : ascii) (rest : list Regex.item) (s : string) :
  Regex.match_here (Regex.Star c :: rest) s = star_loop c rest s.
Proof. reflexivity. Qed.

(** the star takes every leading space when the rest of the pattern
    matches behind them *)
Lemma match_here_spaces (rest : list Regex.item) (n : nat) (c0 : ascii) (s : string)
    (r : option string) :
  Ascii.eqb " "%char c0 = false ->
  Regex.match_here rest (String c0 s) = Some r ->
  Regex.match_here (Regex.Star " "%char :: rest) (spaces n ++ String c0 s) = Some r.
Proof.
  intros Hc Hr. rewrite match_here_star_loop.
  induction n as [|n IH].
  - rewrite app_nil_l. cbn [star_loop]. rewrite Hc. exact Hr.
  - cbn [spaces]. rewrite app_cons. cbn [star_loop]. rewrite Ascii.eqb_refl.
    cbn [star_loop] in IH. rewrite IH. reflexivity.
Qed.

Lemma regex_search_single_line (rest : list Regex.item) (line : string) :
  all_chars not_lf line = true ->
  Regex.match_here rest "" = None ->
  Regex.regex_search (Regex.lits nl ++ rest)%list (line ++ nl) = None.
Proof.
  intros Hline Hrest. induction line as [|c line IH].
  - rewrite app_nil_l. unfold nl.
    cbn [Regex.regex_search Regex.lits list_ascii_of_string List.map List.app
         Regex.match_here].
    rewrite Ascii.eqb_refl, Hrest. reflexivity.
  - cbn [all_chars] in Hline. apply andb_true_iff in Hline as [Hc Hline].
    rewrite app_cons. cbn [Regex.regex_search].
    assert (Hno : Regex.match_here (Regex.lits nl ++ rest)%list (String c (line ++ nl)) = None).
    { cbn [Regex.lits nl list_ascii_of_string List.map List.app Regex.match_here].
      unfold not_lf in Hc. apply negb_true_iff in Hc. rewrite Ascii.eqb_sym, Hc. reflexivity. }
    rewrite Hno. apply IH. exact Hline.
Qed.

(** X16.  When the first line break of the output of a status query is
    followed by any number of spaces, "Status: ", a phrase and a line
    break, the phrase being not empty and free of carriage returns and
    line feeds, the status extracted is exactly that phrase.  An output
    that consists of a single line has no status phrase, whatever the line
    says, and is therefore classified as a failed notarization. *)
Theorem status_is_rest_of_line (pre text post : string) (n : nat) :
  all_chars not_lf pre = true ->
  (text <> "" -> all_chars not_line_terminator text = true ->
   Regex.capture1 re_status (pre ++ nl ++ spaces n ++ "Status: " ++ text ++ nl ++ post)
   = text) /\
  (Regex.capture1 re_status (pre ++ nl) = "" /\
   classify_status (Regex.capture1 re_status (pre ++ nl)) = Failed).
Proof.
  intros Hpre. split.
  - intros Hne Htext. unfold Regex.capture1, re_status.
    rewrite (regex_search_skips _ pre _ Hpre (Some text)); [reflexivity|].
    rewrite match_here_lits.
    change ("Status: " ++ text ++ nl ++ post)
      with (String "S"%char ("tatus: " ++ text ++ nl ++ post)).
    apply match_here_spaces; [reflexivity|].
    change (String "S"%char ("tatus: " ++ text ++ nl ++ post))
      with ("Status: " ++ text ++ nl ++ post).
    rewrite match_here_lits. apply match_here_group; assumption.
  - assert (E : Regex.capture1 re_status (pre ++ nl) = "").
    { unfold Regex.capture1, re_status.
      rewrite regex_search_single_line; [reflexivity|exact Hpre|reflexivity]. }
    rewrite E. split; reflexivity.
Qed.

Lemma status_is_rest_of_line_witness :
  Regex.capture1 re_status
    ("No errors getting notarization info." ++ nl ++ spaces 3 ++ "Status: "
       ++ "in progress" ++ nl ++ "") = "in progress".
Proof.
  apply (status_is_rest_of_line "No errors getting notarization info." "in progress" "" 3).
  - reflexivity.
  - discriminate.
  - reflexivity.
Defined.

Lemma request_uuid_is_rest_of_line_witness :
  Regex.capture1 re_request_uuid
    ("No errors uploading." ++ nl ++ "RequestUUID = " ++ "1234-ABCD" ++ nl ++ "") = "1234-ABCD".
Proof.
  apply (request_uuid_is_rest_of_line "No errors uploading." "1234-ABCD" "").
  - reflexivity.
  - discriminate.
  - reflexivity.
Defined.

(** *** The settings a run writes *)

Ltac keeps :=
  repeat first
    [ apply preserves_bind; [|intros ?]
    | apply preserves_ret | apply preserves_exit | apply preserves_emit
    | apply preserves_log | apply preserves_writeFile | apply preserves_ask
    | apply preserves_getEnv | apply preserves_exec | apply preserves_system
    | apply preserves_fs | apply preserves_settings_at | apply preserves_settings_all
    | apply preserves_settings_set; congruence
    | match goal with
      | |- preserves _ (when ?b _) => unfold when; destruct b
      | |- preserves _ (if ?b then _ else _) => destruct b
      | |- preserves _ (let _ := _ in _) => cbv zeta
      end ].

(** X17.  Whatever a run does and however it ends, the only settings whose
    value it changes are: name, title and executable (the debug suffix,
    unless [-xd] is given), revision (on Windows), and
    linux_executable_path and linux_icon_path (on Linux).  Every other
    key reads the same at the end as after parsing. *)
Theorem pipeline_changes_only_its_own_keys
    (H : Host) (pl : Platform) (f : Flags) (target : path) (_settings : string)
    (st : State) (k : string) :
  untouched_key pl f k ->
  get k (settings (snd (pipeline H pl f target _settings st))) = get k (settings st).
Proof.
  intros (Hdbg & Hrev & Hlin).
  assert (Hd : preserves k (debug_suffix f)).
  { unfold debug_suffix, settings_append.
    destruct (flagDebugMode f) eqn:Ed; cbn [when]; [|apply preserves_ret].
    assert (k <> "name" /\ k <> "title" /\ k <> "executable") as (N1 & N2 & N3).
    { repeat split; intros ->; discriminate Hdbg; auto. }
    keeps. }
  assert (Hp : preserves k (prepare H pl f target)).
  { unfold prepare. destruct pl; cbn [mac linux win].
    - unfold mac_prep, getCxxFlags. keeps.
    - assert (k <> "linux_executable_path" /\ k <> "linux_icon_path") as (N1 & N2).
      { split; intros ->; apply Hlin; auto. }
      unfold linux_prep, getCxxFlags. keeps.
    - assert (N1 : k <> "revision") by (intros ->; apply Hrev; auto).
      unfold win_prep. keeps. }
  revert st. change (preserves k (pipeline H pl f target _settings)).
  unfold pipeline.
  apply preserves_bind; [exact Hd|intros _].
  apply preserves_bind; [exact Hp|intros [[po e] l]].
  apply preserves_bind; [apply preserves_user_build|intros _].
  apply preserves_bind; [apply preserves_compile|intros _].
  apply preserves_bind; [apply preserves_release_phase|intros _].
  apply preserves_ret.
Qed.

Lemma pipeline_changes_only_its_own_keys_witness :
  get "revision"
    (settings (snd (pipeline (quiet_host scenario_settings) Linux initial_flags "proj" ""
                      (state_with scenario_settings))))
  = get "revision" (settings (state_with scenario_settings)).
Proof.
  apply (pipeline_changes_only_its_own_keys (quiet_host scenario_settings) Linux
           initial_flags "proj" "" (state_with scenario_settings) "revision").
  repeat split; try discriminate; intros [E|[E|E]] || intros [E|E]; discriminate E.
Defined.

(** *** Windows code signing *)

(** X18.  "Windows Code Signing" needs the environment variable SIGNTOOL:
    when it is empty the run ends with exit code 1 and no command has been
    executed.  Otherwise signtool is run on <package>.appx with the
    password of CSC_KEY_PASSWORD; a nonzero exit code is reported together
    with the package path and the output of the tool, and becomes the exit
    code of the run. *)
Theorem win_sign_requires_signtool (H : Host) (l : Locals) (st : State) :
  let tool := getEnv H (trace st) "SIGNTOOL" in
  let cmd :=
    dq ++ tool ++ dq ++ " sign" ++ " /debug"
      ++ " /tr http://timestamp.digicert.com" ++ " /td sha256" ++ " /fd sha256"
      ++ " /f cert.pfx" ++ " /p " ++ getEnv H (trace st) "CSC_KEY_PASSWORD" ++ " "
      ++ pathToString H (pathPackage l) ++ ".appx" ++ " 2>&1 | tee sign.log" in
  let r := exec H (trace st) cmd in
  let res := win_sign H l st in
  (tool = "" ->
     res = (Exit 1,
            add_event st
              [Log "missing env var SIGNTOOL, should be the path to the Windows SDK signtool.exe binary."])) /\
  (tool <> "" -> exitCode r = 0 -> res = (Ok tt, add_event st [Exec cmd])) /\
  (tool <> "" -> exitCode r <> 0 ->
     res = (Exit (exitCode r),
            add_event st
              [Exec cmd; Log "Unable to sign"; Log "---"; Log (pathPackage l); Log "---";
               Log "---"; Log (output r); Log "---"])).
Proof.
  intros tool cmd r res. subst res r cmd tool. unfold win_sign.
  split; [|split].
  - intros E. unfold bind at 1. unfold getEnv_ at 1, ask at 1. rewrite E. reflexivity.
  - intros Hne Hz.
    assert (He : Str.empty (getEnv H (trace st) "SIGNTOOL") = false)
      by (destruct (getEnv H (trace st) "SIGNTOOL"); [contradiction|reflexivity]).
    unfold bind at 1. unfold getEnv_ at 1, ask at 1.
    unfold bind at 1. unfold when at 1. rewrite He. unfold ret at 1.
    unfold bind at 1. unfold getEnv_ at 1, ask at 1.
    unfold bind at 1. unfold exec_ at 1. cbn [trace settings].
    rewrite Hz. reflexivity.
  - intros Hne Hnz.
    assert (He : Str.empty (getEnv H (trace st) "SIGNTOOL") = false)
      by (destruct (getEnv H (trace st) "SIGNTOOL"); [contradiction|reflexivity]).
    apply Z.eqb_neq in Hnz.
    unfold bind at 1. unfold getEnv_ at 1, ask at 1.
    unfold bind at 1. unfold when at 1. rewrite He. unfold ret at 1.
    unfold bind at 1. unfold getEnv_ at 1, ask at 1.
    unfold bind at 1. unfold exec_ at 1. cbn [trace settings].
    rewrite Hnz.
    unfold when, bind, log, emit, exit, add_event. cbn [negb trace settings].
    rewrite <- !List.app_assoc. reflexivity.
Qed.

Lemma win_sign_requires_signtool_witness :
  win_sign (quiet_host scenario_settings) scenario_locals (state_with scenario_settings)
  = (Exit 1,
     add_event (state_with scenario_settings)
       [Log "missing env var SIGNTOOL, should be the path to the Windows SDK signtool.exe binary."]).
Proof.
  apply (win_sign_requires_signtool (quiet_host scenario_settings) scenario_locals
           (state_with scenario_settings)).
  reflexivity.
Defined.

(** *** Windows packaging *)

Lemma Entry_induction (P : Entry -> Prop) :
  (forall name, P (File name)) ->
  (forall name entries, Forall P entries -> P (Dir name entries)) ->
  forall e, P e.
Proof.
  intros Hf Hd. fix IH 1. intros [name|name entries]; [apply Hf|].
  apply Hd. induction entries as [|e entries IHe]; constructor; [apply IH|exact IHe].
Qed.

Lemma hr_after_app (c : Com) (basePath : path) (a b : list (list string)) (hr : HRESULT) :
  hr_after c basePath (a ++ b)%list hr = hr_after c basePath b (hr_after c basePath a hr).
Proof. unfold hr_after. apply List.fold_left_app. Qed.

Lemma hr_after_cons_map (c : Com) (basePath : path) (name : string)
    (files : list (list string)) (hr : HRESULT) :
  hr_after c basePath (List.map (cons name) files) hr
  = hr_after c (Path.join Win basePath name) files hr.
Proof.
  revert hr. induction files as [|f files IH]; intros hr; [reflexivity|].
  simpl. apply IH.
Qed.

Lemma visit_cons_map (c : Com) (basePath last : path) (name : string)
    (files : list (list string)) :
  List.map (visit c basePath last) (List.map (cons name) files)
  = List.map (visit c (Path.join Win basePath name) (Path.join Win last name)) files.
Proof. rewrite List.map_map. reflexivity. Qed.

Lemma walked_nil (c : Com) (basePath last : path) (w : Walk) :
  walked c basePath last [] w = w.
Proof. destruct w. unfold walked. simpl. rewrite List.app_nil_r. reflexivity. Qed.

Lemma walked_app (c : Com) (basePath last : path) (a b : list (list string)) (w : Walk) :
  walked c basePath last (a ++ b)%list w
  = walked c basePath last b (walked c basePath last a w).
Proof.
  unfold walked. simpl. rewrite hr_after_app, List.map_app, List.app_assoc. reflexivity.
Qed.

Lemma addEntry_with_writer (c : Com) (e : Entry) :
  forall (basePath last : path) (w : Walk),
    addEntry c true basePath last e w = Done (walked c basePath last (reached e) w).
Proof.
  induction e as [name|name entries IH] using Entry_induction; intros basePath last w.
  - simpl. destruct (is_manifest name); [rewrite walked_nil; reflexivity|].
    unfold walked, visit, below, hr_after. simpl.
    destruct (SUCCEEDED (openStream c (Path.join Win basePath name))); reflexivity.
  - simpl. destruct (is_manifest name); [rewrite walked_nil; reflexivity|].
    assert (Hw : walked c basePath last (List.map (cons name) (List.flat_map reached entries)) w
                 = walked c (Path.join Win basePath name) (Path.join Win last name)
                     (List.flat_map reached entries) w).
    { unfold walked. rewrite hr_after_cons_map, visit_cons_map. reflexivity. }
    rewrite Hw. clear Hw.
    generalize (Path.join Win basePath name) (Path.join Win last name). intros b l.
    revert w. induction IH as [|e entries He _ IHes]; intros w.
    + rewrite walked_nil. reflexivity.
    + rewrite He. simpl. rewrite walked_app. apply IHes.
Qed.

Lemma addFiles_with_writer (c : Com) (basePath last : path) (entries : list Entry) :
  forall w,
    addFiles c true basePath last entries w
    = Done (walked c basePath last (List.flat_map reached entries) w).
Proof.
  induction entries as [|e entries IH]; intros w.
  - simpl. rewrite walked_nil. reflexivity.
  - simpl. rewrite addEntry_with_writer, walked_app. apply IH.
Qed.

Lemma package_with_writer (c : Com) (pathPackage : path) (entries : list Entry) :
  SUCCEEDED (CoInitializeEx c) = true ->
  SUCCEEDED (GetPackageWriter c (pathPackage ++ ".appx")) = true ->
  package c pathPackage entries
  = Done (finish c pathPackage
            (walked c pathPackage "" (List.flat_map reached entries)
               {| w_hr := GetPackageWriter c (pathPackage ++ ".appx"); w_calls := [] |})).
Proof.
  intros Hinit Hwriter. unfold package. rewrite Hinit. cbv zeta. rewrite Hwriter.
  rewrite addFiles_with_writer. unfold finish.
  set (w := walked c pathPackage "" _ _).
  destruct (SUCCEEDED (w_hr w)) eqn:Hw; cbn [w_hr w_calls].
  - destruct (SUCCEEDED (openStream c _)) eqn:Hm; cbn [w_hr w_calls].
    + destruct (SUCCEEDED (closeWriter c _)); cbn [w_hr w_calls];
        rewrite <- List.app_assoc; reflexivity.
    + rewrite Hm. cbn [w_hr w_calls]. rewrite <- List.app_assoc. reflexivity.
  - rewrite Hw. cbn [w_hr w_calls]. rewrite Hw. rewrite <- !List.app_assoc. reflexivity.
Qed.

Lemma payload_app (a b : list AppxCall) : payload (a ++ b)%list = (payload a ++ payload b)%list.
Proof.
  induction a as [|x a IH]; [reflexivity|]. destruct x; simpl; rewrite IH; reflexivity.
Qed.

Lemma payload_visits (c : Com) (basePath last : path) (files : list (list string)) :
  payload (List.map (visit c basePath last) files)
  = List.map (fun names => (below last names, FindMimeFromData c (below basePath names)))
      (List.filter (opens c basePath) files).
Proof.
  induction files as [|f files IH]; [reflexivity|].
  simpl. unfold visit at 1, opens at 1.
  destruct (SUCCEEDED (openStream c (below basePath f))); simpl; rewrite IH; reflexivity.
Qed.

Lemma reached_no_manifest (e : Entry) :
  forall names, In names (reached e) -> Forall (fun n => is_manifest n = false) names.
Proof.
  induction e as [name|name entries IH] using Entry_induction; intros names Hin; simpl in Hin.
  - destruct (is_manifest name) eqn:E; [destruct Hin|].
    destruct Hin as [<-|[]]. repeat constructor. exact E.
  - destruct (is_manifest name) eqn:E; [destruct Hin|].
    apply List.in_map_iff in Hin as (rest & <- & Hin).
    constructor; [exact E|].
    apply List.in_flat_map in Hin as (e & He & Hin).
    rewrite List.Forall_forall in IH. exact (IH e He rest Hin).
Qed.

Lemma finish_keeps_calls (c : Com) (pathPackage : path) (w : Walk) :
  exists tail,
    w_calls (finish c pathPackage w) = (w_calls w ++ tail)%list /\ payload tail = [].
Proof.
  unfold finish. destruct (SUCCEEDED (w_hr w)); [destruct (SUCCEEDED (openStream c _))|];
    eexists; split; reflexivity.
Qed.

(** X19.  "Windows Packaging", once the package writer exists: the payload
    of the package consists of the files below the package directory whose
    stream opens, in the order of the directory iteration, each under the
    path made of its names from the package directory down.  An entry
    whose name begins with AppxManifest.xml is passed over, a directory of
    such a name with everything below it.  A file whose stream does not
    open is logged and left out of the payload. *)
Theorem appx_payload_is_the_files_that_open
    (c : Com) (pathPackage : path) (entries : list Entry) :
  SUCCEEDED (CoInitializeEx c) = true ->
  SUCCEEDED (GetPackageWriter c (pathPackage ++ ".appx")) = true ->
  let files := List.flat_map reached entries in
  exists w,
    package c pathPackage entries = Done w /\
    payload (w_calls w)
    = List.map (fun names => (below "" names, FindMimeFromData c (below pathPackage names)))
        (List.filter (opens c pathPackage) files) /\
    (forall names, In names files -> opens c pathPackage names = false ->
       In (AppxLog ("Could not add file: " ++ below pathPackage names)) (w_calls w)) /\
    (forall names, In names files -> Forall (fun n => is_manifest n = false) names).
Proof.
  intros Hinit Hwriter files. eexists. split; [apply package_with_writer; assumption|].
  match goal with |- context [finish c pathPackage ?w0] => set (w := w0) end.
  destruct (finish_keeps_calls c pathPackage w) as (tail & Hc & Ht).
  rewrite Hc. split; [|split].
  - rewrite payload_app, Ht, List.app_nil_r. subst w. cbn [walked w_calls List.app].
    apply payload_visits.
  - intros names Hin Hno. apply in_or_app. left. subst w. cbn [walked w_calls List.app].
    apply List.in_map_iff. exists names. split; [|exact Hin].
    unfold visit. unfold opens in Hno. rewrite Hno. reflexivity.
  - intros names Hin. apply List.in_flat_map in Hin as (e & _ & Hin).
    exact (reached_no_manifest e names Hin).
Qed.

(** X20.  "Windows Packaging", once the package writer exists: whether the
    package is closed depends on the last file visited alone.  When its
    stream opens, the manifest is attached and the package closed and
    reported as saved (if both succeed), although files visited before may
    have failed to open and are missing from the package.  When its
    stream does not open, the package is never closed and
    "Unable to save package" is reported with the error of that file. *)
Theorem appx_last_file_decides
    (c : Com) (pathPackage : path) (entries : list Entry)
    (before : list (list string)) (names : list string) :
  SUCCEEDED (CoInitializeEx c) = true ->
  SUCCEEDED (GetPackageWriter c (pathPackage ++ ".appx")) = true ->
  List.flat_map reached entries = (before ++ [names])%list ->
  let manifest := Path.join Win pathPackage "AppxManifest.xml" in
  let visits := List.map (visit c pathPackage "") (before ++ [names])%list in
  let hrf := openStream c (below pathPackage names) in
  let hrc := closeWriter c (payload visits) in
  (SUCCEEDED hrf = true -> SUCCEEDED (openStream c manifest) = true ->
     package c pathPackage entries
     = Done {| w_hr := hrc;
               w_calls :=
                 (visits
                    ++ [ClosePackage manifest;
                        AppxLog (if SUCCEEDED hrc then "Package saved"
                                 else "Unable to save package; " ++ ErrorMessage c hrc)])%list |}) /\
  (SUCCEEDED hrf = false ->
     package c pathPackage entries
     = Done {| w_hr := hrf;
               w_calls :=
                 (visits
                    ++ [AppxLog "Could not get package writer or add files";
                        AppxLog "Could not generate AppxManifest.xml";
                        AppxLog ("Unable to save package; " ++ ErrorMessage c hrf)])%list |}).
Proof.
  intros Hinit Hwriter Hfiles manifest visits hrf hrc.
  rewrite package_with_writer by assumption. rewrite Hfiles.
  assert (Hhr : forall w0, w_hr (walked c pathPackage "" (before ++ [names]) w0) = hrf).
  { intros w0. cbn [walked w_hr]. rewrite hr_after_app. reflexivity. }
  unfold finish. rewrite Hhr. cbn [walked w_calls List.app]. fold visits. fold manifest.
  split.
  - intros Hf Hm. rewrite Hf, Hm. fold hrc. reflexivity.
  - intros Hf. rewrite Hf. reflexivity.
Qed.

Lemma walked_null_cons_map (c : Com) (basePath : path) (name : string)
    (files : list (list string)) :
  forall w,
    walked_null c basePath (List.map (cons name) files) w
    = walked_null c (Path.join Win basePath name) files w.
Proof.
  induction files as [|f files IH]; intros w; [reflexivity|].
  simpl. unfold opens, below. simpl. fold (below (Path.join Win basePath name) f).
  destruct (SUCCEEDED (openStream c (below (Path.join Win basePath name) f)));
    [reflexivity|apply IH].
Qed.

Lemma walked_null_app (c : Com) (basePath : path) (a b : list (list string)) :
  forall w,
    walked_null c basePath (a ++ b)%list w
    = match walked_null c basePath a w with
      | Done w' => walked_null c basePath b w'
      | NullWriter made => NullWriter made
      end.
Proof.
  induction a as [|f a IH]; intros w; [reflexivity|].
  simpl. destruct (opens c basePath f); [reflexivity|apply IH].
Qed.

Lemma addEntry_without_writer (c : Com) (e : Entry) :
  forall (basePath last : path) (w : Walk),
    addEntry c false basePath last e w = walked_null c basePath (reached e) w.
Proof.
  induction e as [name|name entries IH] using Entry_induction; intros basePath last w.
  - simpl. destruct (is_manifest name); [reflexivity|].
    simpl. unfold opens, below. simpl.
    destruct (SUCCEEDED (openStream c (Path.join Win basePath name))); reflexivity.
  - simpl. destruct (is_manifest name); [reflexivity|].
    rewrite walked_null_cons_map.
    generalize (Path.join Win basePath name) (Path.join Win last name). intros b l.
    revert w. induction IH as [|e entries He _ IHes]; intros w; [reflexivity|].
    rewrite He. simpl. rewrite walked_null_app.
    destruct (walked_null c b (reached e) w); [apply IHes|reflexivity].
Qed.

Lemma addFiles_without_writer (c : Com) (basePath last : path) (entries : list Entry) :
  forall w,
    addFiles c false basePath last entries w
    = walked_null c basePath (List.flat_map reached entries) w.
Proof.
  induction entries as [|e entries IH]; intros w; [reflexivity|].
  simpl. rewrite addEntry_without_writer, walked_null_app.
  destruct (walked_null c basePath (reached e) w); [apply IH|reflexivity].
Qed.

Lemma walked_null_opens (c : Com) (basePath : path) (files : list (list string)) :
  (exists names, In names files /\ opens c basePath names = true) ->
  forall w, exists made, walked_null c basePath files w = NullWriter made.
Proof.
  intros (names & Hin & Ho). induction files as [|f files IH]; [destruct Hin|].
  intros w. simpl. destruct (opens c basePath f) eqn:Ef; [eexists; reflexivity|].
  destruct Hin as [->|Hin]; [congruence|]. apply IH. exact Hin.
Qed.

Lemma walked_null_closed (c : Com) (basePath last : path) (files : list (list string)) :
  (forall names, In names files -> opens c basePath names = false) ->
  forall w, walked_null c basePath files w = Done (walked c basePath last files w).
Proof.
  induction files as [|f files IH]; intros Hno w.
  - simpl. rewrite walked_nil. reflexivity.
  - simpl. rewrite (Hno f) by (left; reflexivity).
    rewrite IH by (intros names Hin; apply Hno; right; exact Hin).
    unfold walked, visit. cbn [w_hr w_calls List.map hr_after List.fold_left].
    pose proof (Hno f (or_introl eq_refl)) as Hf. unfold opens in Hf. rewrite Hf.
    rewrite <- List.app_assoc. reflexivity.
Qed.

(** X21.  "Windows Packaging", when the package writer could not be
    created: the files are walked all the same.  If the stream of some
    file opens, [AddPayloadFile] is called through the null writer; if
    none opens (or there is no file), every file is logged, the package is
    not closed and "Unable to save package" is reported. *)
Theorem appx_walks_files_without_writer
    (c : Com) (pathPackage : path) (entries : list Entry) :
  SUCCEEDED (CoInitializeEx c) = true ->
  SUCCEEDED (GetPackageWriter c (pathPackage ++ ".appx")) = false ->
  let files := List.flat_map reached entries in
  let hr := hr_after c pathPackage files (GetPackageWriter c (pathPackage ++ ".appx")) in
  ((exists names, In names files /\ opens c pathPackage names = true) ->
     exists made, package c pathPackage entries = NullWriter made) /\
  ((forall names, In names files -> opens c pathPackage names = false) ->
     package c pathPackage entries
     = Done {| w_hr := hr;
               w_calls :=
                 (List.map (fun names => AppxLog ("Could not add file: " ++ below pathPackage names))
                    files
                    ++ [AppxLog "Could not get package writer or add files";
                        AppxLog "Could not generate AppxManifest.xml";
                        AppxLog ("Unable to save package; " ++ ErrorMessage c hr)])%list |}).
Proof.
  intros Hinit Hwriter files hr. unfold package. rewrite Hinit. cbv zeta. rewrite Hwriter.
  rewrite addFiles_without_writer. fold files. split.
  - intros Hopen.
    destruct (walked_null_opens c pathPackage files Hopen
                {| w_hr := GetPackageWriter c (pathPackage ++ ".appx"); w_calls := [] |})
      as (made & ->).
    exists made. reflexivity.
  - intros Hno. rewrite (walked_null_closed c pathPackage "" files Hno).
    assert (Hhr : SUCCEEDED hr = false).
    { subst hr. clear - Hno Hwriter. revert Hwriter.
      generalize (GetPackageWriter c (pathPackage ++ ".appx")).
      induction files as [|f files IH]; intros h Hh; [exact Hh|].
      simpl. apply IH; [intros names Hin; apply Hno; right; exact Hin|].
      apply (Hno f). left. reflexivity. }
    cbn [walked w_hr w_calls List.app]. fold hr. rewrite Hhr. cbn [w_hr w_calls].
    rewrite Hhr. cbn [w_hr w_calls]. rewrite Hhr.
    assert (Hmap : List.map (visit c pathPackage "") files
                   = List.map (fun names => AppxLog ("Could not add file: "
                                                       ++ below pathPackage names)) files).
    { apply List.map_ext_in. intros names Hin. unfold visit.
      pose proof (Hno names Hin) as Hf. unfold opens in Hf. rewrite Hf. reflexivity. }
    rewrite Hmap, <- !List.app_assoc. reflexivity.
Qed.

Lemma appx_payload_is_the_files_that_open_witness :
  exists w,
    package com_ok "out\app-1.0" package_entries = Done w /\
    payload (w_calls w) = [("assets\icon.png", None); ("app.exe", None)].
Proof.
  destruct (appx_payload_is_the_files_that_open com_ok "out\app-1.0" package_entries)
    as (w & E & Hp & _); [reflexivity|reflexivity|].
  exists w. split; [exact E|exact Hp].
Defined.

Lemma appx_last_file_decides_witness :
  exists calls,
    package com_ok "out\app-1.0" package_entries = Done {| w_hr := 0; w_calls := calls |} /\
    In (AppxLog "Could not add file: out\app-1.0\assets\locked.bin") calls /\
    In (AppxLog "Package saved") calls.
Proof.
  eexists. split.
  - apply (proj1 (appx_last_file_decides com_ok "out\app-1.0" package_entries
                    [["assets"; "locked.bin"]; ["assets"; "icon.png"]] ["app.exe"]
                    eq_refl eq_refl eq_refl));
      reflexivity.
  - split; vm_compute; tauto.
Defined.

Lemma appx_walks_files_without_writer_witness :
  exists made, package com_without_factory "out\app-1.0" package_entries = NullWriter made.
Proof.
  apply (appx_walks_files_without_writer com_without_factory "out\app-1.0" package_entries);
    try reflexivity.
  exists ["app.exe"]. split; [right; right; left; reflexivity|reflexivity].
Defined.

(** *** A flag without effect; running the binary *)

Lemma pipeline_ignores_app_store (H : Host) (pl : Platform) (f : Flags) (b : bool)
    (target : path) (_settings : string) :
  pipeline H pl (with_app_store f b) target _settings = pipeline H pl f target _settings.
Proof. destruct f. reflexivity. Qed.

Lemma existsb_snoc {A} (p : A -> bool) (l : list A) (x : A) :
  p x = false -> existsb p (l ++ [x]) = existsb p l.
Proof. intros Hx. rewrite existsb_app. simpl. rewrite Hx, !orb_false_r. reflexivity. Qed.

Lemma nth_1_snoc (argv : list string) (x : string) :
  (2 <= length argv)%nat -> List.nth 1 (argv ++ [x]) EmptyString = List.nth 1 argv EmptyString.
Proof. intros Hlen. apply List.app_nth1. lia. Qed.

(** X24.  The app store flag has no effect.  No test of the argument loop
    looks for [-b]; the loop sets the flag on [-s], and nothing ever reads
    it: a command line with a project directory and without [-h] does
    exactly the same with [-b] or [-s] appended as without. *)
Theorem app_store_flag_has_no_effect
    (H : Host) (pl : Platform) (argv : list string) (st : State) :
  (2 <= length argv)%nat ->
  existsb (Str.found "-h") argv = false ->
  main H pl (argv ++ ["-b"]) st = main H pl argv st /\
  main H pl (argv ++ ["-s"]) st = main H pl argv st.
Proof.
  intros Hlen Hh.
  assert (Hrun : forall x, Str.found "-h" x = false ->
            forall b, flags_of (argv ++ [x]) = with_app_store (flags_of argv) b ->
            main H pl (argv ++ [x]) st = main H pl argv st).
  { intros x Hx b Hf.
    assert (Hlen' : (2 <= length (argv ++ [x]))%nat)
      by (rewrite List.length_app; simpl; lia).
    assert (Hh' : existsb (Str.found "-h") (argv ++ [x]) = false)
      by (rewrite existsb_snoc by exact Hx; exact Hh).
    rewrite (main_run H pl (argv ++ [x]) st Hlen' Hh'), (main_run H pl argv st Hlen Hh).
    cbv zeta. rewrite nth_1_snoc by exact Hlen. rewrite Hf.
    unfold bind. destruct (validate _) as [[u| | |] st1];
      [rewrite pipeline_ignores_app_store; reflexivity | reflexivity..]. }
  split.
  - apply (Hrun "-b" eq_refl (existsb (Str.found "-s") argv)).
    unfold flags_of, with_app_store. cbn [flagRunUserBuild flagCodeSign flagShouldRun
      flagEntitlements flagShouldNotarize flagDebugMode flagShouldPackage].
    rewrite !existsb_snoc by reflexivity. reflexivity.
  - apply (Hrun "-s" eq_refl true).
    unfold flags_of, with_app_store. cbn [flagRunUserBuild flagCodeSign flagShouldRun
      flagEntitlements flagShouldNotarize flagDebugMode flagShouldPackage].
    rewrite !(existsb_snoc (Str.found "-o")), !(existsb_snoc (Str.found "-c")),
      !(existsb_snoc (Str.found "-r")), !(existsb_snoc (Str.found "-me")),
      !(existsb_snoc (Str.found "-mn")), !(existsb_snoc (Str.found "-xd")),
      !(existsb_snoc (Str.found "-p")) by reflexivity.
    rewrite existsb_app. simpl. rewrite orb_true_r. reflexivity.
Qed.

Lemma app_store_flag_has_no_effect_witness :
  main (quiet_host scenario_settings) Linux (["opkit"; "proj"] ++ ["-s"]) initial_state
  = main (quiet_host scenario_settings) Linux ["opkit"; "proj"] initial_state.
Proof.
  apply (app_store_flag_has_no_effect (quiet_host scenario_settings) Linux
           ["opkit"; "proj"] initial_state).
  - simpl. lia.
  - reflexivity.
Defined.

(** X23.  With [-r] the command started is the binary the compile step
    wrote: the path of the package's binary directory joined with the
    executable name ([.exe] appended on Windows), as long as the
    [executable] setting is what it was when the package was prepared.
    What the started program returns is ignored: the step always
    completes. *)
Theorem run_starts_the_compiled_binary
    (H : Host) (pl : Platform) (f : Flags) (target : path) (st st' st2 : State)
    (pathOutput executable : path) (l : Locals) :
  prepare H pl f target st = (Ok (pathOutput, executable, l), st') ->
  get "executable" (settings st2) = get "executable" (settings st') ->
  run_step H pl l st2
  = (Ok tt,
     {| settings := touch "executable" (settings st2);
        trace := (trace st2 ++ [System (pathToString H (binaryPath pl l executable))])%list |}).
Proof.
  intros E He. apply prepare_layout in E as (_ & Hex & _ & _ & _ & Hs).
  unfold run_step, bind, settings_at, system_, ret. cbn [trace settings].
  rewrite He, Hs, Hex. unfold binaryPath.
  destruct pl; cbn [win]; rewrite ?app_nil_r; reflexivity.
Qed.

Lemma run_starts_the_compiled_binary_witness :
  exists l st',
    prepare (quiet_host scenario_settings) Win release_flags "proj"
      (state_with scenario_settings) = (Ok ("dist", "foo.exe", l), st') /\
    trace (snd (run_step (no_dpkg_host scenario_settings) Win l st'))
    = (trace st' ++ [System "/work\proj\dist\foo-1.0\foo.exe"])%list.
Proof.
  destruct (prepare (quiet_host scenario_settings) Win release_flags "proj"
              (state_with scenario_settings)) as [o st'] eqn:E.
  assert (Ho : exists l, o = Ok ("dist", "foo.exe", l) /\ pathBin l = "/work\proj\dist\foo-1.0").
  { replace o with (fst (o, st')) by reflexivity. rewrite <- E.
    vm_compute. eexists. split; reflexivity. }
  destruct Ho as (l & -> & Hb). exists l, st'. split; [reflexivity|].
  rewrite (run_starts_the_compiled_binary (no_dpkg_host scenario_settings) Win _ _ _ _ st' _ _ _ E
             eq_refl).
  cbn [snd trace]. unfold binaryPath. rewrite Hb. reflexivity.
Defined.

(** *** The compiler inputs *)

Lemma yields_bind {A B} (P : A -> Prop) (Q : B -> Prop) (m : M A) (k : A -> M B) :
  yields P m -> (forall a, P a -> yields Q (k a)) -> yields Q (bind m k).
Proof.
  intros Hm Hk st b st' E. apply bind_ok in E as (a & st1 & E1 & E2).
  exact (Hk a (Hm st a st1 E1) st1 b st' E2).
Qed.

Lemma yields_any {A} (m : M A) : yields (fun _ => True) m.
Proof. intros st a st' _. exact I. Qed.

Lemma yields_ret {A} (Q : A -> Prop) (a : A) : Q a -> yields Q (ret a).
Proof. intros Ha st a' st' [= <- _]. exact Ha. Qed.

Lemma yields_getCxxFlags (H : Host) :
  yields (fun v => exists h, v = cxx_flags_suffix (getEnv H h "CXX_FLAGS")) (getCxxFlags H).
Proof.
  intros st v st' E. unfold getCxxFlags, bind, getEnv_, ask, ret in E.
  injection E as <- _. exists (trace st). reflexivity.
Qed.

(** peel the statements whose value does not matter *)
Ltac yields_skip :=
  repeat (apply (yields_bind (fun _ => True)); [apply yields_any|intros ? _; cbv zeta]).

(** X22.  The compiler inputs the preparation fixes: on macOS and Linux the
    flags are the platform's fixed flags followed by a space and
    $CXX_FLAGS when that variable is not empty, and the sources are
    src/main.cc and src/process_unix.cc; on Windows the flags are fixed
    include and library options built from the install prefix, $CXX_FLAGS
    is not consulted, and the sources are src\main.cc and
    src\process_win.cc.  The source names are passed through
    [prefixFile] and concatenated as they come. *)
Theorem prepare_fixes_compiler_inputs
    (H : Host) (pl : Platform) (f : Flags) (target : path) (st st' : State)
    (pathOutput executable : path) (l : Locals) :
  prepare H pl f target st = (Ok (pathOutput, executable, l), st') ->
  match pl with
  | Mac =>
      (exists h,
         flags l = "-std=c++2a -framework WebKit -framework Cocoa -ObjC++"
                     ++ cxx_flags_suffix (getEnv H h "CXX_FLAGS")) /\
      files l = prefixFile H "src/main.cc" ++ prefixFile H "src/process_unix.cc"
  | Linux =>
      (exists h,
         flags l = "-std=c++2a `pkg-config --cflags --libs gtk+-3.0 webkit2gtk-4.0`"
                     ++ cxx_flags_suffix (getEnv H h "CXX_FLAGS")) /\
      files l = prefixFile H "src/main.cc" ++ prefixFile H "src/process_unix.cc"
  | Win =>
      flags l = " -std=c++20 -I" ++ prefixFile H "" ++ " -I" ++ prefixFile H ""
                  ++ "\src\win64 -L" ++ prefixFile H "" ++ "\src\win64" /\
      files l = prefixFile H "src\main.cc" ++ prefixFile H "src\process_win.cc"
  end.
Proof.
  intros E. unfold prepare in E.
  apply bind_ok in E as (out & s1 & _ & E).
  apply bind_ok in E as (u & s2 & _ & E).
  apply bind_ok in E as (exe & s3 & _ & E).
  enough (Hy : yields (fun r : path * path * Locals =>
            let '(_, _, l) := r in
            match pl with
            | Mac =>
                (exists h,
                   flags l = "-std=c++2a -framework WebKit -framework Cocoa -ObjC++"
                               ++ cxx_flags_suffix (getEnv H h "CXX_FLAGS")) /\
                files l = prefixFile H "src/main.cc" ++ prefixFile H "src/process_unix.cc"
            | Linux =>
                (exists h,
                   flags l = "-std=c++2a `pkg-config --cflags --libs gtk+-3.0 webkit2gtk-4.0`"
                               ++ cxx_flags_suffix (getEnv H h "CXX_FLAGS")) /\
                files l = prefixFile H "src/main.cc" ++ prefixFile H "src/process_unix.cc"
            | Win =>
                flags l = " -std=c++20 -I" ++ prefixFile H "" ++ " -I" ++ prefixFile H ""
                            ++ "\src\win64 -L" ++ prefixFile H "" ++ "\src\win64" /\
                files l = prefixFile H "src\main.cc" ++ prefixFile H "src\process_win.cc"
            end)
            (bind (if mac pl then mac_prep H pl target out initial_locals else ret initial_locals)
               (fun l =>
                bind (if linux pl then linux_prep H pl target out l else ret l) (fun l =>
                bind (if win pl then win_prep H pl target out l else ret l) (fun l =>
                bind (log "package prepared") (fun _ =>
                ret (out, exe ++ (if win pl then ".exe" else ""), l)))))))
    by exact (Hy _ _ _ E).
  clear. destruct pl; cbn [mac linux win].
  - apply (yields_bind (fun l => (exists h,
               flags l = "-std=c++2a -framework WebKit -framework Cocoa -ObjC++"
                           ++ cxx_flags_suffix (getEnv H h "CXX_FLAGS")) /\
             files l = prefixFile H "src/main.cc" ++ prefixFile H "src/process_unix.cc")).
    + unfold mac_prep.
      apply (yields_bind (fun _ => True)); [apply yields_any|intros ? _].
      apply (yields_bind _ _ _ _ (yields_getCxxFlags H)). intros v Hv. cbv zeta.
      yields_skip. apply yields_ret. cbn [flags files initial_locals].
      destruct Hv as (h & ->). split; [exists h; reflexivity|reflexivity].
    + intros l Hl.
      apply (yields_bind (fun x => x = l)); [apply yields_ret; reflexivity|intros ? ->].
      apply (yields_bind (fun x => x = l)); [apply yields_ret; reflexivity|intros ? ->].
      yields_skip. apply yields_ret. exact Hl.
  - apply (yields_bind (fun l => l = initial_locals)); [apply yields_ret; reflexivity|].
    intros l ->.
    apply (yields_bind (fun l => (exists h,
               flags l = "-std=c++2a `pkg-config --cflags --libs gtk+-3.0 webkit2gtk-4.0`"
                           ++ cxx_flags_suffix (getEnv H h "CXX_FLAGS")) /\
             files l = prefixFile H "src/main.cc" ++ prefixFile H "src/process_unix.cc")).
    + unfold linux_prep.
      apply (yields_bind (fun _ => True)); [apply yields_any|intros ? _].
      apply (yields_bind _ _ _ _ (yields_getCxxFlags H)). intros v Hv. cbv zeta.
      yields_skip. apply yields_ret. cbn [flags files initial_locals].
      destruct Hv as (h & ->). split; [exists h; reflexivity|reflexivity].
    + intros l Hl.
      apply (yields_bind (fun x => x = l)); [apply yields_ret; reflexivity|intros ? ->].
      yields_skip. apply yields_ret. exact Hl.
  - apply (yields_bind (fun l => l = initial_locals)); [apply yields_ret; reflexivity|].
    intros l ->.
    apply (yields_bind (fun l => l = initial_locals)); [apply yields_ret; reflexivity|].
    intros l ->.
    apply (yields_bind (fun l =>
             flags l = " -std=c++20 -I" ++ prefixFile H "" ++ " -I" ++ prefixFile H ""
                         ++ "\src\win64 -L" ++ prefixFile H "" ++ "\src\win64" /\
             files l = prefixFile H "src\main.cc" ++ prefixFile H "src\process_win.cc")).
    + unfold win_prep. yields_skip. apply yields_ret. cbn [flags files initial_locals].
      split; reflexivity.
    + intros l Hl. yields_skip. apply yields_ret. exact Hl.
Qed.

Lemma prepare_fixes_compiler_inputs_witness :
  exists l st',
    prepare (quiet_host scenario_settings) Win release_flags "proj"
      (state_with scenario_settings) = (Ok ("dist", "foo.exe", l), st') /\
    files l = "src\main.ccsrc\process_win.cc".
Proof.
  destruct (prepare (quiet_host scenario_settings) Win release_flags "proj"
              (state_with scenario_settings)) as [o st'] eqn:E.
  assert (Ho : exists l, o = Ok ("dist", "foo.exe", l)).
  { replace o with (fst (o, st')) by reflexivity. rewrite <- E.
    vm_compute. eexists. reflexivity. }
  destruct Ho as (l & ->). exists l, st'. split; [reflexivity|].
  exact (proj2 (prepare_fixes_compiler_inputs _ Win _ _ _ _ _ _ _ E)).
Defined.
